(** * scan-build: the compiler interception helpers of [libscanbuild]

    A shallow embedding of [libscanbuild/__init__.py] and
    [analyzer/decorators.py], and the properties of the interception
    protocol proved over it.

    Conventions of the embedding.
    - A Python [str] is the list of its code points ([pystr]); a [bytes]
      object is a list of octets.  String literals of the source are written
      [lit "..."].
    - A call that may raise returns an [outcome]: [Return v] or [Raise e].
    - The process state that the functions touch (the root logger, the
      logging calls made, the subprocesses started) is threaded explicitly
      as a [world].
    - Python sets are [gset]s of stdpp. *)

From Stdlib Require Import ZArith NArith List String Ascii Bool Lia.
From Stdlib Require Import DecimalZ DecimalPos.
From stdpp Require Import base list gmap sets.

Local Open Scope Z_scope.

(** ** Python strings *)

Abbreviation pystr := (list N).

(** An ASCII literal of the source as a [pystr]. *)
Definition lit (s : string) : pystr :=
  map N_of_ascii (list_ascii_of_string s).
Arguments lit s%_string.

(** ** Exceptions and outcomes *)

(** The text of a subprocess as [check_output] hands it over ([bytes]), and
    as [run_command] leaves it in the exception (a list of lines). *)
Inductive captured :=
  | RawOutput (data : list Byte.byte)
  | OutputLines (lines : list pystr).

(** The exceptions the embedding tells apart.  [KeyboardInterrupt],
    [SystemExit], [GeneratorExit] and [OtherBaseException] derive from
    [BaseException] only; every other constructor is a subclass of
    [Exception]. *)
Inductive exception :=
  | KeyboardInterrupt
  | SystemExit (code : Z)
  | GeneratorExit
  | OtherBaseException (name : pystr)
  | KeyError (arg : pystr)
  | IndexError
  | TypeError
  | JSONDecodeError
  | UnicodeDecodeError
  | OSError
  | CalledProcessError (returncode : Z) (cmd : list pystr) (output : captured)
  | OtherException (name : pystr) (message : pystr).

(** [isinstance(e, Exception)]: what an [except Exception] clause catches. *)
Definition is_Exception (e : exception) : bool :=
  match e with
  | KeyboardInterrupt | SystemExit _ | GeneratorExit | OtherBaseException _ =>
      false
  | _ => true
  end.

(** [isinstance(e, KeyboardInterrupt)]. *)
Definition is_KeyboardInterrupt (e : exception) : bool :=
  match e with
  | KeyboardInterrupt => true
  | _ => false
  end.

Inductive outcome (A : Type) :=
  | Return (v : A)
  | Raise (e : exception).
Arguments Return {A} v.
Arguments Raise {A} e.

(** ** The logging module and the process state *)

Module logging.
Definition NOTSET : Z := 0.
Definition DEBUG : Z := 10.
Definition INFO : Z := 20.
Definition WARNING : Z := 30.
Definition ERROR : Z := 40.
Definition CRITICAL : Z := 50.

Inductive stream := stdout | stderr.

(** A [StreamHandler] with its [Formatter]. *)
Record handler := StreamHandler { h_stream : stream; h_fmt : pystr }.

(** The root logger. *)
Record logger := Logger {
  level : Z;
  name : pystr;
  handlers : list handler
}.

(** The text handed to a logging call: a literal of the source, or
    [str(e)] of a caught exception. *)
Inductive message :=
  | Text (s : pystr)
  | StrOf (e : exception).
End logging.

(** What a run leaves behind, in order: the logging calls made (with the
    level of the call; [exc_info] is set by [logging.exception]), the
    subprocesses started, and [logging.shutdown()]. *)
Inductive event :=
  | LogCall (levelno : Z) (msg : logging.message) (exc_info : bool)
  | Exec (command : list pystr) (cwd : option pystr)
  | LoggingShutdown.

Record world := World {
  root : logging.logger;
  disable : Z;                      (* logging.root.manager.disable *)
  events : list event
}.

(** The state of a process that has not touched [logging] yet: the root
    logger is named [root], has level [WARNING] and no handler. *)
Definition fresh_world : world :=
  World (logging.Logger logging.WARNING (lit "root") []) 0 [].

(** A computation that reads and updates the process state and returns or
    raises. *)
Definition M (A : Type) : Type := world -> outcome A * world.

Definition ret {A} (v : A) : M A := fun w => (Return v, w).
Definition raise {A} (e : exception) : M A := fun w => (Raise e, w).
Definition bind {A B} (m : M A) (k : A -> M B) : M B :=
  fun w =>
    match m w with
    | (Return v, w') => k v w'
    | (Raise e, w') => (Raise e, w')
    end.
Definition lift {A} (o : outcome A) : M A := fun w => (o, w).

Notation "x <- m ;; k" := (bind m (fun x => k))
  (at level 100, m at next level, right associativity).
Notation "m ;;; k" := (bind m (fun _ => k))
  (at level 100, right associativity).

(** [try: body  except ...: ...]: [clauses e] is the body of the first
    [except] clause that matches [e], or [None] when no clause matches and
    the exception passes through.  An exception raised inside a clause is
    not caught by the other clauses. *)
Definition try_except {A} (body : M A) (clauses : exception -> option (M A))
  : M A :=
  fun w =>
    match body w with
    | (Return v, w') => (Return v, w')
    | (Raise e, w') =>
        match clauses e with
        | Some handler => handler w'
        | None => (Raise e, w')
        end
    end.

(** [try: body  finally: final]: [final] runs on every exit of [body]; the
    outcome of [body] stands unless [final] itself raises. *)
Definition try_finally {A} (body : M A) (final : M unit) : M A :=
  fun w =>
    let '(o, w') := body w in
    match final w' with
    | (Return _, w'') => (o, w'')
    | (Raise e, w'') => (Raise e, w'')
    end.

Definition record_event (ev : event) : M unit :=
  fun w => (Return tt, World (root w) (disable w) (events w ++ [ev])).

Definition set_root (lg : logging.logger) : M unit :=
  fun w => (Return tt, World lg (disable w) (events w)).

Definition get_root : M logging.logger := fun w => (Return (root w), w).

Module logging_calls.
Import logging.

Definition BASIC_FORMAT : pystr := lit "%(levelname)s:%(name)s:%(message)s".

(** [logging.basicConfig(format=fmt, level=lvl, stream=strm)]: configures
    the root logger only when it has no handler yet. *)
Definition basicConfig (fmt : pystr) (lvl : option Z) (strm : stream)
  : M unit :=
  lg <- get_root ;;
  match handlers lg with
  | [] =>
      set_root (Logger (match lvl with Some l => l | None => level lg end)
                       (name lg) [StreamHandler strm fmt])
  | _ :: _ => ret tt
  end.

(** The module-level [logging.debug], [logging.warning], [logging.error]
    and [logging.exception]: they call [basicConfig()] when the root
    logger has no handler, then log at the root logger. *)
Definition log (levelno : Z) (msg : message) (exc_info : bool) : M unit :=
  basicConfig BASIC_FORMAT None stderr ;;;
  record_event (LogCall levelno msg exc_info).

Definition debug (msg : pystr) : M unit := log DEBUG (Text msg) false.
Definition warning (msg : pystr) : M unit := log WARNING (Text msg) false.
Definition error (msg : message) : M unit := log ERROR msg false.
Definition exception (msg : pystr) : M unit := log ERROR (Text msg) true.

(** [logging.getLogger().isEnabledFor(levelno)] at the root logger. *)
Definition isEnabledFor (levelno : Z) : M bool :=
  fun w =>
    (Return ((disable w <? levelno) && (level (root w) <=? levelno)), w).

Definition shutdown : M unit := record_event LoggingShutdown.
End logging_calls.

(** ** Helpers from the standard library *)

(** [os.path.basename] of [posixpath]: what follows the last [/]. *)
Definition basename (p : pystr) : pystr :=
  fold_left (fun acc c => if (c =? 47)%N then [] else acc ++ [c]) p [].

(** [sys.argv[0]]. *)
Definition item0 (argv : list pystr) : outcome pystr :=
  match argv with
  | a :: _ => Return a
  | [] => Raise IndexError
  end.

(** [needle in haystack] for strings. *)
Fixpoint starts_with (needle s : pystr) : bool :=
  match needle, s with
  | [], _ => true
  | _ :: _, [] => false
  | a :: needle', b :: s' => (a =? b)%N && starts_with needle' s'
  end.

Fixpoint contains (needle s : pystr) : bool :=
  starts_with needle s
  || match s with
     | [] => false
     | _ :: s' => contains needle s'
     end.

(** ** Duplicate filter: [duplicate_check] *)

Module DuplicateFilter.
Section Filter.
(** [E] is the type of entries and [H] the type of hash values kept in the
    Python [set]. *)
Context {E H : Type} `{Countable H}.
Variable hash_function : E -> H.

(** The closure [predicate], with the captured [state] set made an
    explicit argument and result. *)
Definition predicate (entry : E) (state : gset H) : bool * gset H :=
  let entry_hash := hash_function entry in
  if decide (entry_hash ∉ state)
  then (false, {[ entry_hash ]} ∪ state)
  else (true, state).

(** Feeding a sequence of entries, one call after the other, to the same
    predicate. *)
Fixpoint feed (entries : list E) (state : gset H) : list bool * gset H :=
  match entries with
  | [] => ([], state)
  | entry :: rest =>
      let '(r, state') := predicate entry state in
      let '(rs, state'') := feed rest state' in
      (r :: rs, state'')
  end.

(** [duplicate_check] returns the predicate over a fresh, empty set. *)
Definition duplicate_check (entries : list E) : list bool * gset H :=
  feed entries ∅.

(** The hash values of a sequence of entries. *)
Definition hashes (entries : list E) : gset H :=
  list_to_set (map hash_function entries).
End Filter.
End DuplicateFilter.

(** ** Verbosity: [reconfigure_logging] *)

Module Verbosity.
Import logging logging_calls.

Definition fmt_plain : pystr := lit "%(name)s: %(levelname)s: %(message)s".
Definition fmt_funcName : pystr :=
  lit "%(name)s: %(levelname)s: %(funcName)s: %(message)s".

Definition reconfigure_logging (verbose_level : Z) : M unit :=
  (* exit when nothing to do *)
  if verbose_level =? 0 then ret tt
  else
    root <- get_root ;;
    (* tune level *)
    let level := WARNING - Z.min WARNING (10 * verbose_level) in
    (* be verbose with messages *)
    let fmt_string :=
      if verbose_level <=? 3 then fmt_plain else fmt_funcName in
    let handler := StreamHandler stdout fmt_string in
    set_root (Logger level (name root) [handler]).

(** Whether a format template prints the name of the logging function. *)
Definition has_funcName (fmt : pystr) : bool :=
  contains (lit "%(funcName)s") fmt.
End Verbosity.

(** ** Process entry guard: [command_entry_point] *)

Module EntryGuard.
Section Guard.
Import logging logging_calls.

(** [R] is the type of the values the decorated function returns;
    [int_value] is the Python int among them. *)
Context {R : Type}.
Variable int_value : Z -> R.
(** [sys.argv]. *)
Variable argv : list pystr.

Definition report_bug : pystr :=
  lit "Please report this bug and attach the output to the bug report".
Definition turn_on_verbose : pystr :=
  lit ("Please run this command again and turn on verbose mode "
       ++ "(add '-vvvv' as argument).").

Definition set_name (n : pystr) : M unit :=
  lg <- get_root ;; set_root (Logger (level lg) n (handlers lg)).

(** The two statements that open the [try] block. *)
Definition housekeeping : M unit :=
  basicConfig (lit "%(name)s: %(message)s") (Some WARNING) stdout ;;;
  argv0 <- lift (item0 argv) ;;
  set_name (basename argv0).

(** The closure [wrapper]; [function] stands for the decorated function
    applied to the arguments that [wrapper] received. *)
Definition wrapper (function : M R) : M R :=
  try_finally
    (try_except
       (housekeeping ;;;
        function)
       (fun e =>
          if is_KeyboardInterrupt e then
            Some (warning (lit "Keyboard interrupt") ;;;
                  ret (int_value 130))
          else if is_Exception e then
            Some (exception (lit "Internal error.") ;;;
                  verbose <- isEnabledFor DEBUG ;;
                  (if verbose : bool
                   then error (Text report_bug)
                   else error (Text turn_on_verbose)) ;;;
                  ret (int_value 64))
          else None))
    shutdown.

Definition command_entry_point (function : M R) : M R := wrapper function.
End Guard.
End EntryGuard.

(** ** Required state: [require] *)

Module Decorators.
Section Require.
Import logging_calls.

(** [V] is the type of the values of the state dictionary, [C] the type
    of the continuation and [R] the type of the results of the decorated
    function. *)
Context {V C R : Type}.
Variable required : list pystr.
(** [function.__name__] and the decorated function. *)
Variable function_name : pystr.
Variable function : gmap pystr V -> C -> M R.

Fixpoint precondition_from (keys : list pystr) (opts : gmap pystr V)
  : M unit :=
  match keys with
  | [] => ret tt
  | key :: rest =>
      if decide (key ∉ dom opts)
      then raise (KeyError (key ++ lit " not passed to " ++ function_name))
      else precondition_from rest opts
  end.

Definition precondition (opts : gmap pystr V) : M unit :=
  precondition_from required opts.

(** [None] is the Python [None] that the [except] clause returns. *)
Definition wrapper (opts : gmap pystr V) (cont : C) : M (option R) :=
  try_except
    (precondition opts ;;;
     r <- function opts cont ;;
     ret (Some r))
    (fun e =>
       if is_Exception e
       then Some (error (logging.StrOf e) ;;; ret None)
       else None).
End Require.
End Decorators.

(** ** Command runner: [run_command] and [run_build] *)

Module CommandRunner.
Import logging_calls.

(** [bytes.decode('utf-8')] in its strict mode, on the octets as numbers:
    [None] where Python raises [UnicodeDecodeError] (a stray or missing
    continuation octet, an overlong form, a surrogate, a code point above
    U+10FFFF). *)
Definition is_continuation (b : N) : bool := ((128 <=? b) && (b <=? 191))%N.

Definition second_of_three (b0 b1 : N) : bool :=
  (if b0 =? 224 then (160 <=? b1) && (b1 <=? 191)
   else if b0 =? 237 then (128 <=? b1) && (b1 <=? 159)
   else is_continuation b1)%N.

Definition second_of_four (b0 b1 : N) : bool :=
  (if b0 =? 240 then (144 <=? b1) && (b1 <=? 191)
   else if b0 =? 244 then (128 <=? b1) && (b1 <=? 143)
   else is_continuation b1)%N.

Fixpoint utf8_decode (bs : list N) : option pystr :=
  match bs with
  | [] => Some []
  | b0 :: t0 =>
      if (b0 <? 128)%N then cons b0 <$> utf8_decode t0
      else
        match t0 with
        | [] => None
        | b1 :: t1 =>
            if ((194 <=? b0) && (b0 <=? 223))%N then
              if is_continuation b1
              then cons ((b0 - 192) * 64 + (b1 - 128))%N <$> utf8_decode t1
              else None
            else
              match t1 with
              | [] => None
              | b2 :: t2 =>
                  if ((224 <=? b0) && (b0 <=? 239))%N then
                    if second_of_three b0 b1 && is_continuation b2
                    then cons ((b0 - 224) * 4096 + (b1 - 128) * 64
                               + (b2 - 128))%N
                           <$> utf8_decode t2
                    else None
                  else
                    match t2 with
                    | [] => None
                    | b3 :: t3 =>
                        if ((240 <=? b0) && (b0 <=? 244))%N then
                          if second_of_four b0 b1 && is_continuation b2
                             && is_continuation b3
                          then cons ((b0 - 240) * 262144 + (b1 - 128) * 4096
                                     + (b2 - 128) * 64 + (b3 - 128))%N
                                 <$> utf8_decode t3
                          else None
                        else None
                    end
              end
        end
  end.

(** [decode_when_needed]: the result of [check_output] is [bytes]. *)
Definition decode_when_needed (result : list Byte.byte) : outcome pystr :=
  match utf8_decode (map Byte.to_N result) with
  | Some text => Return text
  | None => Raise UnicodeDecodeError
  end.

(** The line boundaries of [str.splitlines]. *)
Definition is_linebreak (c : N) : bool :=
  ((c =? 10) || (c =? 13) || (c =? 11) || (c =? 12) || (c =? 28) || (c =? 29)
   || (c =? 30) || (c =? 133) || (c =? 8232) || (c =? 8233))%N.

(** [str.splitlines()]: [line] is the part of the current line read so far;
    a carriage return followed by a line feed is one boundary. *)
Fixpoint splitlines_from (line : pystr) (s : pystr) : list pystr :=
  match s with
  | [] => match line with [] => [] | _ :: _ => [line] end
  | c :: rest =>
      if is_linebreak c then
        match rest with
        | d :: rest' =>
            if ((c =? 13) && (d =? 10))%N
            then line :: splitlines_from [] rest'
            else line :: splitlines_from [] rest
        | [] => line :: splitlines_from [] rest
        end
      else splitlines_from (line ++ [c]) rest
  end.

Definition splitlines (s : pystr) : list pystr := splitlines_from [] s.

Section Runner.
(** [os.path.abspath] and [os.getcwd()]. *)
Variable abspath : pystr -> pystr.
Variable getcwd : outcome pystr.
(** What becomes of a child process started with a command in a directory:
    its exit status with all it wrote to stdout and stderr, or the
    exception of a failed start. *)
Variable spawn : list pystr -> option pystr -> outcome (Z * list Byte.byte).

(** [subprocess.check_output(command, cwd=directory,
    stderr=subprocess.STDOUT)]. *)
Definition check_output (command : list pystr) (directory : pystr)
  : M (list Byte.byte) :=
  record_event (Exec command (Some directory)) ;;;
  match spawn command (Some directory) with
  | Return (status, output) =>
      if status =? 0 then ret output
      else raise (CalledProcessError status command (RawOutput output))
  | Raise e => raise e
  end.

(** [subprocess.call(command)]. *)
Definition call (command : list pystr) : M Z :=
  record_event (Exec command None) ;;;
  match spawn command None with
  | Return (status, _) => ret status
  | Raise e => raise e
  end.

(** [os.path.abspath(cwd) if cwd else os.getcwd()]: [None] and the empty
    string are false. *)
Definition working_directory (cwd : option pystr) : outcome pystr :=
  match cwd with
  | Some (c :: p) => Return (abspath (c :: p))
  | Some [] | None => getcwd
  end.

Definition run_command (command : list pystr) (cwd : option pystr)
  : M (list pystr) :=
  try_except
    (directory <- lift (working_directory cwd) ;;
     debug (lit "exec command %s in %s") ;;;
     output <- check_output command directory ;;
     text <- lift (decode_when_needed output) ;;
     ret (splitlines text))
    (fun ex =>
       match ex with
       | CalledProcessError returncode cmd (RawOutput output) =>
           Some (text <- lift (decode_when_needed output) ;;
                 raise (CalledProcessError returncode cmd
                          (OutputLines (splitlines text))))
       | CalledProcessError _ _ (OutputLines _) =>
           Some (raise (OtherException (lit "AttributeError") []))
       | _ => None
       end).

(** [run_build(command)] with no further arguments. *)
Definition run_build (command : list pystr) : M Z :=
  debug (lit "run build %s, in environment: %s") ;;;
  exit_code <- call command ;;
  debug (lit "build finished with exit code: %d") ;;;
  ret exit_code.
End Runner.
End CommandRunner.

(** ** The [json] module *)

(** The values [json.loads] builds.  A JSON number with a fraction or an
    exponent becomes a Python [float]; the embedding keeps the text of the
    number and does no floating-point arithmetic.  The items of a [PDict]
    are in the order of the text; [dict_get] gives the last value of a key,
    as in the [dict] built from them. *)
#[warnings="-register-all"]
Inductive pyval :=
  | PNone
  | PBool (b : bool)
  | PInt (z : Z)
  | PFloat (text : pystr)
  | PStr (s : pystr)
  | PList (items : list pyval)
  | PDict (items : list (pystr * pyval)).

Fixpoint dict_get (key : pystr) (items : list (pystr * pyval))
  : option pyval :=
  match items with
  | [] => None
  | (k, v) :: rest =>
      match dict_get key rest with
      | Some v' => Some v'
      | None => if decide (k = key) then Some v else None
      end
  end.

(** [o[key]] for a string [key]. *)
Definition getitem (o : pyval) (key : pystr) : outcome pyval :=
  match o with
  | PDict items =>
      match dict_get key items with
      | Some v => Return v
      | None => Raise (KeyError key)
      end
  | _ => Raise TypeError
  end.

Module json.

(** *** Encoding: [json.dumps] with its defaults *)

Definition hex_digit (n : N) : N := (if n <? 10 then 48 + n else 87 + n)%N.

(** ['\\u{0:04x}'.format(n)]. *)
Definition u_escape (n : N) : pystr :=
  [92; 117; hex_digit (n / 4096 mod 16); hex_digit (n / 256 mod 16);
   hex_digit (n / 16 mod 16); hex_digit (n mod 16)]%N.

(** The replacement of one character in [encode_basestring_ascii]: the
    backslash, the double quote and whatever is outside the range from the
    space to the tilde are escaped, a character above U+FFFF as a surrogate
    pair. *)
Definition escape_char (c : N) : pystr :=
  (if c =? 92 then [92; 92]
   else if c =? 34 then [92; 34]
   else if (32 <=? c) && (c <=? 126) then [c]
   else if c =? 8 then [92; 98]
   else if c =? 12 then [92; 102]
   else if c =? 10 then [92; 110]
   else if c =? 13 then [92; 114]
   else if c =? 9 then [92; 116]
   else if c <? 65536 then u_escape c
   else
     let n := c - 65536 in
     u_escape (55296 + (n / 1024) mod 1024)
       ++ u_escape (56320 + n mod 1024))%N.

(** The code points that are characters: all up to U+10FFFF but the
    surrogates.  Every printable character is one of them. *)
Definition unicode_scalar (c : N) : Prop :=
  (c < 55296 \/ 57344 <= c < 1114112)%N.

Definition encode_basestring_ascii (s : pystr) : pystr :=
  34%N :: flat_map escape_char s ++ [34%N].

(** [int.__repr__]: the decimal digits, after a minus sign for a negative
    number. *)
Fixpoint digits (u : Decimal.uint) : pystr :=
  match u with
  | Decimal.Nil => []
  | Decimal.D0 u' => 48%N :: digits u'
  | Decimal.D1 u' => 49%N :: digits u'
  | Decimal.D2 u' => 50%N :: digits u'
  | Decimal.D3 u' => 51%N :: digits u'
  | Decimal.D4 u' => 52%N :: digits u'
  | Decimal.D5 u' => 53%N :: digits u'
  | Decimal.D6 u' => 54%N :: digits u'
  | Decimal.D7 u' => 55%N :: digits u'
  | Decimal.D8 u' => 56%N :: digits u'
  | Decimal.D9 u' => 57%N :: digits u'
  end.

Definition int_repr (z : Z) : pystr :=
  match Z.to_int z with
  | Decimal.Pos u => digits u
  | Decimal.Neg u => 45%N :: digits u
  end.

(** A [dict] with string keys, its values already encoded: the items are
    joined with a comma and a space, key and value with a colon and a
    space. *)
Fixpoint encode_items (items : list (pystr * pystr)) : pystr :=
  match items with
  | [] => []
  | [(k, v)] => encode_basestring_ascii k ++ [58; 32]%N ++ v
  | (k, v) :: rest =>
      encode_basestring_ascii k ++ [58; 32]%N ++ v ++ [44; 32]%N
        ++ encode_items rest
  end.

Definition encode_dict (items : list (pystr * pystr)) : pystr :=
  123%N :: encode_items items ++ [125%N].

(** *** Decoding: [json.loads] with its defaults *)

Definition is_whitespace (c : N) : bool :=
  ((c =? 32) || (c =? 9) || (c =? 10) || (c =? 13))%N.

Fixpoint skip_whitespace (s : pystr) : pystr :=
  match s with
  | c :: s' => if is_whitespace c then skip_whitespace s' else s
  | [] => []
  end.

Definition hex_value (c : N) : option N :=
  (if (48 <=? c) && (c <=? 57) then Some (c - 48)
   else if (97 <=? c) && (c <=? 102) then Some (c - 87)
   else if (65 <=? c) && (c <=? 70) then Some (c - 55)
   else None)%N.

(** Four hexadecimal digits. *)
Definition decode_uXXXX (s : pystr) : option (N * pystr) :=
  match s with
  | a :: b :: c :: d :: rest =>
      a' ← hex_value a; b' ← hex_value b;
      c' ← hex_value c; d' ← hex_value d;
      Some (((a' * 16 + b') * 16 + c') * 16 + d', rest)%N
  | _ => None
  end.

(** What follows a backslash and [u]: one code unit, or a high surrogate
    and, in a second escape right after it, a low surrogate, which are
    joined. *)
Definition scan_unicode_escape (s : pystr) : option (N * pystr) :=
  '(uni, s1) ← decode_uXXXX s;
  if ((55296 <=? uni) && (uni <=? 56319))%N then
    match s1 with
    | 92%N :: 117%N :: s2 =>
        '(uni2, s3) ← decode_uXXXX s2;
        if ((56320 <=? uni2) && (uni2 <=? 57343))%N
        then Some (65536 + ((uni - 55296) * 1024 + (uni2 - 56320)), s3)%N
        else Some (uni, s1)
    | _ => Some (uni, s1)
    end
  else Some (uni, s1).

(** The one-letter escapes. *)
Definition backslash (esc : N) : option N :=
  (if esc =? 34 then Some 34
   else if esc =? 92 then Some 92
   else if esc =? 47 then Some 47
   else if esc =? 98 then Some 8
   else if esc =? 102 then Some 12
   else if esc =? 110 then Some 10
   else if esc =? 114 then Some 13
   else if esc =? 116 then Some 9
   else None)%N.

(** [scanstring], strict: the text after the opening quote, up to the
    closing one; [None] where it raises.  Each round yields one character,
    [fuel] bounds the rounds. *)
Fixpoint scanstring (fuel : nat) (s : pystr) : option (pystr * pystr) :=
  match fuel with
  | O => None
  | S fuel' =>
      match s with
      | [] => None
      | c :: s1 =>
          if (c =? 34)%N then Some ([], s1)
          else if (c =? 92)%N then
            match s1 with
            | [] => None
            | esc :: s2 =>
                '(char, s3) ←
                  (if (esc =? 117)%N then scan_unicode_escape s2
                   else (char ← backslash esc; Some (char, s2)));
                '(chars, rest) ← scanstring fuel' s3;
                Some (char :: chars, rest)
            end
          else if (c <? 32)%N then None
          else
            '(chars, rest) ← scanstring fuel' s1;
            Some (c :: chars, rest)
      end
  end.

Definition is_digit (c : N) : bool := ((48 <=? c) && (c <=? 57))%N.

Fixpoint span_digits (s : pystr) : pystr * pystr :=
  match s with
  | c :: s' =>
      if is_digit c
      then let '(ds, rest) := span_digits s' in (c :: ds, rest)
      else ([], s)
  | [] => ([], [])
  end.

(** The decimal digits read back, for [int(text)]. *)
Fixpoint uint_of_digits (ds : pystr) : Decimal.uint :=
  match ds with
  | [] => Decimal.Nil
  | c :: ds' =>
      let u := uint_of_digits ds' in
      (if c =? 48 then Decimal.D0 u
       else if c =? 49 then Decimal.D1 u
       else if c =? 50 then Decimal.D2 u
       else if c =? 51 then Decimal.D3 u
       else if c =? 52 then Decimal.D4 u
       else if c =? 53 then Decimal.D5 u
       else if c =? 54 then Decimal.D6 u
       else if c =? 55 then Decimal.D7 u
       else if c =? 56 then Decimal.D8 u
       else Decimal.D9 u)%N
  end.

(** The integer part of a number: a zero, or a digit from 1 to 9 and more
    digits. *)
Definition match_integer (s : pystr) : option (pystr * pystr) :=
  match s with
  | c :: s' =>
      if (c =? 48)%N then Some ([c], s')
      else if is_digit c
           then let '(ds, rest) := span_digits s' in Some (c :: ds, rest)
           else None
  | [] => None
  end.

(** A point and one digit or more, if they are there. *)
Definition match_fraction (s : pystr) : pystr * pystr :=
  match s with
  | 46%N :: s' =>
      match span_digits s' with
      | ([], _) => ([], s)
      | (ds, rest) => (46%N :: ds, rest)
      end
  | _ => ([], s)
  end.

(** An [e] or [E], a sign if there is one, and one digit or more, if they
    are there. *)
Definition match_exponent (s : pystr) : pystr * pystr :=
  match s with
  | e :: s' =>
      if ((e =? 101) || (e =? 69))%N then
        let '(sign, s'') :=
          match s' with
          | c :: t => if ((c =? 45) || (c =? 43))%N then ([c], t) else ([], s')
          | [] => ([], s')
          end in
        match span_digits s'' with
        | ([], _) => ([], s)
        | (ds, rest) => (e :: sign ++ ds, rest)
        end
      else ([], s)
  | [] => ([], s)
  end.

(** A number at the head of [s]: an [int] when it has neither fraction nor
    exponent, a [float] otherwise. *)
Definition match_number (s : pystr) : option (pyval * pystr) :=
  let '(minus, s0) :=
    match s with
    | 45%N :: t => (true, t)
    | _ => (false, s)
    end in
  '(integer, s1) ← match_integer s0;
  let '(frac, s2) := match_fraction s1 in
  let '(exp, s3) := match_exponent s2 in
  match frac, exp with
  | [], [] =>
      let u := uint_of_digits integer in
      Some (PInt (Z.of_int (if minus : bool then Decimal.Neg u
                            else Decimal.Pos u)), s3)
  | _, _ =>
      Some (PFloat ((if minus : bool then [45%N] else []) ++ integer ++ frac
                      ++ exp), s3)
  end.

(** What may follow a number without being taken for a part of it. *)
Definition ends_number (c : N) : Prop :=
  is_digit c = false /\ c <> 46%N /\ c <> 101%N /\ c <> 69%N.

(** [s] without the literal [word] at its head. *)
Fixpoint strip_prefix (word s : pystr) : option pystr :=
  match word, s with
  | [], _ => Some s
  | a :: word', b :: s' => if (a =? b)%N then strip_prefix word' s' else None
  | _ :: _, [] => None
  end.

(** The scanner: one value at the head of [s], and the rest of [s].
    [object_members] reads the members of an object from the first
    character of a key (its opening quote is read), [array_items] the items
    of an array from the first character of a value. *)
Fixpoint scan_once (fuel : nat) (s : pystr) : option (pyval * pystr) :=
  match fuel with
  | O => None
  | S fuel' =>
      match s with
      | [] => None
      | c :: s' =>
          if (c =? 34)%N then
            '(str, rest) ← scanstring (S (length s')) s';
            Some (PStr str, rest)
          else if (c =? 123)%N then
            match skip_whitespace s' with
            | 125%N :: rest => Some (PDict [], rest)
            | 34%N :: s'' =>
                '(items, rest) ← object_members fuel' s'';
                Some (PDict items, rest)
            | _ => None
            end
          else if (c =? 91)%N then
            match skip_whitespace s' with
            | 93%N :: rest => Some (PList [], rest)
            | s'' =>
                '(items, rest) ← array_items fuel' s'';
                Some (PList items, rest)
            end
          else
            match strip_prefix (lit "null") s, strip_prefix (lit "true") s,
                  strip_prefix (lit "false") s with
            | Some rest, _, _ => Some (PNone, rest)
            | _, Some rest, _ => Some (PBool true, rest)
            | _, _, Some rest => Some (PBool false, rest)
            | None, None, None =>
                match match_number s with
                | Some r => Some r
                | None =>
                    match strip_prefix (lit "NaN") s,
                          strip_prefix (lit "Infinity") s,
                          strip_prefix (lit "-Infinity") s with
                    | Some rest, _, _ => Some (PFloat (lit "NaN"), rest)
                    | _, Some rest, _ => Some (PFloat (lit "Infinity"), rest)
                    | _, _, Some rest => Some (PFloat (lit "-Infinity"), rest)
                    | None, None, None => None
                    end
                end
            end
      end
  end
with object_members (fuel : nat) (s : pystr)
  : option (list (pystr * pyval) * pystr) :=
  match fuel with
  | O => None
  | S fuel' =>
      '(key, s1) ← scanstring (S (length s)) s;
      match skip_whitespace s1 with
      | 58%N :: s2 =>
          '(value, s3) ← scan_once fuel' (skip_whitespace s2);
          match skip_whitespace s3 with
          | 125%N :: rest => Some ([(key, value)], rest)
          | 44%N :: s4 =>
              match skip_whitespace s4 with
              | 34%N :: s5 =>
                  '(items, rest) ← object_members fuel' s5;
                  Some ((key, value) :: items, rest)
              | _ => None
              end
          | _ => None
          end
      | _ => None
      end
  end
with array_items (fuel : nat) (s : pystr) : option (list pyval * pystr) :=
  match fuel with
  | O => None
  | S fuel' =>
      '(value, s1) ← scan_once fuel' s;
      match skip_whitespace s1 with
      | 93%N :: rest => Some ([value], rest)
      | 44%N :: s2 =>
          '(items, rest) ← array_items fuel' (skip_whitespace s2);
          Some (value :: items, rest)
      | _ => None
      end
  end.

(** [json.loads(s)] for a [str]: one value between whitespace and nothing
    else, or [JSONDecodeError].  The scanner takes at most two rounds for a
    character of [s]. *)
Definition loads (s : pystr) : outcome pyval :=
  match scan_once (S (length s + length s)) (skip_whitespace s) with
  | Some (obj, rest) =>
      match skip_whitespace rest with
      | [] => Return obj
      | _ :: _ => Raise JSONDecodeError
      end
  | None => Raise JSONDecodeError
  end.
End json.

(** ** The fragment of [re] that the wrapper uses *)

Module re.
(** One character of a pattern: a literal one, or the dot, which matches
    all but the line feed. *)
Inductive atom :=
  | Char (c : N)
  | Dot.

Inductive pattern :=
  | One (a : atom)
  | Star (a : atom)
  | Plus (a : atom)
  | Seq (p q : pattern).

Definition atom_matches (a : atom) (c : N) : bool :=
  match a with
  | Char x => (c =? x)%N
  | Dot => negb (c =? 10)%N
  end.

(** [star a k s]: some run of characters matching [a] at the head of [s]
    is followed by a rest that [k] accepts. *)
Fixpoint star (a : atom) (k : pystr -> bool) (s : pystr) : bool :=
  match s with
  | c :: s' => (atom_matches a c && star a k s') || k s
  | [] => k []
  end.

Fixpoint accepts (p : pattern) (k : pystr -> bool) (s : pystr) : bool :=
  match p with
  | One a =>
      match s with
      | c :: s' => atom_matches a c && k s'
      | [] => false
      end
  | Star a => star a k s
  | Plus a =>
      match s with
      | c :: s' => atom_matches a c && star a k s'
      | [] => false
      end
  | Seq p q => accepts p (accepts q k) s
  end.

(** [re.match(p, s)] as a truth value: there is a match object when a
    prefix of [s] matches [p]. *)
Definition re_match (p : pattern) (s : pystr) : bool :=
  accepts p (fun _ => true) s.
End re.

(** ** Compiler wrapper: [wrapper_environment] and [wrapper_entry_point] *)

Module Wrapper.
Import logging logging_calls.

Definition ENVIRONMENT_KEY : pystr := lit "INTERCEPT_BUILD".

(** The fields of [args] that [wrapper_environment] reads. *)
Record arguments := Arguments {
  args_verbose : Z;
  args_cc : pystr;
  args_cxx : pystr
}.

Definition wrapper_environment (args : arguments) : gmap pystr pystr :=
  {[ ENVIRONMENT_KEY :=
       json.encode_dict
         [(lit "verbose", json.int_repr (args_verbose args));
          (lit "cc", json.encode_basestring_ascii (args_cc args));
          (lit "cxx", json.encode_basestring_ascii (args_cxx args))] ]}.

(** The keyword arguments handed to the decorated function. *)
Record report := Report {
  compiler : pyval;
  command : list pystr;
  result : Z;
  cc : pyval;
  cxx : pyval
}.

(** The pattern of [is_cxx]: one character or more, then [c++], then any
    characters; a character being anything but a line feed. *)
Definition cxx_pattern : re.pattern :=
  re.Seq (re.Plus re.Dot)
    (re.Seq (re.One (re.Char 99))
       (re.Seq (re.One (re.Char 43))
          (re.Seq (re.One (re.Char 43)) (re.Star re.Dot)))).

Section EntryPoint.
Context {R : Type}.
(** [os.environ] and [sys.argv]. *)
Variable environ : gmap pystr pystr.
Variable argv : list pystr.
(** The child processes, as in [CommandRunner]. *)
Variable spawn : list pystr -> option pystr -> outcome (Z * list Byte.byte).
(** [libscanbuild.shell.decode], which is not part of the sources at hand:
    any function from a value to a list of words, or an exception. *)
Variable decode : pyval -> outcome (list pystr).
(** [reconfigure_logging] at a [float], whose arithmetic is not modelled. *)
Variable reconfigure_logging_float : pystr -> M unit.

(** [os.environ[key]]. *)
Definition environ_item (key : pystr) : outcome pystr :=
  match environ !! key with
  | Some value => Return value
  | None => Raise (KeyError key)
  end.

(** [reconfigure_logging(verbose)] at the value found in the parameters,
    with the arithmetic and the comparisons of Python 3: a [bool] counts as
    0 or 1, and [None], a string, a list and a dict raise [TypeError] before
    the logger is touched. *)
Definition reconfigure_logging_value (verbose : pyval) : M unit :=
  match verbose with
  | PInt z => Verbosity.reconfigure_logging z
  | PBool b => Verbosity.reconfigure_logging (Z.b2z b)
  | PFloat text => reconfigure_logging_float text
  | PNone | PStr _ | PList _ | PDict _ => raise TypeError
  end.

(** [json.loads(os.environ[ENVIRONMENT_KEY])]. *)
Definition load_parameters : outcome pyval :=
  match environ_item ENVIRONMENT_KEY with
  | Return text => json.loads text
  | Raise e => Raise e
  end.

(** [is_cxx], as a truth value. *)
Definition is_cxx (wrapper_command : pystr) : bool :=
  re.re_match cxx_pattern wrapper_command.

(** [parameters['cxx'] if is_cxx else parameters['cc']]. *)
Definition real_compiler (parameters : pyval) (wrapper_command : pystr)
  : outcome pyval :=
  if is_cxx wrapper_command
  then getitem parameters (lit "cxx")
  else getitem parameters (lit "cc").

(** The wrapper up to the end of the compilation: the parameters, the
    compiler, the command and the exit code. *)
Definition compilation : M (pyval * pyval * list pystr * Z) :=
  (* get relevant parameters from environment *)
  parameters <- lift load_parameters ;;
  (* set logging level when needed *)
  verbose <- lift (getitem parameters (lit "verbose")) ;;
  reconfigure_logging_value verbose ;;;
  (* find out what is the real compiler *)
  argv0 <- lift (item0 argv) ;;
  let wrapper_command := basename argv0 in
  compiler <- lift (real_compiler parameters wrapper_command) ;;
  (* execute compilation with the real compiler *)
  words <- lift (decode compiler) ;;
  let command := words ++ tail argv in
  debug (lit "compilation: %s") ;;;
  result <- CommandRunner.call spawn command ;;
  debug (lit "compilation exit code: %d") ;;;
  ret (parameters, compiler, command, result).

(** The call of the decorated function: the arguments are evaluated inside
    the [try], and the bare [except] catches every exception. *)
Definition reporting (function : report -> M R)
    (parameters compiler : pyval) (command : list pystr) (result : Z)
  : M unit :=
  try_except
    (cc <- lift (getitem parameters (lit "cc")) ;;
     cxx <- lift (getitem parameters (lit "cxx")) ;;
     function (Report compiler command result cc cxx) ;;;
     ret tt)
    (fun _ => Some (exception (lit "Compiler wrapper failed complete."))).

Definition wrapper (function : report -> M R) : M Z :=
  r <- compilation ;;
  let '(parameters, compiler, command, result) := r in
  (* call the wrapped method and ignore it's return value ... *)
  reporting function parameters compiler command result ;;;
  (* ... return the real compiler exit code instead. *)
  ret result.

Definition wrapper_entry_point (function : report -> M R) : M Z :=
  wrapper function.
End EntryPoint.

(** Modelled from the spec: [libscanbuild.shell.decode] is imported by the
    module and not among the sources.  The spec builds the real command as
    [[resolvedCompilerPath] + arguments]: the compiler path, a string, is
    the only word that comes out of it. *)
Definition shell_decode (compiler : pyval) : outcome (list pystr) :=
  match compiler with
  | PStr path => Return [path]
  | _ => Raise TypeError
  end.
End Wrapper.

(** ** Sample runs *)

Module Samples.
(** The configuration [{cc: /usr/bin/clang, cxx: /usr/bin/clang++}] at
    verbosity 2. *)
Definition args : Wrapper.arguments :=
  Wrapper.Arguments 2 (lit "/usr/bin/clang") (lit "/usr/bin/clang++").

(** A real compiler that writes nothing and exits with status 1. *)
Definition failing_compiler
  : list pystr -> option pystr -> outcome (Z * list Byte.byte) :=
  fun _ _ => Return (1, []).

(** A reporting function that always fails. *)
Definition failing_report : Wrapper.report -> M unit :=
  fun _ => raise (OtherException (lit "IOError") (lit "sink unavailable")).

(** A float verbosity is not used in the samples. *)
Definition no_float : pystr -> M unit := fun _ => raise TypeError.

Definition argv : list pystr :=
  [lit "/usr/lib/wrappers/intercept-c++"; lit "-c"; lit "a b.cc"; lit "-o";
   lit "a.o"].

(** The text of parameters that have a [verbose] and a [cc] and no
    [cxx]. *)
Definition parameters_without_cxx : pystr :=
  json.encode_dict
    [(lit "verbose", json.int_repr 0);
     (lit "cc", json.encode_basestring_ascii (lit "gcc"))].
End Samples.

(** ** Tracing: [trace] *)

Module Trace.
Section Trace.
Import logging_calls.

(** [R] is the type of the results of the decorated function. *)
Context {R : Type}.
(** [function.__name__]. *)
Variable function_name : pystr.

(** The closure [wrapper]; [function] stands for the decorated function
    applied to the arguments that [wrapper] received. *)
Definition wrapper (function : M R) : M R :=
  debug (lit "entering " ++ function_name) ;;;
  result <- function ;;
  debug (lit "leaving " ++ function_name) ;;;
  ret result.

Definition trace (function : M R) : M R := wrapper function.
End Trace.
End Trace.

(** ** Temporary directory: [tempdir] *)

Module TempDir.
(** [os.getenv(key, default)]. *)
Definition getenv (environ : gmap pystr pystr) (key fallback : pystr)
  : pystr :=
  match environ !! key with
  | Some value => value
  | None => fallback
  end.

Definition tempdir (environ : gmap pystr pystr) : pystr :=
  getenv environ (lit "TMPDIR")
    (getenv environ (lit "TEMP") (getenv environ (lit "TMP") (lit "/tmp"))).
End TempDir.

(** * Properties *)

(** ** Duplicate filter *)

Section DuplicateFilterFacts.
Import DuplicateFilter.
Context {E H : Type} `{Countable H}.
Variable hash_function : E -> H.

Lemma predicate_first (entry : E) (state : gset H) :
  hash_function entry ∉ state ->
  predicate hash_function entry state
  = (false, {[ hash_function entry ]} ∪ state).
Proof. intros Hnew. unfold predicate. by rewrite decide_True. Qed.

Lemma predicate_repeat (entry : E) (state : gset H) :
  hash_function entry ∈ state ->
  predicate hash_function entry state = (true, state).
Proof.
  intros Hold. unfold predicate. rewrite decide_False; [done|].
  intros Hn. by apply Hn.
Qed.

Lemma predicate_result (entry : E) (state : gset H) :
  (predicate hash_function entry state).1
  = bool_decide (hash_function entry ∈ state).
Proof.
  unfold predicate.
  destruct (decide (hash_function entry ∉ state)) as [Hn|Hn].
  - by rewrite bool_decide_eq_false_2.
  - rewrite bool_decide_eq_true_2; [done|].
    destruct (decide (hash_function entry ∈ state)); [done|contradiction].
Qed.

Lemma predicate_state (entry : E) (state : gset H) :
  (predicate hash_function entry state).2
  = {[ hash_function entry ]} ∪ state.
Proof.
  unfold predicate.
  destruct (decide (hash_function entry ∉ state)) as [Hn|Hn].
  - done.
  - simpl. assert (hash_function entry ∈ state) by
      (destruct (decide (hash_function entry ∈ state)); [done|contradiction]).
    set_solver.
Qed.

Lemma feed_cons (entry : E) (rest : list E) (state : gset H) :
  feed hash_function (entry :: rest) state
  = ((predicate hash_function entry state).1
       :: (feed hash_function rest
             (predicate hash_function entry state).2).1,
     (feed hash_function rest (predicate hash_function entry state).2).2).
Proof.
  simpl. destruct (predicate hash_function entry state) as [r st'].
  simpl. by destruct (feed hash_function rest st').
Qed.

Lemma feed_state (entries : list E) (state : gset H) :
  (feed hash_function entries state).2
  = state ∪ hashes hash_function entries.
Proof.
  revert state. induction entries as [|entry rest IH]; intros state.
  - unfold hashes. simpl. set_solver.
  - rewrite feed_cons. simpl. rewrite IH, predicate_state.
    unfold hashes. simpl. set_solver.
Qed.

Lemma feed_length (entries : list E) (state : gset H) :
  length (feed hash_function entries state).1 = length entries.
Proof.
  revert state. induction entries as [|entry rest IH]; intros state; [done|].
  rewrite feed_cons. simpl. by rewrite IH.
Qed.

Lemma feed_lookup (entries : list E) (state : gset H) (i : nat) (entry : E) :
  entries !! i = Some entry ->
  (feed hash_function entries state).1 !! i
  = Some (bool_decide
            (hash_function entry
               ∈ state ∪ hashes hash_function (take i entries))).
Proof.
  revert state i. induction entries as [|e rest IH]; intros state i Hi.
  - done.
  - rewrite feed_cons. destruct i as [|i]; simpl in *.
    + injection Hi as ->. rewrite predicate_result. f_equal.
      apply bool_decide_ext. unfold hashes. simpl. set_solver.
    + rewrite (IH _ _ Hi), predicate_state. f_equal.
      apply bool_decide_ext. unfold hashes. simpl. set_solver.
Qed.

Lemma elem_of_hashes_take (entries : list E) (i : nat) (h : H) :
  h ∈ hashes hash_function (take i entries)
  <-> exists j e, (j < i)%nat /\ entries !! j = Some e /\ hash_function e = h.
Proof.
  unfold hashes. rewrite elem_of_list_to_set, list_elem_of_fmap. split.
  - intros (e & -> & He). apply list_elem_of_lookup in He as [j Hj].
    apply lookup_take_Some in Hj as [Hj Hlt]. by exists j, e.
  - intros (j & e & Hlt & Hj & <-). exists e. split; [done|].
    apply list_elem_of_lookup. exists j. by rewrite lookup_take_lt.
Qed.

(** C5.  For every hash function and every sequence of entries fed to the
    predicate made by [duplicate_check]: the answer for an entry is [False]
    exactly when no earlier entry of the sequence has the same hash, and
    [True] exactly when some earlier entry has it; a [False] answer inserts
    the hash into the state and a [True] answer leaves the state as it is,
    so the state never loses an element; and for records A, A, B with
    different hashes for A and B the answers are False, True, False. *)
Theorem duplicate_check_first_occurrence (entries : list E) :
  (forall (i : nat) (entry : E),
      entries !! i = Some entry ->
      ((duplicate_check hash_function entries).1 !! i = Some false
       <-> (forall j e, (j < i)%nat -> entries !! j = Some e ->
                        hash_function e <> hash_function entry))
      /\ ((duplicate_check hash_function entries).1 !! i = Some true
          <-> (exists j e, (j < i)%nat /\ entries !! j = Some e
                           /\ hash_function e = hash_function entry)))
  /\ (forall (entry : E) (state : gset H),
         state ⊆ (predicate hash_function entry state).2
         /\ ((predicate hash_function entry state).1 = false ->
             (hash_function entry ∉ state)
             /\ (predicate hash_function entry state).2
                = {[ hash_function entry ]} ∪ state)
         /\ ((predicate hash_function entry state).1 = true ->
             hash_function entry ∈ state
             /\ (predicate hash_function entry state).2 = state))
  /\ (forall (i : nat),
         (duplicate_check hash_function (take i entries)).2
         ⊆ (duplicate_check hash_function entries).2)
  /\ (forall (A B : E),
         hash_function A <> hash_function B ->
         (duplicate_check hash_function [A; A; B]).1 = [false; true; false]).
Proof.
  split; [|split; [|split]].
  - intros i entry Hi. unfold duplicate_check.
    rewrite (feed_lookup _ _ _ _ Hi).
    assert (Hmem : hash_function entry
                     ∈ (∅ : gset H)
                         ∪ hashes hash_function (take i entries)
                   <-> exists j e, (j < i)%nat /\ entries !! j = Some e
                                   /\ hash_function e = hash_function entry).
    { rewrite <- elem_of_hashes_take. set_solver. }
    split.
    + split.
      * intros Hf j e Hlt Hj Heq. injection Hf as Hf.
        apply bool_decide_eq_false in Hf. apply Hf, Hmem. by exists j, e.
      * intros Hno. f_equal. apply bool_decide_eq_false.
        intros Hin. apply Hmem in Hin as (j & e & Hlt & Hj & Heq).
        by apply (Hno j e).
    + split.
      * intros Ht. injection Ht as Ht. apply bool_decide_eq_true in Ht.
        by apply Hmem.
      * intros Hex. f_equal. apply bool_decide_eq_true. by apply Hmem.
  - intros entry state. unfold predicate.
    destruct (decide (hash_function entry ∉ state)) as [Hn|Hn]; simpl.
    + split; [set_solver|]. split; [done|]. intros Hd. discriminate Hd.
    + split; [done|]. split; [intros Hd; discriminate Hd|]. intros _.
      split; [|done].
      destruct (decide (hash_function entry ∈ state)); [done|contradiction].
  - intros i. unfold duplicate_check. rewrite !feed_state.
    intros h. rewrite !elem_of_union. intros [Hh|Hh]; [by left|right].
    apply elem_of_hashes_take in Hh as (j & e & _ & Hj & <-).
    unfold hashes. rewrite elem_of_list_to_set, list_elem_of_fmap.
    exists e. split; [done|]. apply list_elem_of_lookup. by exists j.
  - intros A B Hne. unfold duplicate_check. simpl.
    rewrite predicate_first by set_solver.
    rewrite predicate_repeat by set_solver.
    rewrite predicate_first by set_solver. done.
Qed.
End DuplicateFilterFacts.

Lemma duplicate_check_first_occurrence_witness :
  (DuplicateFilter.duplicate_check (fun n : nat => n) [1; 1; 2]%nat).1
  = [false; true; false].
Proof.
  apply (duplicate_check_first_occurrence (fun n : nat => n) [1; 1; 2]%nat).
  discriminate.
Defined.

(** ** Verbosity *)

Section VerbosityFacts.
Import logging Verbosity.

Lemma fmt_plain_omits_funcName : has_funcName fmt_plain = false.
Proof. vm_compute. reflexivity. Qed.

Lemma fmt_funcName_has_funcName : has_funcName fmt_funcName = true.
Proof. vm_compute. reflexivity. Qed.

Lemma threshold_floor (verbose_level : Z) :
  WARNING - Z.min WARNING (10 * verbose_level)
  = Z.max NOTSET (WARNING - 10 * verbose_level).
Proof. unfold WARNING, NOTSET. lia. Qed.

(** C7.  For a non-negative level: level 0 changes nothing; for a level of
    1 or more the threshold of the root logger becomes
    [max(NOTSET, WARNING - 10 * level)], ten units lower per level from
    [WARNING] and never below the floor, and the only handler left prints
    with a template that has the function name exactly when the level is
    above 3. *)
Theorem reconfigure_logging_resolves (verbose_level : Z) (w : world) :
  0 <= verbose_level ->
  (verbose_level = 0 -> reconfigure_logging verbose_level w = (Return tt, w))
  /\ (1 <= verbose_level ->
      exists fmt_string,
        reconfigure_logging verbose_level w
        = (Return tt,
           World (Logger (Z.max NOTSET (WARNING - 10 * verbose_level))
                         (name (root w))
                         [StreamHandler stdout fmt_string])
                 (disable w) (events w))
        /\ (has_funcName fmt_string = true <-> 3 < verbose_level)
        /\ (1 <= verbose_level <= 3 ->
            Z.max NOTSET (WARNING - 10 * verbose_level)
            = WARNING - 10 * verbose_level)).
Proof.
  intros Hnn. split.
  - intros ->. reflexivity.
  - intros Hpos. unfold reconfigure_logging.
    destruct (Z.eqb_spec verbose_level 0) as [->|_]; [lia|].
    exists (if verbose_level <=? 3 then fmt_plain else fmt_funcName).
    split; [|split].
    + unfold bind, get_root, set_root. simpl.
      by rewrite threshold_floor.
    + destruct (Z.leb_spec verbose_level 3).
      * rewrite fmt_plain_omits_funcName. split; [discriminate|lia].
      * rewrite fmt_funcName_has_funcName. split; [lia|done].
    + unfold NOTSET, WARNING. lia.
Qed.
End VerbosityFacts.

Lemma reconfigure_logging_resolves_witness :
  exists fmt_string,
    Verbosity.reconfigure_logging 2
      (World (logging.Logger 30 (lit "intercept-cc") []) 0 [])
    = (Return tt,
       World (logging.Logger 10 (lit "intercept-cc")
                [logging.StreamHandler logging.stdout fmt_string]) 0 [])
    /\ (Verbosity.has_funcName fmt_string = true <-> 3 < 2)
    /\ (1 <= 2 <= 3 -> Z.max logging.NOTSET (logging.WARNING - 10 * 2)
                       = logging.WARNING - 10 * 2).
Proof.
  apply (reconfigure_logging_resolves 2
           (World (logging.Logger 30 (lit "intercept-cc") []) 0 []));
    lia.
Defined.

(** ** Process entry guard *)

Section EntryGuardFacts.
Import logging logging_calls EntryGuard.
Context {R : Type}.
Variable int_value : Z -> R.
Variable argv : list pystr.

Lemma log_events (levelno : Z) (msg : message) (exc_info : bool) (w : world) :
  exists w', log levelno msg exc_info w = (Return tt, w')
             /\ events w' = events w ++ [LogCall levelno msg exc_info]
             /\ level (root w') = level (root w)
             /\ disable w' = disable w.
Proof.
  unfold log, basicConfig, bind, get_root, set_root, record_event, ret.
  destruct (handlers (root w)); simpl; eauto.
Qed.

Lemma housekeeping_returns (a : pystr) (rest : list pystr) (w : world) :
  exists w1, housekeeping (a :: rest) w = (Return tt, w1)
             /\ events w1 = events w.
Proof.
  unfold housekeeping, basicConfig, set_name, bind, get_root, set_root,
    lift, ret.
  destruct (handlers (root w)); simpl; eauto.
Qed.

(** C6, as the code has it.  Once the housekeeping is done, the guard
    hands back the value the function returns (so 0 for 0); a
    [KeyboardInterrupt] gives 130 after a warning; an exception that is an
    instance of [Exception] gives 64 after the diagnostic
    ["Internal error."] and a hint; any other exception ([SystemExit],
    [GeneratorExit]) is raised again to the caller; and on each of the
    four paths [logging.shutdown()] is the last thing that happens. *)
Theorem command_entry_point_exit_codes
    (function : M R) (w w1 : world) :
  housekeeping argv w = (Return tt, w1) ->
  (forall v w2, function w1 = (Return v, w2) ->
     exists w3, command_entry_point int_value argv function w
                = (Return v, w3)
                /\ events w3 = events w2 ++ [LoggingShutdown])
  /\ (forall e w2, function w1 = (Raise e, w2) ->
        is_KeyboardInterrupt e = true ->
        exists w3, command_entry_point int_value argv function w
                   = (Return (int_value 130), w3)
                   /\ events w3
                      = events w2
                          ++ [LogCall WARNING (Text (lit "Keyboard interrupt"))
                                false;
                              LoggingShutdown])
  /\ (forall e w2, function w1 = (Raise e, w2) ->
        is_KeyboardInterrupt e = false -> is_Exception e = true ->
        exists w3, command_entry_point int_value argv function w
                   = (Return (int_value 64), w3)
                   /\ events w3
                      = events w2
                          ++ [LogCall ERROR (Text (lit "Internal error.")) true;
                              LogCall ERROR
                                (Text (if (disable w2 <? DEBUG)
                                          && (level (root w2) <=? DEBUG)
                                       then report_bug else turn_on_verbose))
                                false;
                              LoggingShutdown])
  /\ (forall e w2, function w1 = (Raise e, w2) ->
        is_KeyboardInterrupt e = false -> is_Exception e = false ->
        exists w3, command_entry_point int_value argv function w
                   = (Raise e, w3)
                   /\ events w3 = events w2 ++ [LoggingShutdown]).
Proof.
  intros Hk.
  unfold command_entry_point, wrapper, try_finally, try_except, bind.
  rewrite Hk. repeat split.
  - intros v w2 Hf. rewrite Hf. simpl. eauto.
  - intros e w2 Hf Hki. rewrite Hf, Hki. unfold warning.
    destruct (log_events WARNING (Text (lit "Keyboard interrupt")) false w2)
      as (w' & -> & Hev & _). simpl. rewrite Hev, <- app_assoc. eauto.
  - intros e w2 Hf Hki Hex. rewrite Hf, Hki, Hex.
    unfold logging_calls.exception, error, isEnabledFor.
    destruct (log_events ERROR (Text (lit "Internal error.")) true w2)
      as (w' & -> & Hev & Hlv & Hdis).
    rewrite Hlv, Hdis.
    destruct ((disable w2 <? DEBUG) && (level (root w2) <=? DEBUG)).
    + destruct (log_events ERROR (Text report_bug) false w')
        as (w'' & -> & Hev' & _).
      simpl. rewrite Hev', Hev, <- !app_assoc. eauto.
    + destruct (log_events ERROR (Text turn_on_verbose) false w')
        as (w'' & -> & Hev' & _).
      simpl. rewrite Hev', Hev, <- !app_assoc. eauto.
  - intros e w2 Hf Hki Hex. rewrite Hf, Hki, Hex. simpl. eauto.
Qed.
End EntryGuardFacts.

Lemma command_entry_point_exit_codes_witness :
  exists w3,
    EntryGuard.command_entry_point (fun z : Z => z) [lit "scan-build"]
      (raise TypeError) fresh_world
    = (Return 64, w3)
    /\ events w3
       = [LogCall logging.ERROR (logging.Text (lit "Internal error.")) true;
          LogCall logging.ERROR (logging.Text EntryGuard.turn_on_verbose) false;
          LoggingShutdown].
Proof.
  pose proof (command_entry_point_exit_codes (fun z : Z => z)
                [lit "scan-build"] (raise TypeError) fresh_world
                (snd (EntryGuard.housekeeping [lit "scan-build"] fresh_world))
                eq_refl) as (_ & _ & H64 & _).
  apply (H64 TypeError
           (snd (EntryGuard.housekeeping [lit "scan-build"] fresh_world)));
    reflexivity.
Defined.

(** A function that leaves through [sys.exit(3)] raises [SystemExit], which
    is neither a [KeyboardInterrupt] nor an [Exception]: the guard does not
    turn it into 64, the exception reaches the caller. *)
Lemma command_entry_point_SystemExit_escapes :
  is_KeyboardInterrupt (SystemExit 3) = false
  /\ fst (EntryGuard.command_entry_point (fun z : Z => z) [lit "scan-build"]
            (raise (SystemExit 3)) fresh_world)
     = Raise (SystemExit 3)
  /\ fst (EntryGuard.command_entry_point (fun z : Z => z) [lit "scan-build"]
            (raise (SystemExit 3)) fresh_world)
     <> Return 64.
Proof. repeat split. discriminate. Qed.

(** ** Required state *)

Section RequireFacts.
Import logging logging_calls Decorators.
Context {V C R : Type}.
Variable required : list pystr.
Variable function_name : pystr.

Lemma precondition_present (keys : list pystr) (opts : gmap pystr V)
    (w : world) :
  (forall key, key ∈ keys -> key ∈ dom opts) ->
  precondition_from function_name keys opts w = (Return tt, w).
Proof.
  induction keys as [|key rest IH]; intros Hall; [done|]. simpl.
  rewrite decide_False.
  - apply IH. intros k Hk. apply Hall. by right.
  - intros Hn. apply Hn, Hall. by left.
Qed.

Lemma precondition_missing (keys : list pystr) (opts : gmap pystr V)
    (w : world) :
  (exists key, key ∈ keys /\ key ∉ dom opts) ->
  exists key,
    key ∈ keys /\ (key ∉ dom opts)
    /\ precondition_from function_name keys opts w
       = (Raise (KeyError (key ++ lit " not passed to " ++ function_name)),
          w).
Proof.
  induction keys as [|key rest IH]; intros (k & Hk & Hmiss).
  - by apply elem_of_nil in Hk.
  - simpl. destruct (decide (key ∉ dom opts)) as [Hn|Hn].
    + exists key. split; [by left|]. done.
    + apply elem_of_cons in Hk as [->|Hk]; [contradiction|].
      destruct IH as (k' & Hk' & Hm' & Heq); [by exists k|].
      exists k'. split; [by right|]. done.
Qed.

Lemma error_events (msg : message) (w : world) :
  exists w', error msg w = (Return tt, w')
             /\ events w' = events w ++ [LogCall ERROR msg false].
Proof.
  unfold error, log, basicConfig, bind, get_root, set_root, record_event,
    ret.
  destruct (handlers (root w)); simpl; eauto.
Qed.

(** C10, as the code has it.  When a required key is missing from [opts]
    the wrapper logs the [KeyError] and returns [None], and the decorated
    function plays no part in the result; when all keys are there, the
    value of the function is returned, an exception of the function that
    is an instance of [Exception] is logged and turned into [None], and
    any other exception ([KeyboardInterrupt], [SystemExit],
    [GeneratorExit]) is raised to the caller. *)
Theorem require_wrapper_outcomes
    (function : gmap pystr V -> C -> M R)
    (opts : gmap pystr V) (cont : C) (w : world) :
  ((exists key, key ∈ required /\ key ∉ dom opts) ->
   exists key w',
     key ∈ required /\ (key ∉ dom opts)
     /\ (forall (g : gmap pystr V -> C -> M R),
           wrapper required function_name g opts cont w = (Return None, w'))
     /\ events w'
        = events w
            ++ [LogCall ERROR
                  (StrOf (KeyError
                            (key ++ lit " not passed to " ++ function_name)))
                  false])
  /\ ((forall key, key ∈ required -> key ∈ dom opts) ->
      (forall v w1, function opts cont w = (Return v, w1) ->
         wrapper required function_name function opts cont w
         = (Return (Some v), w1))
      /\ (forall e w1, function opts cont w = (Raise e, w1) ->
            is_Exception e = true ->
            exists w',
              wrapper required function_name function opts cont w
              = (Return None, w')
              /\ events w' = events w1 ++ [LogCall ERROR (StrOf e) false])
      /\ (forall e w1, function opts cont w = (Raise e, w1) ->
            is_Exception e = false ->
            wrapper required function_name function opts cont w
            = (Raise e, w1))).
Proof.
  split.
  - intros Hmiss.
    destruct (precondition_missing required opts w Hmiss)
      as (key & Hin & Hnot & Hpre).
    destruct (error_events
                (StrOf (KeyError
                          (key ++ lit " not passed to " ++ function_name)))
                w) as (w' & Herr & Hev).
    exists key, w'. repeat split; try done.
    intros g. unfold wrapper, try_except, bind, precondition.
    rewrite Hpre. cbv beta iota delta [is_Exception]. by rewrite Herr.
  - intros Hall.
    pose proof (precondition_present required opts w Hall) as Hpre.
    unfold wrapper, try_except, bind, precondition. rewrite Hpre.
    repeat split.
    + intros v w1 ->. done.
    + intros e w1 -> ->.
      destruct (error_events (StrOf e) w1) as (w' & Herr & Hev).
      exists w'. by rewrite Herr.
    + intros e w1 -> ->. done.
Qed.
End RequireFacts.

Lemma require_wrapper_outcomes_witness :
  exists key w',
    key ∈ [lit "report"] /\ (key ∉ dom (∅ : gmap pystr Z))
    /\ (forall (g : gmap pystr Z -> unit -> M Z),
          Decorators.wrapper [lit "report"] (lit "run") g ∅ tt fresh_world
          = (Return None, w'))
    /\ events w'
       = events fresh_world
           ++ [LogCall logging.ERROR
                 (logging.StrOf
                    (KeyError (key ++ lit " not passed to " ++ lit "run")))
                 false].
Proof.
  apply (require_wrapper_outcomes [lit "report"] (lit "run")
           (fun _ _ => ret 0) (∅ : gmap pystr Z) tt fresh_world).
  exists (lit "report"). split; [by left|]. set_solver.
Defined.

(** A decorated function that is interrupted raises [KeyboardInterrupt],
    which [except Exception] does not catch: the caller of the wrapper sees
    the exception, not [None]. *)
Lemma require_wrapper_KeyboardInterrupt_escapes :
  fst (Decorators.wrapper [] (lit "run")
         (fun (_ : gmap pystr Z) (_ : unit) => raise KeyboardInterrupt : M Z)
         ∅ tt fresh_world)
  = Raise KeyboardInterrupt
  /\ fst (Decorators.wrapper [] (lit "run")
            (fun (_ : gmap pystr Z) (_ : unit) => raise KeyboardInterrupt : M Z)
            ∅ tt fresh_world)
     <> Return None.
Proof. split; [reflexivity|discriminate]. Qed.

(** ** Command runner *)

Section CommandRunnerFacts.
Import logging logging_calls CommandRunner.
Variable abspath : pystr -> pystr.
Variable getcwd : outcome pystr.
Variable spawn : list pystr -> option pystr -> outcome (Z * list Byte.byte).

Lemma debug_events (msg : pystr) (w : world) :
  exists w', debug msg w = (Return tt, w')
             /\ events w' = events w ++ [LogCall DEBUG (Text msg) false].
Proof.
  unfold debug, log, basicConfig, bind, get_root, set_root, record_event, ret.
  destruct (handlers (root w)); simpl; eauto.
Qed.

Lemma run_command_started (command : list pystr) (cwd : option pystr)
    (directory : pystr) (status : Z) (output : list Byte.byte) (w : world) :
  working_directory abspath getcwd cwd = Return directory ->
  spawn command (Some directory) = Return (status, output) ->
  exists w',
    events w'
    = events w ++ [LogCall DEBUG (Text (lit "exec command %s in %s")) false;
                   Exec command (Some directory)]
    /\ run_command abspath getcwd spawn command cwd w
       = match decode_when_needed output with
         | Return text =>
             if status =? 0 then (Return (splitlines text), w')
             else (Raise (CalledProcessError status command
                            (OutputLines (splitlines text))), w')
         | Raise e => (Raise e, w')
         end.
Proof.
  intros Hdir Hrun.
  destruct (debug_events (lit "exec command %s in %s") w) as (w1 & Hdbg & Hev).
  exists (World (root w1) (disable w1)
            (events w1 ++ [Exec command (Some directory)])).
  split; [simpl; by rewrite Hev, <- app_assoc|].
  unfold run_command, check_output, try_except, bind, lift, record_event,
    ret, raise.
  rewrite Hdir, Hdbg, Hrun. unfold decode_when_needed.
  destruct (status =? 0);
    by destruct (utf8_decode (map Byte.to_N output)).
Qed.

(** C8, as the code has it.  For a command that was started in the resolved
    directory and exited: when the captured output is valid UTF-8,
    [run_command] returns its lines exactly when the exit status is zero and
    raises exactly when it is not, and the [CalledProcessError] carries the
    status and the output as decoded lines; when the output is not valid
    UTF-8 the decoding raises [UnicodeDecodeError], whatever the status. *)
Theorem run_command_outcomes (command : list pystr) (cwd : option pystr)
    (directory : pystr) (status : Z) (output : list Byte.byte) (w : world) :
  working_directory abspath getcwd cwd = Return directory ->
  spawn command (Some directory) = Return (status, output) ->
  (forall text,
      utf8_decode (map Byte.to_N output) = Some text ->
      (status = 0 ->
       fst (run_command abspath getcwd spawn command cwd w)
       = Return (splitlines text))
      /\ (status <> 0 ->
          fst (run_command abspath getcwd spawn command cwd w)
          = Raise (CalledProcessError status command
                     (OutputLines (splitlines text))))
      /\ ((exists lines,
              fst (run_command abspath getcwd spawn command cwd w)
              = Return lines) <-> status = 0)
      /\ ((exists e,
              fst (run_command abspath getcwd spawn command cwd w) = Raise e)
          <-> status <> 0))
  /\ (utf8_decode (map Byte.to_N output) = None ->
      fst (run_command abspath getcwd spawn command cwd w)
      = Raise UnicodeDecodeError).
Proof.
  intros Hdir Hrun.
  destruct (run_command_started command cwd directory status output w Hdir Hrun)
    as (w' & _ & ->).
  unfold decode_when_needed. split.
  - intros text ->. destruct (Z.eqb_spec status 0) as [->|Hnz]; simpl.
    + repeat split; try done.
      * eauto.
      * intros [e He]. discriminate He.
    + repeat split; try done.
      * intros [lines Hl]. discriminate Hl.
      * eauto.
  - intros ->. done.
Qed.
End CommandRunnerFacts.

Lemma run_command_outcomes_witness :
  fst (CommandRunner.run_command (fun p => p) (Return (lit "/build"))
         (fun _ _ => Return (1, [Byte.x6e; Byte.x6f; Byte.x0a]))
         [lit "false"] None fresh_world)
  = Raise (CalledProcessError 1 [lit "false"] (OutputLines [lit "no"])).
Proof.
  refine (proj1 (proj2 (proj1
    (run_command_outcomes (fun p => p) (Return (lit "/build"))
       (fun _ _ => Return (1, [Byte.x6e; Byte.x6f; Byte.x0a]))
       [lit "false"] None (lit "/build") 1 [Byte.x6e; Byte.x6f; Byte.x0a]
       fresh_world eq_refl eq_refl) [110; 111; 10]%N eq_refl)) _).
  discriminate.
Defined.

(** A command that exits with status zero after writing the single octet
    0xff: [run_command] does not return its lines, it raises
    [UnicodeDecodeError]. *)
Lemma run_command_invalid_utf8_raises :
  fst (CommandRunner.run_command (fun p => p) (Return (lit "/build"))
         (fun _ _ => Return (0, [Byte.xff]))
         [lit "cat"; lit "latin1.txt"] None fresh_world)
  = Raise UnicodeDecodeError
  /\ ~ (exists lines,
          fst (CommandRunner.run_command (fun p => p) (Return (lit "/build"))
                 (fun _ _ => Return (0, [Byte.xff]))
                 [lit "cat"; lit "latin1.txt"] None fresh_world)
          = Return lines).
Proof. split; [reflexivity|]. intros [lines Hl]. discriminate Hl. Qed.

(** ** The pattern of the C++ personality *)

Section PatternFacts.
Import re Wrapper.

Lemma star_spec (a : atom) (k : pystr -> bool) (s : pystr) :
  star a k s = true
  <-> exists p r, s = p ++ r /\ forallb (atom_matches a) p = true
                  /\ k r = true.
Proof.
  induction s as [|c s IH]; simpl.
  - split.
    + intros Hk. by exists [], [].
    + intros (p & r & Heq & _ & Hk). symmetry in Heq.
      apply app_eq_nil in Heq as [_ ->]. done.
  - rewrite orb_true_iff, andb_true_iff, IH. split.
    + intros [[Hc (p & r & -> & Hp & Hk)]|Hk].
      * exists (c :: p), r. simpl. by rewrite Hc, Hp.
      * by exists [], (c :: s).
    + intros (p & r & Heq & Hp & Hk). destruct p as [|c' p]; simpl in *.
      * right. by subst r.
      * injection Heq as <- ->. apply andb_true_iff in Hp as [Hc Hp].
        left. split; [done|]. by exists p, r.
Qed.

Lemma star_accepts_all (a : atom) (s : pystr) :
  star a (fun _ => true) s = true.
Proof. apply star_spec. by exists [], s. Qed.

Lemma dots_no_line_feed (p : pystr) :
  forallb (atom_matches Dot) p = true <-> 10%N ∉ p.
Proof.
  induction p as [|c p IH]; simpl.
  - split; [intros _; apply not_elem_of_nil|done].
  - rewrite andb_true_iff, IH, not_elem_of_cons, negb_true_iff, N.eqb_neq.
    split; intros [? ?]; split; congruence.
Qed.

Lemma literal_cxx_spec (r : pystr) :
  accepts (Seq (One (Char 99))
             (Seq (One (Char 43)) (Seq (One (Char 43)) (Star Dot))))
    (fun _ => true) r = true
  <-> exists rest, r = lit "c++" ++ rest.
Proof.
  simpl. split.
  - destruct r as [|a [|b [|c rest]]]; try discriminate;
      rewrite ?andb_false_r; try discriminate.
    rewrite star_accepts_all, andb_true_r, !andb_true_iff, !N.eqb_eq.
    intros (-> & -> & ->). by exists rest.
  - intros [rest ->]. simpl. by rewrite star_accepts_all.
Qed.

(** The wrapper takes the C++ personality exactly for the names in which
    [c++] comes after one character or more, none of them a line feed. *)
Lemma is_cxx_spec (wrapper_command : pystr) :
  is_cxx wrapper_command = true
  <-> exists p rest, wrapper_command = p ++ lit "c++" ++ rest
                     /\ p <> [] /\ 10%N ∉ p.
Proof.
  unfold is_cxx, re_match, cxx_pattern.
  change (accepts (Seq (Plus Dot) ?q) ?k ?s)
    with (accepts (Plus Dot) (accepts q k) s).
  destruct wrapper_command as [|c s].
  - split; [discriminate|]. intros (p & rest & Heq & Hne & _).
    destruct p; [done|discriminate].
  - change (accepts (Plus Dot) ?k (c :: s))
      with (atom_matches Dot c && star Dot k s).
    rewrite andb_true_iff, star_spec. split.
    + intros (Hc & p & r & -> & Hp & Hk).
      apply literal_cxx_spec in Hk as [rest ->].
      exists (c :: p), rest. split; [done|]. split; [done|].
      apply dots_no_line_feed. cbn [forallb]. by rewrite Hc, Hp.
    + intros (p & rest & Heq & Hne & Hnl). destruct p as [|c' p]; [done|].
      injection Heq as <- ->. apply dots_no_line_feed in Hnl.
      cbn [forallb] in Hnl.
      apply andb_true_iff in Hnl as [Hc Hp]. split; [done|].
      exists p, (lit "c++" ++ rest). split; [done|]. split; [done|].
      apply literal_cxx_spec. by exists rest.
Qed.
End PatternFacts.

(** ** Compiler wrapper *)

Section PersonalityFacts.
Import Wrapper.

(** C2, as the code has it.  For every basename of the wrapper and every
    set of parameters that has a [cc] and a [cxx]: when [c++] occurs in the
    basename after one character or more (none of them a line feed, as in
    [x86_64-c++-13]) the real compiler is the [cxx] one, and in every other
    case it is the [cc] one. *)
Theorem real_compiler_personality
    (parameters : pyval) (wrapper_command : pystr) (cc_path cxx_path : pyval) :
  getitem parameters (lit "cc") = Return cc_path ->
  getitem parameters (lit "cxx") = Return cxx_path ->
  ((exists p rest, wrapper_command = p ++ lit "c++" ++ rest
                   /\ p <> [] /\ 10%N ∉ p) ->
   real_compiler parameters wrapper_command = Return cxx_path)
  /\ (~ (exists p rest, wrapper_command = p ++ lit "c++" ++ rest
                        /\ p <> [] /\ 10%N ∉ p) ->
      real_compiler parameters wrapper_command = Return cc_path).
Proof.
  intros Hcc Hcxx. unfold real_compiler. split.
  - intros Hshape. apply is_cxx_spec in Hshape. by rewrite Hshape.
  - intros Hshape. destruct (is_cxx wrapper_command) eqn:Hm; [|done].
    apply is_cxx_spec in Hm. contradiction.
Qed.
End PersonalityFacts.

Lemma real_compiler_personality_witness :
  Wrapper.real_compiler
    (PDict [(lit "verbose", PInt 0); (lit "cc", PStr (lit "/usr/bin/clang"));
            (lit "cxx", PStr (lit "/usr/bin/clang++"))])
    (basename (lit "/usr/lib/wrappers/x86_64-c++-13"))
  = Return (PStr (lit "/usr/bin/clang++")).
Proof.
  apply (real_compiler_personality
           (PDict [(lit "verbose", PInt 0);
                   (lit "cc", PStr (lit "/usr/bin/clang"));
                   (lit "cxx", PStr (lit "/usr/bin/clang++"))])
           (basename (lit "/usr/lib/wrappers/x86_64-c++-13"))
           (PStr (lit "/usr/bin/clang"))
           (PStr (lit "/usr/bin/clang++")) eq_refl eq_refl).
  exists (lit "x86_64-"), (lit "-13"). split; [reflexivity|].
  split; [discriminate|]. vm_compute. intros Hin.
  repeat (apply elem_of_cons in Hin as [Hin|Hin]; [discriminate Hin|]).
  by apply elem_of_nil in Hin.
Defined.

(** The basename [clang++] has [g++] in it, not [c++]: with the parameters
    [{cc: /usr/bin/clang, cxx: /usr/bin/clang++}] the wrapper takes the C
    compiler.  The bare name [c++] has nothing before [c++], and takes the
    C compiler too. *)
Lemma real_compiler_clangxx_selects_cc :
  Wrapper.real_compiler
    (PDict [(lit "verbose", PInt 0); (lit "cc", PStr (lit "/usr/bin/clang"));
            (lit "cxx", PStr (lit "/usr/bin/clang++"))])
    (lit "clang++")
  = Return (PStr (lit "/usr/bin/clang"))
  /\ Wrapper.real_compiler
       (PDict [(lit "verbose", PInt 0); (lit "cc", PStr (lit "/usr/bin/clang"));
               (lit "cxx", PStr (lit "/usr/bin/clang++"))])
       (lit "clang++")
     <> Return (PStr (lit "/usr/bin/clang++"))
  /\ Wrapper.real_compiler
       (PDict [(lit "verbose", PInt 0); (lit "cc", PStr (lit "/usr/bin/clang"));
               (lit "cxx", PStr (lit "/usr/bin/clang++"))])
       (lit "c++")
     = Return (PStr (lit "/usr/bin/clang")).
Proof. split; [reflexivity|]. split; [discriminate|reflexivity]. Qed.

Section WrapperFacts.
Import logging Wrapper.
Context {R : Type}.
Variable environ : gmap pystr pystr.
Variable argv : list pystr.
Variable spawn : list pystr -> option pystr -> outcome (Z * list Byte.byte).
Variable decode : pyval -> outcome (list pystr).
Variable reconfigure_logging_float : pystr -> M unit.

Local Abbreviation compilation :=
  (Wrapper.compilation environ argv spawn decode reconfigure_logging_float).
Local Abbreviation wrapper_entry_point :=
  (Wrapper.wrapper_entry_point (R:=R) environ argv spawn decode
     reconfigure_logging_float).

(** The reporting step never raises: whatever the decorated function does,
    control reaches the [return] of the wrapper. *)
Lemma reporting_returns (function : report -> M R)
    (parameters compiler : pyval) (command : list pystr) (result : Z)
    (w : world) :
  exists w',
    reporting function parameters compiler command result w = (Return tt, w').
Proof.
  unfold reporting, try_except.
  destruct ((cc <- lift (getitem parameters (lit "cc"));;
             cxx <- lift (getitem parameters (lit "cxx"));;
             function (Report compiler command result cc cxx);;; ret ()) w)
    as [[[]|e] w1]; [eauto|].
  unfold logging_calls.exception.
  destruct (log_events ERROR (Text (lit "Compiler wrapper failed complete."))
              true w1) as (w' & -> & _). eauto.
Qed.

Lemma wrapper_after_compilation (function : report -> M R)
    (parameters compiler : pyval) (command : list pystr) (result : Z)
    (w w1 : world) :
  compilation w = (Return (parameters, compiler, command, result), w1) ->
  exists w2, wrapper_entry_point function w = (Return result, w2).
Proof.
  intros Hc. unfold Wrapper.wrapper_entry_point, wrapper, bind. rewrite Hc.
  destruct (reporting_returns function parameters compiler command result w1)
    as [w2 ->]. eauto.
Qed.

Lemma wrapper_compilation_raises (function : report -> M R)
    (e : exception) (w w1 : world) :
  compilation w = (Raise e, w1) ->
  wrapper_entry_point function w = (Raise e, w1).
Proof.
  intros Hc. unfold Wrapper.wrapper_entry_point, wrapper, bind.
  by rewrite Hc.
Qed.

(** What [logging.exception] leaves behind in the [except] clause. *)
Lemma failed_report_logged (w : world) :
  exists w',
    logging_calls.exception (lit "Compiler wrapper failed complete.") w
    = (Return tt, w')
    /\ events w'
       = events w
           ++ [LogCall ERROR (Text (lit "Compiler wrapper failed complete."))
                 true].
Proof.
  unfold logging_calls.exception.
  destruct (log_events ERROR (Text (lit "Compiler wrapper failed complete."))
              true w) as (w' & Hlog & Hev & _). eauto.
Qed.

(** A compilation step that returns has gone through every statement of
    it: the parameters were read, the logging set, the compiler chosen by
    the name of the wrapper, its words followed by [sys.argv[1:]] started
    as one process between the two debug messages, and the status of that
    process handed on. *)
Lemma compilation_inversion
    (parameters compiler : pyval) (command : list pystr) (result : Z)
    (w w1 : world) :
  compilation w = (Return (parameters, compiler, command, result), w1) ->
  exists verbose argv0 words output w0,
    load_parameters environ = Return parameters
    /\ getitem parameters (lit "verbose") = Return verbose
    /\ reconfigure_logging_value reconfigure_logging_float verbose w
       = (Return tt, w0)
    /\ item0 argv = Return argv0
    /\ real_compiler parameters (basename argv0) = Return compiler
    /\ decode compiler = Return words
    /\ command = words ++ tail argv
    /\ spawn command None = Return (result, output)
    /\ events w1
       = events w0
           ++ [LogCall DEBUG (Text (lit "compilation: %s")) false;
               Exec command None;
               LogCall DEBUG (Text (lit "compilation exit code: %d")) false].
Proof.
  unfold Wrapper.compilation, bind, lift, CommandRunner.call, record_event.
  destruct (load_parameters environ) as [p|] eqn:Hload; [|discriminate].
  destruct (getitem p (lit "verbose")) as [v|] eqn:Hverbose; [|discriminate].
  destruct (reconfigure_logging_value reconfigure_logging_float v w)
    as [[[]|] w0] eqn:Hre; [|discriminate].
  destruct (item0 argv) as [argv0|] eqn:Hargv; [|discriminate].
  destruct (real_compiler p (basename argv0)) as [c|] eqn:Hcompiler;
    [|discriminate].
  destruct (decode c) as [words|] eqn:Hwords; [|discriminate].
  destruct (debug_events (lit "compilation: %s") w0) as (wd & -> & Hevd).
  destruct (spawn (words ++ tail argv) None) as [[status output]|] eqn:Hs;
    [|discriminate].
  unfold bind, ret. cbn beta iota.
  match goal with
  | |- context [logging_calls.debug ?m ?w'] =>
      destruct (debug_events m w') as (w3 & -> & Hev3)
  end.
  intros Heq. injection Heq as <- <- <- <- <-.
  exists v, argv0, words, output, w0.
  repeat (split; [done|]).
  rewrite Hev3. simpl. rewrite Hevd. by rewrite <- !app_assoc.
Qed.

(** The wrapper after a compilation step that returned: the function is
    called in the state the compilation left, with the compiler, the
    command, the exit status and the two configured compilers; the state
    it leaves is the state at the end, with one logged error on top when
    the function, or the lookup of [cc] or [cxx], raised. *)
Lemma wrapper_reported (function : report -> M R)
    (parameters compiler : pyval) (command : list pystr) (result : Z)
    (w w1 : world) :
  compilation w = (Return (parameters, compiler, command, result), w1) ->
  exists w2,
    wrapper_entry_point function w = (Return result, w2)
    /\ match getitem parameters (lit "cc"), getitem parameters (lit "cxx") with
       | Return cc_path, Return cxx_path =>
           match function (Report compiler command result cc_path cxx_path) w1
           with
           | (Return _, wf) => w2 = wf
           | (Raise _, wf) =>
               logging_calls.exception
                 (lit "Compiler wrapper failed complete.") wf
               = (Return tt, w2)
               /\ events w2
                  = events wf
                      ++ [LogCall ERROR
                            (Text (lit "Compiler wrapper failed complete."))
                            true]
           end
       | _, _ =>
           logging_calls.exception (lit "Compiler wrapper failed complete.") w1
           = (Return tt, w2)
           /\ events w2
              = events w1
                  ++ [LogCall ERROR
                        (Text (lit "Compiler wrapper failed complete.")) true]
       end.
Proof.
  intros Hc.
  unfold Wrapper.wrapper_entry_point, wrapper, reporting, try_except, bind,
    lift, ret.
  rewrite Hc.
  destruct (getitem parameters (lit "cc")) as [cc_path|e1].
  - destruct (getitem parameters (lit "cxx")) as [cxx_path|e2].
    + destruct (function (Report compiler command result cc_path cxx_path) w1)
        as [[v|e] wf].
      * by exists wf.
      * destruct (failed_report_logged wf) as (w2 & Hlog & Hev).
        exists w2. by rewrite Hlog.
    + destruct (failed_report_logged w1) as (w2 & Hlog & Hev).
      exists w2. by rewrite Hlog.
  - destruct (failed_report_logged w1) as (w2 & Hlog & Hev).
    exists w2. by rewrite Hlog.
Qed.


(** C9.  When the transport value is absent from the environment, or is
    there and [json.loads] rejects it, the wrapper raises the error of the
    decoding and leaves the process state as it found it: no process has
    been started and the reporting function has not run, whatever they
    are. *)
Theorem wrapper_configuration_error_is_fatal
    (function : report -> M R) (w : world) :
  (environ !! ENVIRONMENT_KEY = None
   \/ exists text, environ !! ENVIRONMENT_KEY = Some text
                   /\ json.loads text = Raise JSONDecodeError) ->
  exists e,
    (e = KeyError ENVIRONMENT_KEY \/ e = JSONDecodeError)
    /\ wrapper_entry_point function w = (Raise e, w)
    /\ compilation w = (Raise e, w).
Proof.
  intros Hbad.
  assert (Hload : exists e,
             (e = KeyError ENVIRONMENT_KEY \/ e = JSONDecodeError)
             /\ load_parameters environ = Raise e).
  { unfold load_parameters, environ_item.
    destruct Hbad as [->|(text & -> & ->)]; eauto. }
  destruct Hload as (e & He & Hload). exists e. split; [done|].
  assert (Hc : compilation w = (Raise e, w)).
  { unfold Wrapper.compilation, bind, lift. by rewrite Hload. }
  split; [|done]. by apply wrapper_compilation_raises.
Qed.
End WrapperFacts.

Section CommandFacts.
Import logging Wrapper.
Variable environ : gmap pystr pystr.
Variable spawn : list pystr -> option pystr -> outcome (Z * list Byte.byte).
Variable decode : pyval -> outcome (list pystr).
Variable reconfigure_logging_float : pystr -> M unit.

Lemma reconfigure_logging_events (verbose_level : Z) (w : world) :
  exists w0, Verbosity.reconfigure_logging verbose_level w = (Return tt, w0)
             /\ events w0 = events w.
Proof.
  unfold Verbosity.reconfigure_logging.
  destruct (verbose_level =? 0); [by exists w|].
  unfold bind, get_root, set_root. simpl. eauto.
Qed.

(** With parameters that decode, an integer verbosity and a compiler that
    [decode] splits into [words], the wrapper starts exactly one process,
    with the command [words + sys.argv[1:]], and hands on its exit status
    or the exception of the failed start. *)
Lemma compilation_runs (argv0 : pystr) (rest : list pystr)
    (parameters compiler : pyval) (verbose_level : Z) (words : list pystr)
    (w : world) :
  load_parameters environ = Return parameters ->
  getitem parameters (lit "verbose") = Return (PInt verbose_level) ->
  real_compiler parameters (basename argv0) = Return compiler ->
  decode compiler = Return words ->
  exists w1,
    events w1
    = events w ++ [LogCall DEBUG (Text (lit "compilation: %s")) false;
                   Exec (words ++ rest) None]
    /\ match spawn (words ++ rest) None with
       | Return (status, _) =>
           exists w2,
             compilation environ (argv0 :: rest) spawn decode
               reconfigure_logging_float w
             = (Return (parameters, compiler, words ++ rest, status), w2)
             /\ events w2
                = events w1
                    ++ [LogCall DEBUG (Text (lit "compilation exit code: %d"))
                          false]
       | Raise e =>
           compilation environ (argv0 :: rest) spawn decode
             reconfigure_logging_float w
           = (Raise e, w1)
       end.
Proof.
  intros Hload Hverbose Hcompiler Hwords.
  destruct (reconfigure_logging_events verbose_level w) as (w0 & Hre & Hev0).
  destruct (debug_events (lit "compilation: %s") w0) as (wd & Hdbg & Hevd).
  exists (World (root wd) (disable wd)
            (events wd ++ [Exec (words ++ rest) None])).
  split; [simpl; by rewrite Hevd, Hev0, <- app_assoc|].
  unfold compilation, bind, lift, CommandRunner.call, record_event.
  rewrite Hload, Hverbose. simpl reconfigure_logging_value.
  rewrite Hre. simpl item0. cbv beta iota. rewrite Hcompiler, Hwords.
  simpl tail. rewrite Hdbg. unfold bind, ret, raise. cbn beta iota.
  destruct (spawn (words ++ rest) None) as [[status output]|e]; [|done].
  match goal with
  | |- context [logging_calls.debug ?m ?w'] =>
      destruct (debug_events m w') as (w2 & -> & Hev2)
  end.
  exists w2. split; [done|]. by rewrite Hev2.
Qed.

End CommandFacts.

Section ExitCodeFacts.
Import logging Wrapper.
Context {R : Type}.
Variable environ : gmap pystr pystr.
Variable spawn : list pystr -> option pystr -> outcome (Z * list Byte.byte).
Variable decode : pyval -> outcome (list pystr).
Variable reconfigure_logging_float : pystr -> M unit.

(** C1.  Every run of the wrapper that returns a value has started the
    real compiler as one process, between the two debug messages, with the
    words of the compiler chosen by the wrapper's name followed by
    [sys.argv[1:]]; the value returned is the exit status of that process.
    The reporting function was then called in the state the compilation
    left, with the compiler, the command and the status: if it returned,
    the run ends in the state it left; if it raised, whatever the class of
    the exception, or if [cc] or [cxx] could not be looked up, the
    exception was caught and one error with the traceback logged.  Once
    the compilation step has an exit code the wrapper returns it for every
    reporting function, two reporting functions never lead to different
    exit codes, and with parameters that decode, an integer verbosity and
    a compiler that starts and exits with a status, the compilation step
    does hand on that status. *)
Theorem wrapper_returns_compiler_exit_code
    (function : report -> M R) (argv : list pystr) (w : world) :
  (forall v w2,
      wrapper_entry_point environ argv spawn decode reconfigure_logging_float
        function w
      = (Return v, w2) ->
      exists parameters compiler command verbose argv0 words output w0 w1,
        load_parameters environ = Return parameters
        /\ getitem parameters (lit "verbose") = Return verbose
        /\ reconfigure_logging_value reconfigure_logging_float verbose w
           = (Return tt, w0)
        /\ item0 argv = Return argv0
        /\ real_compiler parameters (basename argv0) = Return compiler
        /\ decode compiler = Return words
        /\ command = words ++ tail argv
        /\ spawn command None = Return (v, output)
        /\ compilation environ argv spawn decode reconfigure_logging_float w
           = (Return (parameters, compiler, command, v), w1)
        /\ events w1
           = events w0
               ++ [LogCall DEBUG (Text (lit "compilation: %s")) false;
                   Exec command None;
                   LogCall DEBUG (Text (lit "compilation exit code: %d"))
                     false]
        /\ match getitem parameters (lit "cc"),
                 getitem parameters (lit "cxx") with
           | Return cc_path, Return cxx_path =>
               match function (Report compiler command v cc_path cxx_path) w1
               with
               | (Return _, wf) => w2 = wf
               | (Raise _, wf) =>
                   logging_calls.exception
                     (lit "Compiler wrapper failed complete.") wf
                   = (Return tt, w2)
                   /\ events w2
                      = events wf
                          ++ [LogCall ERROR
                                (Text
                                   (lit "Compiler wrapper failed complete."))
                                true]
               end
           | _, _ =>
               logging_calls.exception
                 (lit "Compiler wrapper failed complete.") w1
               = (Return tt, w2)
               /\ events w2
                  = events w1
                      ++ [LogCall ERROR
                            (Text (lit "Compiler wrapper failed complete."))
                            true]
           end)
  /\ (forall parameters compiler command result w1,
         compilation environ argv spawn decode reconfigure_logging_float w
         = (Return (parameters, compiler, command, result), w1) ->
         exists w2,
           wrapper_entry_point environ argv spawn decode
             reconfigure_logging_float function w
           = (Return result, w2))
  /\ (forall function' : report -> M R,
         fst (wrapper_entry_point environ argv spawn decode
                reconfigure_logging_float function' w)
         = fst (wrapper_entry_point environ argv spawn decode
                  reconfigure_logging_float function w))
  /\ (forall argv0 rest parameters verbose_level compiler words status output,
         argv = argv0 :: rest ->
         load_parameters environ = Return parameters ->
         getitem parameters (lit "verbose") = Return (PInt verbose_level) ->
         real_compiler parameters (basename argv0) = Return compiler ->
         decode compiler = Return words ->
         spawn (words ++ rest) None = Return (status, output) ->
         exists w1,
           compilation environ argv spawn decode reconfigure_logging_float w
           = (Return (parameters, compiler, words ++ rest, status), w1)
           /\ events w1
              = events w
                  ++ [LogCall DEBUG (Text (lit "compilation: %s")) false;
                      Exec (words ++ rest) None;
                      LogCall DEBUG (Text (lit "compilation exit code: %d"))
                        false]).
Proof.
  split; [|split; [|split]].
  - intros v w2 Hw.
    destruct (compilation environ argv spawn decode reconfigure_logging_float
                w) as [[[[[p c] cmd] res]|e] w1] eqn:Hc.
    + destruct (wrapper_reported environ argv spawn decode
                  reconfigure_logging_float function p c cmd res w w1 Hc)
        as (w2' & Hw' & Hreport).
      rewrite Hw in Hw'. injection Hw' as -> ->.
      destruct (compilation_inversion environ argv spawn decode
                  reconfigure_logging_float p c cmd res w w1 Hc)
        as (verbose & argv0 & words & output & w0 & Hload & Hverbose & Hre
            & Hargv & Hcompiler & Hwords & Hcmd & Hs & Hev).
      exists p, c, cmd, verbose, argv0, words, output, w0, w1.
      repeat (split; [done|]). done.
    + rewrite (wrapper_compilation_raises environ argv spawn decode
                 reconfigure_logging_float function _ _ _ Hc) in Hw.
      discriminate Hw.
  - intros p c cmd res w1 Hc.
    by apply (wrapper_after_compilation environ argv spawn decode
                reconfigure_logging_float function p c cmd res w w1).
  - intros function'.
    destruct (compilation environ argv spawn decode reconfigure_logging_float
                w) as [[[[[p c] cmd] res]|e] w1] eqn:Hc.
    + destruct (wrapper_after_compilation environ argv spawn decode
                  reconfigure_logging_float function _ _ _ _ _ _ Hc)
        as [w2 ->].
      destruct (wrapper_after_compilation environ argv spawn decode
                  reconfigure_logging_float function' _ _ _ _ _ _ Hc)
        as [w2' ->]. done.
    + by rewrite !(wrapper_compilation_raises environ argv spawn decode
                     reconfigure_logging_float _ _ _ _ Hc).
  - intros argv0 rest parameters verbose_level compiler words status output
      -> Hload Hverbose Hcompiler Hwords Hspawn.
    destruct (compilation_runs environ spawn decode reconfigure_logging_float
                argv0 rest parameters compiler verbose_level words w
                Hload Hverbose Hcompiler Hwords) as (w1 & Hev & Hrun).
    rewrite Hspawn in Hrun. destruct Hrun as (w2 & Hc & Hev2).
    exists w2. split; [done|]. rewrite Hev2, Hev. by rewrite <- app_assoc.
Qed.
End ExitCodeFacts.


(** C3.  For every compiler path that the personality resolves to and
    every argument vector [argv0 :: rest], the one command that the wrapper
    executes is the path followed by [rest] as it stands: the process is
    started with [path :: rest], and that same list is what the wrapper
    hands on with the exit status. *)
Theorem wrapper_command_is_passthrough
    (environ : gmap pystr pystr)
    (spawn : list pystr -> option pystr -> outcome (Z * list Byte.byte))
    (reconfigure_logging_float : pystr -> M unit)
    (argv0 path : pystr) (rest : list pystr)
    (parameters : pyval) (verbose_level : Z) (w : world) :
  Wrapper.load_parameters environ = Return parameters ->
  getitem parameters (lit "verbose") = Return (PInt verbose_level) ->
  Wrapper.real_compiler parameters (basename argv0) = Return (PStr path) ->
  exists w1,
    events w1
    = events w
        ++ [LogCall logging.DEBUG (logging.Text (lit "compilation: %s")) false;
            Exec (path :: rest) None]
    /\ match spawn (path :: rest) None with
       | Return (status, _) =>
           exists w2,
             Wrapper.compilation environ (argv0 :: rest) spawn
               Wrapper.shell_decode reconfigure_logging_float w
             = (Return (parameters, PStr path, path :: rest, status), w2)
             /\ events w2
                = events w1
                    ++ [LogCall logging.DEBUG
                          (logging.Text (lit "compilation exit code: %d"))
                          false]
       | Raise e =>
           Wrapper.compilation environ (argv0 :: rest) spawn
             Wrapper.shell_decode reconfigure_logging_float w
           = (Raise e, w1)
       end.
Proof.
  intros Hload Hverbose Hcompiler.
  exact (compilation_runs environ spawn Wrapper.shell_decode
           reconfigure_logging_float argv0 rest parameters (PStr path)
           verbose_level [path] w Hload Hverbose Hcompiler eq_refl).
Qed.


Lemma wrapper_returns_compiler_exit_code_witness :
  (exists w1,
      Wrapper.compilation (Wrapper.wrapper_environment Samples.args)
        Samples.argv Samples.failing_compiler Wrapper.shell_decode
        Samples.no_float fresh_world
      = (Return (PDict [(lit "verbose", PInt 2);
                        (lit "cc", PStr (lit "/usr/bin/clang"));
                        (lit "cxx", PStr (lit "/usr/bin/clang++"))],
                 PStr (lit "/usr/bin/clang++"),
                 [lit "/usr/bin/clang++"]
                   ++ [lit "-c"; lit "a b.cc"; lit "-o"; lit "a.o"], 1), w1)
      /\ events w1
         = events fresh_world
             ++ [LogCall logging.DEBUG (logging.Text (lit "compilation: %s"))
                   false;
                 Exec ([lit "/usr/bin/clang++"]
                         ++ [lit "-c"; lit "a b.cc"; lit "-o"; lit "a.o"])
                   None;
                 LogCall logging.DEBUG
                   (logging.Text (lit "compilation exit code: %d")) false])
  /\ exists w2,
       Wrapper.wrapper_entry_point (Wrapper.wrapper_environment Samples.args)
         Samples.argv Samples.failing_compiler Wrapper.shell_decode
         Samples.no_float Samples.failing_report fresh_world
       = (Return 1, w2)
       /\ events w2
          = [LogCall logging.DEBUG (logging.Text (lit "compilation: %s"))
               false;
             Exec [lit "/usr/bin/clang++"; lit "-c"; lit "a b.cc"; lit "-o";
                   lit "a.o"] None;
             LogCall logging.DEBUG
               (logging.Text (lit "compilation exit code: %d")) false;
             LogCall logging.ERROR
               (logging.Text (lit "Compiler wrapper failed complete.")) true].
Proof.
  destruct (wrapper_returns_compiler_exit_code
              (Wrapper.wrapper_environment Samples.args)
              Samples.failing_compiler Wrapper.shell_decode
              Samples.no_float Samples.failing_report Samples.argv
              fresh_world) as (Hrun & Hreturns & _ & Hcompiles).
  split.
  - apply (Hcompiles (lit "/usr/lib/wrappers/intercept-c++")
             [lit "-c"; lit "a b.cc"; lit "-o"; lit "a.o"]
             (PDict [(lit "verbose", PInt 2);
                     (lit "cc", PStr (lit "/usr/bin/clang"));
                     (lit "cxx", PStr (lit "/usr/bin/clang++"))])
             2 (PStr (lit "/usr/bin/clang++")) [lit "/usr/bin/clang++"]
             1 []); reflexivity.
  - edestruct Hreturns as [w2 Hw]; [vm_compute; reflexivity|].
    exists w2. split; [exact Hw|].
    destruct (Hrun 1 w2 Hw)
      as (p & c & cmd & verbose & argv0 & words & output & w0 & w1 & Hload
          & Hverbose & Hre & Hargv & Hcompiler & Hwords & Hcmd & _ & _ & Hev
          & Hreport).
    assert (p = PDict [(lit "verbose", PInt 2);
                       (lit "cc", PStr (lit "/usr/bin/clang"));
                       (lit "cxx", PStr (lit "/usr/bin/clang++"))]) as ->
      by (vm_compute in Hload; injection Hload as <-; reflexivity).
    assert (Hev0 : events w0 = [])
      by (injection Hverbose as <-; vm_compute in Hre; injection Hre as <-;
          reflexivity).
    injection Hargv as <-.
    assert (c = PStr (lit "/usr/bin/clang++")) as ->
      by (vm_compute in Hcompiler; injection Hcompiler as <-; reflexivity).
    injection Hwords as <-. subst cmd.
    change (getitem _ (lit "cc"))
      with (Return (PStr (lit "/usr/bin/clang"))) in Hreport.
    change (getitem _ (lit "cxx"))
      with (Return (PStr (lit "/usr/bin/clang++"))) in Hreport.
    unfold Samples.failing_report, raise in Hreport. cbv beta iota in Hreport.
    destruct Hreport as [_ ->]. rewrite Hev, Hev0. reflexivity.
Defined.

Lemma wrapper_command_is_passthrough_witness :
  exists w2,
    Wrapper.compilation (Wrapper.wrapper_environment Samples.args)
      Samples.argv Samples.failing_compiler Wrapper.shell_decode
      Samples.no_float fresh_world
    = (Return (PDict [(lit "verbose", PInt 2);
                      (lit "cc", PStr (lit "/usr/bin/clang"));
                      (lit "cxx", PStr (lit "/usr/bin/clang++"))],
               PStr (lit "/usr/bin/clang++"),
               [lit "/usr/bin/clang++"; lit "-c"; lit "a b.cc"; lit "-o";
                lit "a.o"],
               1), w2).
Proof.
  destruct (wrapper_command_is_passthrough
              (Wrapper.wrapper_environment Samples.args)
              Samples.failing_compiler Samples.no_float
              (lit "/usr/lib/wrappers/intercept-c++")
              (lit "/usr/bin/clang++")
              [lit "-c"; lit "a b.cc"; lit "-o"; lit "a.o"]
              (PDict [(lit "verbose", PInt 2);
                      (lit "cc", PStr (lit "/usr/bin/clang"));
                      (lit "cxx", PStr (lit "/usr/bin/clang++"))])
              2 fresh_world)
    as (w1 & _ & w2 & Hrun & _).
  - vm_compute. reflexivity.
  - reflexivity.
  - vm_compute. reflexivity.
  - exists w2. exact Hrun.
Defined.

Lemma wrapper_configuration_error_is_fatal_witness :
  exists e,
    (e = KeyError Wrapper.ENVIRONMENT_KEY \/ e = JSONDecodeError)
    /\ Wrapper.wrapper_entry_point
         ({[ Wrapper.ENVIRONMENT_KEY := lit "{verbose: 2}" ]})
         Samples.argv Samples.failing_compiler Wrapper.shell_decode
         Samples.no_float Samples.failing_report fresh_world
       = (Raise e, fresh_world)
    /\ Wrapper.compilation
         ({[ Wrapper.ENVIRONMENT_KEY := lit "{verbose: 2}" ]})
         Samples.argv Samples.failing_compiler Wrapper.shell_decode
         Samples.no_float fresh_world
       = (Raise e, fresh_world).
Proof.
  apply (wrapper_configuration_error_is_fatal
           ({[ Wrapper.ENVIRONMENT_KEY := lit "{verbose: 2}" ]})
           Samples.argv Samples.failing_compiler Wrapper.shell_decode
           Samples.no_float Samples.failing_report fresh_world).
  right. exists (lit "{verbose: 2}"). split.
  - apply lookup_singleton_eq.
  - reflexivity.
Defined.

(** The same with no transport value at all. *)
Example wrapper_without_environment :
  Wrapper.wrapper_entry_point ∅ Samples.argv Samples.failing_compiler
    Wrapper.shell_decode Samples.no_float Samples.failing_report fresh_world
  = (Raise (KeyError Wrapper.ENVIRONMENT_KEY), fresh_world).
Proof. reflexivity. Qed.

(** ** The configuration codec *)

Section StringCodecFacts.
Import json.

Ltac div_lia := zify; Z.to_euclidean_division_equations; lia.

Lemma hex_value_digit (d : N) :
  (d < 16)%N -> hex_value (hex_digit d) = Some d.
Proof.
  intros Hd. unfold hex_value, hex_digit.
  destruct (N.ltb_spec d 10).
  - replace ((48 <=? 48 + d) && (48 + d <=? 57))%N with true
      by (symmetry; apply andb_true_iff; split; apply N.leb_le; lia).
    f_equal. lia.
  - replace ((48 <=? 87 + d) && (87 + d <=? 57))%N with false
      by (symmetry; apply andb_false_iff; right; apply N.leb_gt; lia).
    replace ((97 <=? 87 + d) && (87 + d <=? 102))%N with true
      by (symmetry; apply andb_true_iff; split; apply N.leb_le; lia).
    f_equal. lia.
Qed.

Lemma decode_u_escape (n : N) (tail : pystr) :
  (n < 65536)%N ->
  decode_uXXXX (hex_digit (n / 4096 mod 16) :: hex_digit (n / 256 mod 16)
                  :: hex_digit (n / 16 mod 16) :: hex_digit (n mod 16) :: tail)
  = Some (n, tail).
Proof.
  intros Hn. unfold decode_uXXXX.
  rewrite !hex_value_digit by div_lia. simpl. do 2 f_equal. div_lia.
Qed.

Lemma scan_single_escape (n : N) (tail : pystr) :
  (n < 55296 \/ 57344 <= n < 65536)%N ->
  scan_unicode_escape
    (hex_digit (n / 4096 mod 16) :: hex_digit (n / 256 mod 16)
       :: hex_digit (n / 16 mod 16) :: hex_digit (n mod 16) :: tail)
  = Some (n, tail).
Proof.
  intros Hn. unfold scan_unicode_escape.
  rewrite decode_u_escape by lia. simpl.
  replace ((55296 <=? n) && (n <=? 56319))%N with false; [done|].
  symmetry. apply andb_false_iff.
  destruct Hn as [Hn|Hn]; [left; apply N.leb_gt|right; apply N.leb_gt]; lia.
Qed.

Lemma scan_surrogate_pair (c : N) (tail : pystr) :
  (65536 <= c < 1114112)%N ->
  scan_unicode_escape
    (drop 2 (u_escape (55296 + ((c - 65536) / 1024) mod 1024))
       ++ u_escape (56320 + (c - 65536) mod 1024) ++ tail)
  = Some (c, tail).
Proof.
  intros Hc. unfold scan_unicode_escape, u_escape. cbn [drop app].
  rewrite decode_u_escape by div_lia. cbn [mbind option_bind].
  replace ((55296 <=? 55296 + (c - 65536) / 1024 mod 1024)
           && (55296 + (c - 65536) / 1024 mod 1024 <=? 56319))%N with true
    by (symmetry; apply andb_true_iff; split; apply N.leb_le; div_lia).
  rewrite decode_u_escape by div_lia. cbn [mbind option_bind].
  replace ((56320 <=? 56320 + (c - 65536) mod 1024)
           && (56320 + (c - 65536) mod 1024 <=? 57343))%N with true
    by (symmetry; apply andb_true_iff; split; apply N.leb_le; div_lia).
  do 2 f_equal. div_lia.
Qed.

Lemma scanstring_backslash_u (fuel : nat) (s : pystr) :
  scanstring (S fuel) (92 :: 117 :: s)%N
  = '(char, s3) ← scan_unicode_escape s;
    '(chars, rest) ← scanstring fuel s3;
    Some (char :: chars, rest).
Proof. reflexivity. Qed.

Lemma scanstring_literal (fuel : nat) (c : N) (s : pystr) :
  c <> 34%N -> c <> 92%N -> (32 <= c)%N ->
  scanstring (S fuel) (c :: s)
  = '(chars, rest) ← scanstring fuel s; Some (c :: chars, rest).
Proof.
  intros H34 H92 H32. cbn [scanstring].
  apply N.eqb_neq in H34, H92. rewrite H34, H92.
  replace (c <? 32)%N with false by (symmetry; apply N.ltb_ge; lia). done.
Qed.

(** One round of [scanstring] reads back the character that
    [escape_char] wrote. *)
Lemma scanstring_escape_char (fuel : nat) (c : N) (tail : pystr) :
  unicode_scalar c ->
  scanstring (S fuel) (escape_char c ++ tail)
  = '(chars, rest) ← scanstring fuel tail; Some (c :: chars, rest).
Proof.
  intros Hc. unfold escape_char.
  destruct (N.eqb_spec c 92) as [->|H92]; [reflexivity|].
  destruct (N.eqb_spec c 34) as [->|H34]; [reflexivity|].
  destruct ((32 <=? c) && (c <=? 126))%N eqn:Hprint.
  { apply andb_true_iff in Hprint as [Hlo _]. apply N.leb_le in Hlo.
    by apply scanstring_literal. }
  destruct (N.eqb_spec c 8) as [->|H8]; [reflexivity|].
  destruct (N.eqb_spec c 12) as [->|H12]; [reflexivity|].
  destruct (N.eqb_spec c 10) as [->|H10]; [reflexivity|].
  destruct (N.eqb_spec c 13) as [->|H13]; [reflexivity|].
  destruct (N.eqb_spec c 9) as [->|H9]; [reflexivity|].
  destruct (N.ltb_spec c 65536) as [Hlow|Hhigh].
  - unfold u_escape. cbn [app]. rewrite scanstring_backslash_u.
    rewrite scan_single_escape; [done|]. unfold unicode_scalar in Hc. lia.
  - assert (Hrange : (65536 <= c < 1114112)%N)
      by (unfold unicode_scalar in Hc; lia).
    rewrite <- app_assoc.
    change (u_escape (55296 + (c - 65536) / 1024 mod 1024)
              ++ u_escape (56320 + (c - 65536) mod 1024) ++ tail)
      with (92 :: 117
              :: drop 2 (u_escape (55296 + (c - 65536) / 1024 mod 1024))
              ++ u_escape (56320 + (c - 65536) mod 1024) ++ tail)%N.
    rewrite scanstring_backslash_u, scan_surrogate_pair; done.
Qed.

Lemma scanstring_closing_quote (fuel : nat) (rest : pystr) :
  scanstring (S fuel) (34%N :: rest) = Some ([], rest).
Proof. reflexivity. Qed.

(** [scanstring] reads back what [encode_basestring_ascii] wrote between
    the quotes. *)
Lemma scanstring_encoded (s rest : pystr) (fuel : nat) :
  Forall unicode_scalar s ->
  (length s < fuel)%nat ->
  scanstring fuel (flat_map escape_char s ++ 34%N :: rest) = Some (s, rest).
Proof.
  intros Hs. revert fuel. induction Hs as [|c s Hc Hs IH]; intros fuel Hfuel.
  - destruct fuel as [|fuel]; [simpl in Hfuel; lia|].
    apply scanstring_closing_quote.
  - destruct fuel as [|fuel]; [simpl in Hfuel; lia|].
    cbn [flat_map]. rewrite <- app_assoc.
    rewrite scanstring_escape_char by done.
    rewrite IH by (simpl in Hfuel; lia). done.
Qed.

Lemma escape_char_nonempty (c : N) : (1 <= length (escape_char c))%nat.
Proof.
  unfold escape_char.
  repeat match goal with
         | |- context [if ?b then _ else _] => destruct b
         end; simpl; lia.
Qed.

Lemma escaped_length (s : pystr) :
  (length s <= length (flat_map escape_char s))%nat.
Proof.
  induction s as [|c s IH]; simpl; [lia|].
  rewrite length_app. pose proof (escape_char_nonempty c). lia.
Qed.

(** A string value: the scanner reads back the string that was encoded. *)
Lemma scan_once_encoded_string (s rest : pystr) (fuel : nat) :
  Forall unicode_scalar s ->
  scan_once (S fuel) (encode_basestring_ascii s ++ rest)
  = Some (PStr s, rest).
Proof.
  intros Hs. unfold encode_basestring_ascii.
  cbn [app scan_once]. cbn [N.eqb Pos.eqb].
  rewrite <- app_assoc. cbn [app].
  rewrite scanstring_encoded; [done|done|].
  rewrite length_app. pose proof (escaped_length s). simpl. lia.
Qed.
End StringCodecFacts.

Section NumberCodecFacts.
Import json.

Lemma uint_of_digits_digits (u : Decimal.uint) :
  uint_of_digits (digits u) = u.
Proof. induction u; simpl; congruence. Qed.

Lemma digits_are_digits (u : Decimal.uint) :
  forallb is_digit (digits u) = true.
Proof. induction u; simpl; done. Qed.

Lemma span_digits_stops (ds : pystr) (c : N) (rest : pystr) :
  forallb is_digit ds = true -> is_digit c = false ->
  span_digits (ds ++ c :: rest) = (ds, c :: rest).
Proof.
  intros Hds Hc. induction ds as [|d ds IH]; simpl.
  - by rewrite Hc.
  - simpl in Hds. apply andb_true_iff in Hds as [Hd Hds].
    by rewrite Hd, IH.
Qed.

Lemma unorm_leading_zero (u v : Decimal.uint) :
  Decimal.unorm u = Decimal.D0 v -> v = Decimal.Nil.
Proof.
  induction u; simpl; try discriminate; try done.
  intros Heq. by injection Heq as <-.
Qed.

Lemma to_uint_normal (p : positive) :
  Decimal.unorm (Pos.to_uint p) = Pos.to_uint p.
Proof.
  rewrite <- (DecimalPos.Unsigned.to_of (Pos.to_uint p)).
  by rewrite DecimalPos.Unsigned.of_to.
Qed.

(** The decimal form of a positive number starts with a digit from 1 to
    9. *)
Lemma to_uint_head (p : positive) :
  exists c ds, digits (Pos.to_uint p) = c :: ds
               /\ (49 <= c <= 57)%N /\ forallb is_digit ds = true.
Proof.
  pose proof (to_uint_normal p) as Hnorm.
  pose proof (DecimalPos.Unsigned.to_uint_nonzero p) as Hnz.
  pose proof (DecimalPos.Unsigned.to_uint_nonnil p) as Hnn.
  destruct (Pos.to_uint p) as [|u|u|u|u|u|u|u|u|u|u]; [done| |..].
  - exfalso. apply Hnz. pose proof (unorm_leading_zero _ _ Hnorm) as ->. done.
  - exists 49%N, (digits u). split; [done|].
    split; [lia|apply digits_are_digits].
  - exists 50%N, (digits u). split; [done|].
    split; [lia|apply digits_are_digits].
  - exists 51%N, (digits u). split; [done|].
    split; [lia|apply digits_are_digits].
  - exists 52%N, (digits u). split; [done|].
    split; [lia|apply digits_are_digits].
  - exists 53%N, (digits u). split; [done|].
    split; [lia|apply digits_are_digits].
  - exists 54%N, (digits u). split; [done|].
    split; [lia|apply digits_are_digits].
  - exists 55%N, (digits u). split; [done|].
    split; [lia|apply digits_are_digits].
  - exists 56%N, (digits u). split; [done|].
    split; [lia|apply digits_are_digits].
  - exists 57%N, (digits u). split; [done|].
    split; [lia|apply digits_are_digits].
Qed.

Lemma match_integer_positive (p : positive) (c : N) (rest : pystr) :
  is_digit c = false ->
  match_integer (digits (Pos.to_uint p) ++ c :: rest)
  = Some (digits (Pos.to_uint p), c :: rest).
Proof.
  intros Hc. destruct (to_uint_head p) as (d & ds & -> & Hd & Hds).
  unfold match_integer. cbn [app].
  replace (d =? 48)%N with false by (symmetry; apply N.eqb_neq; lia).
  replace (is_digit d) with true
    by (symmetry; apply andb_true_iff; split; apply N.leb_le; lia).
  by rewrite span_digits_stops.
Qed.

Lemma no_fraction (c : N) (rest : pystr) :
  c <> 46%N -> match_fraction (c :: rest) = ([], c :: rest).
Proof.
  intros Hc. unfold match_fraction.
  destruct c as [|p]; [done|].
  repeat (destruct p as [p|p|]; try done).
Qed.

Lemma no_exponent (c : N) (rest : pystr) :
  c <> 101%N -> c <> 69%N -> match_exponent (c :: rest) = ([], c :: rest).
Proof.
  intros H101 H69. unfold match_exponent.
  apply N.eqb_neq in H101, H69. by rewrite H101, H69.
Qed.

Lemma match_number_tail (minus : bool) (u : Decimal.uint) (c : N)
    (rest : pystr) :
  ends_number c ->
  match_integer (digits u ++ c :: rest) = Some (digits u, c :: rest) ->
  ('(integer, s1) ← match_integer (digits u ++ c :: rest);
   let '(frac, s2) := match_fraction s1 in
   let '(exp, s3) := match_exponent s2 in
   match frac, exp with
   | [], [] =>
       let u' := uint_of_digits integer in
       Some (PInt (Z.of_int (if minus then Decimal.Neg u'
                             else Decimal.Pos u')), s3)
   | _, _ =>
       Some (PFloat ((if minus then [45%N] else []) ++ integer ++ frac ++ exp),
             s3)
   end)
  = Some (PInt (Z.of_int (if minus then Decimal.Neg u else Decimal.Pos u)),
          c :: rest).
Proof.
  intros (Hd & H46 & H101 & H69) ->. cbn [mbind option_bind].
  rewrite no_fraction, no_exponent by done.
  by rewrite uint_of_digits_digits.
Qed.

(** [match_number] reads back the integer that [int_repr] wrote. *)
Lemma match_number_int_repr (z : Z) (c : N) (rest : pystr) :
  ends_number c ->
  match_number (int_repr z ++ c :: rest) = Some (PInt z, c :: rest).
Proof.
  intros Hend. pose proof Hend as (Hd & _).
  rewrite <- (DecimalZ.of_to z) at 2.
  unfold match_number, int_repr. destruct z as [|p|p]; cbn [Z.to_int].
  - apply (match_number_tail false (Decimal.D0 Decimal.Nil) c rest Hend).
    reflexivity.
  - destruct (to_uint_head p) as (d & ds & Hhead & Hrange & _).
    assert (Hminus : d <> 45%N) by lia.
    rewrite Hhead. cbn [app].
    destruct d as [|q]; [lia|].
    assert (Hq : (N.pos q =? 45)%N = false) by (apply N.eqb_neq; lia).
    replace (match N.pos q :: ds ++ c :: rest with
             | 45%N :: t => (true, t)
             | _ => (false, N.pos q :: ds ++ c :: rest)
             end) with (false, N.pos q :: ds ++ c :: rest).
    + change (N.pos q :: ds ++ c :: rest)
        with ((N.pos q :: ds) ++ c :: rest).
      rewrite <- Hhead.
      apply (match_number_tail false (Pos.to_uint p) c rest Hend).
      by apply match_integer_positive.
    + clear -Hminus. do 7 (destruct q as [q|q|]; try done).
  - cbn [app].
    apply (match_number_tail true (Pos.to_uint p) c rest Hend).
    by apply match_integer_positive.
Qed.

(** The first character of [int_repr z]: a minus sign or a digit. *)
Lemma int_repr_head (z : Z) :
  exists h tl, int_repr z = h :: tl /\ (h = 45%N \/ (48 <= h <= 57)%N).
Proof.
  unfold int_repr. destruct z as [|p|p]; cbn [Z.to_int].
  - exists 48%N, []. split; [done|]. right. lia.
  - destruct (to_uint_head p) as (d & ds & -> & Hrange & _).
    exists d, ds. split; [done|]. right. lia.
  - exists 45%N, (digits (Pos.to_uint p)). split; [done|]. by left.
Qed.

Lemma scan_once_at_number (fuel : nat) (h : N) (s : pystr) :
  h = 45%N \/ (48 <= h <= 57)%N ->
  scan_once (S fuel) (h :: s)
  = match match_number (h :: s) with
    | Some r => Some r
    | None =>
        match strip_prefix (lit "-Infinity") (h :: s) with
        | Some rest => Some (PFloat (lit "-Infinity"), rest)
        | None => None
        end
    end.
Proof.
  intros Hh.
  assert (Hcases : (h = 45 \/ h = 48 \/ h = 49 \/ h = 50 \/ h = 51 \/ h = 52
                    \/ h = 53 \/ h = 54 \/ h = 55 \/ h = 56 \/ h = 57)%N)
    by lia.
  clear Hh.
  repeat (destruct Hcases as [->|Hcases]; [reflexivity|]).
  subst h. reflexivity.
Qed.

(** An integer value: the scanner reads back the integer that was
    encoded. *)
Lemma scan_once_int_repr (fuel : nat) (z : Z) (c : N) (rest : pystr) :
  ends_number c ->
  scan_once (S fuel) (int_repr z ++ c :: rest) = Some (PInt z, c :: rest).
Proof.
  intros Hend. pose proof (match_number_int_repr z c rest Hend) as Hnum.
  destruct (int_repr_head z) as (h & tl & Hrepr & Hh).
  rewrite Hrepr in *. cbn [app] in *.
  by rewrite scan_once_at_number, Hnum.
Qed.

Lemma skip_whitespace_int_repr (z : Z) (rest : pystr) :
  skip_whitespace (int_repr z ++ rest) = int_repr z ++ rest.
Proof.
  destruct (int_repr_head z) as (h & tl & -> & Hh). cbn [app skip_whitespace].
  replace (is_whitespace h) with false; [done|].
  symmetry. unfold is_whitespace.
  repeat (apply orb_false_iff; split); apply N.eqb_neq; lia.
Qed.
End NumberCodecFacts.

(** The scanner and its budget of rounds. *)

Section ScannerFuelFacts.
Import json.

Lemma skip_whitespace_length (s : pystr) :
  (length (skip_whitespace s) <= length s)%nat.
Proof.
  induction s as [|c s IH]; simpl; [lia|].
  destruct (is_whitespace c); simpl; lia.
Qed.

Lemma decode_uXXXX_length (s rest : pystr) (n : N) :
  decode_uXXXX s = Some (n, rest) -> (length rest < length s)%nat.
Proof.
  unfold decode_uXXXX. intros Hd.
  destruct s as [|a [|b [|c [|d s]]]]; try discriminate.
  destruct (hex_value a), (hex_value b), (hex_value c), (hex_value d);
    try discriminate.
  simpl in Hd. injection Hd as _ <-. simpl. lia.
Qed.

Lemma scan_unicode_escape_length (s rest : pystr) (n : N) :
  scan_unicode_escape s = Some (n, rest) -> (length rest < length s)%nat.
Proof.
  unfold scan_unicode_escape. intros Hs.
  destruct (decode_uXXXX s) as [[uni s1]|] eqn:Hd; [|discriminate].
  apply decode_uXXXX_length in Hd. cbn [mbind option_bind] in Hs.
  repeat case_match; simplify_eq; simpl in *; try lia.
  destruct (decode_uXXXX _) as [[uni2 s3]|] eqn:Hd2; [|discriminate].
  apply decode_uXXXX_length in Hd2. cbn [mbind option_bind] in Hs.
  case_match; simplify_eq; simpl in *; lia.
Qed.

Lemma scanstring_length (fuel : nat) (s chars rest : pystr) :
  scanstring fuel s = Some (chars, rest) -> (length rest < length s)%nat.
Proof.
  revert s chars rest.
  induction fuel as [|fuel IH]; intros s chars rest Hs; [discriminate|].
  cbn [scanstring] in Hs. destruct s as [|c s1]; [discriminate|].
  destruct (c =? 34)%N; [injection Hs as _ <-; simpl; lia|].
  destruct (c =? 92)%N.
  - destruct s1 as [|esc s2]; [discriminate|].
    destruct (esc =? 117)%N.
    + destruct (scan_unicode_escape s2) as [[char s3]|] eqn:He;
        [|discriminate].
      cbn [mbind option_bind] in Hs.
      destruct (scanstring fuel s3) as [[chars' rest']|] eqn:Hr;
        [|discriminate].
      cbn [mbind option_bind] in Hs. injection Hs as _ <-.
      apply scan_unicode_escape_length in He. apply IH in Hr. simpl. lia.
    + destruct (backslash esc); [|discriminate].
      cbn [mbind option_bind] in Hs.
      destruct (scanstring fuel s2) as [[chars' rest']|] eqn:Hr;
        [|discriminate].
      cbn [mbind option_bind] in Hs. injection Hs as _ <-.
      apply IH in Hr. simpl. lia.
  - destruct (c <? 32)%N; [discriminate|].
    destruct (scanstring fuel s1) as [[chars' rest']|] eqn:Hr; [|discriminate].
    cbn [mbind option_bind] in Hs. injection Hs as _ <-.
    apply IH in Hr. simpl. lia.
Qed.

Lemma span_digits_length (s : pystr) :
  (length (span_digits s).2 <= length s)%nat.
Proof.
  induction s as [|c s IH]; simpl; [lia|].
  destruct (is_digit c); [|simpl; lia].
  destruct (span_digits s). simpl in *. lia.
Qed.

Lemma match_integer_length (s ds rest : pystr) :
  match_integer s = Some (ds, rest) -> (length rest < length s)%nat.
Proof.
  unfold match_integer. destruct s as [|c s]; [discriminate|].
  destruct (c =? 48)%N; [intros Hm; injection Hm as _ <-; simpl; lia|].
  destruct (is_digit c); [|discriminate].
  pose proof (span_digits_length s). destruct (span_digits s).
  intros Hm. injection Hm as _ <-. simpl in *. lia.
Qed.

Lemma match_fraction_length (s : pystr) :
  (length (match_fraction s).2 <= length s)%nat.
Proof.
  unfold match_fraction. repeat case_match; subst; simpl; try lia.
  match goal with
  | H : span_digits ?x = _ |- _ =>
      pose proof (span_digits_length x) as Hl; rewrite H in Hl
  end.
  simpl in Hl. lia.
Qed.

Lemma match_exponent_length (s : pystr) :
  (length (match_exponent s).2 <= length s)%nat.
Proof.
  unfold match_exponent. repeat case_match; simplify_eq; simpl; try lia.
  all: match goal with
       | H : span_digits ?x = _ |- _ =>
           pose proof (span_digits_length x) as Hl; rewrite H in Hl
       end.
  all: simpl in *; lia.
Qed.

Lemma match_number_length (s rest : pystr) (v : pyval) :
  match_number s = Some (v, rest) -> (length rest < length s)%nat.
Proof.
  unfold match_number. intros Hm.
  set (split := match s with
                | 45%N :: t => (true, t)
                | _ => (false, s)
                end) in Hm.
  assert (Hsplit : (length split.2 <= length s)%nat).
  { subst split. clear Hm. repeat case_match; subst; simpl; lia. }
  destruct split as [minus s0]. simpl in Hsplit.
  destruct (match_integer s0) as [[integer s1]|] eqn:Hi; [|discriminate].
  apply match_integer_length in Hi. cbn [mbind option_bind] in Hm.
  pose proof (match_fraction_length s1) as Hf.
  destruct (match_fraction s1) as [frac s2]. simpl in Hf.
  pose proof (match_exponent_length s2) as He.
  destruct (match_exponent s2) as [exp s3]. simpl in He.
  destruct frac, exp; injection Hm as _ <-; lia.
Qed.

Lemma strip_prefix_length (word s rest : pystr) :
  strip_prefix word s = Some rest ->
  (length rest + length word = length s)%nat.
Proof.
  revert s. induction word as [|a word IH]; intros s; simpl.
  - intros Hs. injection Hs as <-. lia.
  - destruct s as [|b s]; [discriminate|].
    destruct (a =? b)%N; [|discriminate].
    intros Hs. apply IH in Hs. simpl. lia.
Qed.

Ltac bind_inv H :=
  match type of H with
  | (?m ≫= _) = Some _ =>
      let E := fresh "E" in
      destruct m as [[? ?]|] eqn:E; [|discriminate H];
      cbn [mbind option_bind] in H
  end.

Lemma scan_length (fuel : nat) :
  (forall s v rest,
      scan_once fuel s = Some (v, rest) -> (length rest < length s)%nat)
  /\ (forall s items rest,
         object_members fuel s = Some (items, rest) ->
         (length rest < length s)%nat)
  /\ (forall s items rest,
         array_items fuel s = Some (items, rest) ->
         (length rest < length s)%nat).
Proof.
  induction fuel as [|fuel (IHv & IHo & IHa)]; [by repeat split|].
  split; [|split].
  - intros s v rest Hs. cbn [scan_once] in Hs.
    destruct s as [|c s']; [discriminate|].
    pose proof (skip_whitespace_length s') as Hws.
    destruct (c =? 34)%N.
    { bind_inv Hs. apply scanstring_length in E. simplify_eq. simpl. lia. }
    destruct (c =? 123)%N.
    { destruct (skip_whitespace s') as [|d s'']; [discriminate|].
      simpl in Hws.
      repeat case_match; simplify_eq; simpl; try lia.
      bind_inv Hs. apply IHo in E. simplify_eq. simpl. lia. }
    destruct (c =? 91)%N.
    { destruct (skip_whitespace s') as [|d s''] eqn:Hskip.
      - bind_inv Hs. apply IHa in E. simpl in E. lia.
      - simpl in Hws.
        repeat case_match; simplify_eq; simpl; try lia.
        all: bind_inv Hs; apply IHa in E; simplify_eq; simpl in *; lia. }
    repeat case_match; simplify_eq;
      repeat match goal with
             | H : strip_prefix _ _ = Some _ |- _ =>
                 apply strip_prefix_length in H
             | H : match_number _ = Some _ |- _ =>
                 apply match_number_length in H
             end; simpl in *; lia.
  - intros s items rest Hs. cbn [object_members] in Hs.
    bind_inv Hs. apply scanstring_length in E.
    match type of E with
    | (length ?s1 < _)%nat => pose proof (skip_whitespace_length s1) as Hws
    end.
    destruct (skip_whitespace _) as [|d s2]; [discriminate|]. simpl in Hws.
    pose proof (skip_whitespace_length s2) as Hws2.
    repeat case_match; simplify_eq.
    all: bind_inv Hs.
    all: match goal with
         | H : scan_once _ _ = Some _ |- _ => apply IHv in H
         end.
    all: match goal with
         | H : (length ?s3 < _)%nat, H' : context [skip_whitespace ?s3] |- _ =>
             pose proof (skip_whitespace_length s3) as Hws3
         | |- _ => idtac
         end.
    all: repeat case_match; simplify_eq; simpl in *; try lia.
    all: try (bind_inv Hs; apply IHo in E1; simplify_eq; simpl in *).
    all: repeat match goal with
           | H : skip_whitespace ?x = _ |- _ =>
               pose proof (skip_whitespace_length x); rewrite H in *; clear H
           end; simpl in *; try lia.
  - intros s items rest Hs. cbn [array_items] in Hs.
    bind_inv Hs. apply IHv in E.
    repeat case_match; simplify_eq.
    all: repeat match goal with
           | H : skip_whitespace ?x = _ |- _ =>
               pose proof (skip_whitespace_length x); rewrite H in *; clear H
           end; simpl in *; try lia.
    all: bind_inv Hs; apply IHa in E0; simplify_eq.
    all: match goal with
         | H : (length _ < length (skip_whitespace ?x))%nat |- _ =>
             pose proof (skip_whitespace_length x)
         end; simpl in *; lia.
Qed.

Lemma scan_once_length (fuel : nat) (s rest : pystr) (v : pyval) :
  scan_once fuel s = Some (v, rest) -> (length rest < length s)%nat.
Proof. apply scan_length. Qed.

(** The scanner does not depend on its fuel, once there are two rounds for
    each character. *)
Lemma scan_fuel (fuel : nat) :
  (forall fuel' s,
      (2 * length s < fuel)%nat -> (2 * length s < fuel')%nat ->
      scan_once fuel s = scan_once fuel' s)
  /\ (forall fuel' s,
         (2 * length s + 1 < fuel)%nat -> (2 * length s + 1 < fuel')%nat ->
         object_members fuel s = object_members fuel' s)
  /\ (forall fuel' s,
         (2 * length s + 1 < fuel)%nat -> (2 * length s + 1 < fuel')%nat ->
         array_items fuel s = array_items fuel' s).
Proof.
  induction fuel as [|fuel (IHv & IHo & IHa)]; [repeat split; intros; lia|].
  split; [|split].
  - intros [|fuel'] s Hf Hf'; [lia|]. cbn [scan_once].
    destruct s as [|c s']; [done|]. simpl in Hf, Hf'.
    pose proof (skip_whitespace_length s') as Hws.
    destruct (c =? 34)%N; [done|].
    destruct (c =? 123)%N.
    { destruct (skip_whitespace s') as [|d inner]; [done|]. simpl in Hws.
      repeat case_match; simplify_eq; try done.
      by rewrite (IHo fuel') by lia. }
    destruct (c =? 91)%N; [|done].
    destruct (skip_whitespace s') as [|d inner] eqn:Hskip.
    { by rewrite (IHa fuel') by (simpl; lia). }
    simpl in Hws.
    repeat case_match; simplify_eq; try done.
    all: by rewrite (IHa fuel') by (simpl; lia).
  - intros [|fuel'] s Hf Hf'; [lia|]. cbn [object_members].
    destruct (scanstring (S (length s)) s) as [[key after_key]|] eqn:Hkey;
      [|done].
    apply scanstring_length in Hkey. cbn [mbind option_bind].
    pose proof (skip_whitespace_length after_key) as Hkey_ws.
    destruct (skip_whitespace after_key) as [|d after_colon]; [done|].
    simpl in Hkey_ws.
    pose proof (skip_whitespace_length after_colon) as Hcolon_ws.
    repeat case_match; simplify_eq; try done.
    all: rewrite (IHv fuel') by lia.
    all: destruct (scan_once fuel' (skip_whitespace after_colon))
           as [[value after_value]|] eqn:Hvalue; [|done].
    all: apply scan_once_length in Hvalue. all: cbn [mbind option_bind].
    all: pose proof (skip_whitespace_length after_value) as Hvalue_ws.
    all: destruct (skip_whitespace after_value) as [|e after_comma]; [done|];
      simpl in Hvalue_ws.
    all: repeat case_match; simplify_eq; try done.
    all: repeat match goal with
           | H : skip_whitespace ?x = _ |- _ =>
               let L := fresh "L" in
               pose proof (skip_whitespace_length x) as L;
               rewrite H in L; simpl in L; clear H
           end.
    all: by rewrite (IHo fuel') by lia.
  - intros [|fuel'] s Hf Hf'; [lia|]. cbn [array_items].
    rewrite (IHv fuel') by lia.
    destruct (scan_once fuel' s) as [[value after_key]|] eqn:Hvalue; [|done].
    apply scan_once_length in Hvalue. cbn [mbind option_bind].
    pose proof (skip_whitespace_length after_key) as Hkey_ws.
    destruct (skip_whitespace after_key) as [|d after_colon]; [done|].
    simpl in Hkey_ws.
    pose proof (skip_whitespace_length after_colon) as Hcolon_ws.
    repeat case_match; simplify_eq; try done.
    all: by rewrite (IHa fuel') by lia.
Qed.

(** [json.loads] gives the same answer with any larger budget of rounds:
    a [JSONDecodeError] of the model is never the budget running out. *)
Lemma loads_fuel_irrelevant (s : pystr) (fuel : nat) :
  (length s + length s < fuel)%nat ->
  loads s
  = match scan_once fuel (skip_whitespace s) with
    | Some (obj, rest) =>
        match skip_whitespace rest with
        | [] => Return obj
        | _ :: _ => Raise JSONDecodeError
        end
    | None => Raise JSONDecodeError
    end.
Proof.
  intros Hfuel. unfold loads.
  pose proof (skip_whitespace_length s) as Hws.
  destruct (scan_fuel (S (length s + length s))) as (Hv & _).
  by rewrite (Hv fuel) by lia.
Qed.
End ScannerFuelFacts.

Section ConfigurationCodecFacts.
Import json Wrapper.

Lemma ascii_literal_scalar (s : string) : Forall unicode_scalar (lit s).
Proof.
  unfold lit. induction s as [|a s IH]; simpl; constructor; [|done].
  unfold unicode_scalar. pose proof (N_ascii_bounded a). lia.
Qed.

(** One member of an object, as [encode_dict] writes it: the key, a colon,
    a space and the text of the value. *)
Lemma object_member (fuel : nat) (key vtext : pystr) (value : pyval)
    (after : pystr) :
  Forall unicode_scalar key ->
  skip_whitespace (vtext ++ after) = vtext ++ after ->
  scan_once (S fuel) (vtext ++ after) = Some (value, after) ->
  object_members (S (S fuel))
    (flat_map escape_char key ++ 34 :: 58 :: 32 :: vtext ++ after)%N
  = match skip_whitespace after with
    | 125%N :: rest => Some ([(key, value)], rest)
    | 44%N :: s4 =>
        match skip_whitespace s4 with
        | 34%N :: s5 =>
            '(items, rest) ← object_members (S fuel) s5;
            Some ((key, value) :: items, rest)
        | _ => None
        end
    | _ => None
    end.
Proof.
  intros Hkey Hskip Hscan. cbn [object_members].
  rewrite scanstring_encoded;
    [|done|rewrite length_app; pose proof (escaped_length key); lia].
  cbn [mbind option_bind].
  change (skip_whitespace (58 :: 32 :: vtext ++ after)%N)
    with (58 :: 32 :: vtext ++ after)%N.
  cbn iota beta.
  change (skip_whitespace (32%N :: vtext ++ after))
    with (skip_whitespace (vtext ++ after)).
  rewrite Hskip, Hscan. cbn [mbind option_bind].
  reflexivity.
Qed.

Lemma encode_dict_shape (k1 v1 k2 v2 k3 v3 : pystr) :
  encode_dict [(k1, v1); (k2, v2); (k3, v3)]
  = (123 :: 34 :: flat_map escape_char k1 ++ 34 :: 58 :: 32 :: v1
       ++ 44 :: 32 :: 34 :: flat_map escape_char k2 ++ 34 :: 58 :: 32 :: v2
       ++ 44 :: 32 :: 34 :: flat_map escape_char k3 ++ 34 :: 58 :: 32 :: v3
       ++ [125])%N.
Proof.
  unfold encode_dict, encode_items, encode_basestring_ascii.
  cbn [app]. repeat (rewrite <- !app_assoc; cbn [app]). reflexivity.
Qed.

Lemma skip_whitespace_comma (s : pystr) :
  skip_whitespace (44%N :: s) = 44%N :: s.
Proof. reflexivity. Qed.

Lemma skip_whitespace_space_quote (s : pystr) :
  skip_whitespace (32%N :: 34%N :: s) = 34%N :: s.
Proof. reflexivity. Qed.

Lemma comma_ends_number : ends_number 44%N.
Proof. repeat split; discriminate. Qed.

(** The scanner reads back the three members that [wrapper_environment]
    encodes. *)
Lemma scan_once_configuration (fuel : nat) (args : arguments) :
  Forall unicode_scalar (args_cc args) ->
  Forall unicode_scalar (args_cxx args) ->
  scan_once (S (S (S (S (S fuel)))))
    (encode_dict
       [(lit "verbose", int_repr (args_verbose args));
        (lit "cc", encode_basestring_ascii (args_cc args));
        (lit "cxx", encode_basestring_ascii (args_cxx args))])
  = Some (PDict [(lit "verbose", PInt (args_verbose args));
                 (lit "cc", PStr (args_cc args));
                 (lit "cxx", PStr (args_cxx args))], []).
Proof.
  intros Hcc Hcxx. rewrite encode_dict_shape.
  cbn [scan_once]. cbn [N.eqb Pos.eqb]. cbn [skip_whitespace].
  change (is_whitespace 34) with false. cbn iota.
  rewrite (object_member (S (S fuel)) (lit "verbose")
             (int_repr (args_verbose args)) (PInt (args_verbose args)));
    [|apply ascii_literal_scalar
     |apply skip_whitespace_int_repr
     |apply scan_once_int_repr, comma_ends_number].
  rewrite skip_whitespace_comma, skip_whitespace_space_quote.
  rewrite (object_member (S fuel) (lit "cc")
             (encode_basestring_ascii (args_cc args)) (PStr (args_cc args)));
    [|apply ascii_literal_scalar
     |reflexivity
     |by apply scan_once_encoded_string].
  rewrite skip_whitespace_comma, skip_whitespace_space_quote.
  rewrite (object_member fuel (lit "cxx")
             (encode_basestring_ascii (args_cxx args)) (PStr (args_cxx args)));
    [|apply ascii_literal_scalar
     |reflexivity
     |by apply scan_once_encoded_string].
  reflexivity.
Qed.

(** C4.  For every configuration whose two paths are made of characters
    (code points that are not surrogates, which covers the printable ones,
    spaces and all of Unicode included), the parameters that the wrapper
    decodes from the environment that [wrapper_environment] encodes are the
    configuration again: the verbosity and the two paths come back as they
    went in. *)
Theorem wrapper_environment_round_trip (args : arguments) :
  Forall unicode_scalar (args_cc args) ->
  Forall unicode_scalar (args_cxx args) ->
  exists parameters,
    load_parameters (wrapper_environment args) = Return parameters
    /\ getitem parameters (lit "verbose") = Return (PInt (args_verbose args))
    /\ getitem parameters (lit "cc") = Return (PStr (args_cc args))
    /\ getitem parameters (lit "cxx") = Return (PStr (args_cxx args)).
Proof.
  intros Hcc Hcxx.
  exists (PDict [(lit "verbose", PInt (args_verbose args));
                 (lit "cc", PStr (args_cc args));
                 (lit "cxx", PStr (args_cxx args))]).
  split; [|by repeat split].
  unfold load_parameters, environ_item, wrapper_environment.
  rewrite lookup_singleton_eq. unfold loads.
  set (text := encode_dict _).
  assert (Hlen : (4 <= length text)%nat).
  { subst text. rewrite encode_dict_shape. simpl. lia. }
  assert (Hskip : skip_whitespace text = text).
  { subst text. by rewrite encode_dict_shape. }
  rewrite Hskip.
  destruct (length text) as [|[|[|[|fuel]]]]; [lia..|].
  cbn [Nat.add]. subst text. by rewrite scan_once_configuration.
Qed.
End ConfigurationCodecFacts.

Lemma wrapper_environment_round_trip_witness :
  exists parameters,
    Wrapper.load_parameters
      (Wrapper.wrapper_environment
         (Wrapper.Arguments 3 (lit "/opt/my tools/clang")
            [47; 26085; 26412; 35486; 47; 99; 43; 43; 128512]%N))
    = Return parameters
    /\ getitem parameters (lit "verbose") = Return (PInt 3)
    /\ getitem parameters (lit "cc") = Return (PStr (lit "/opt/my tools/clang"))
    /\ getitem parameters (lit "cxx")
       = Return (PStr [47; 26085; 26412; 35486; 47; 99; 43; 43; 128512]%N).
Proof.
  apply (wrapper_environment_round_trip
           (Wrapper.Arguments 3 (lit "/opt/my tools/clang")
              [47; 26085; 26412; 35486; 47; 99; 43; 43; 128512]%N)).
  - unfold lit. simpl. repeat constructor; unfold json.unicode_scalar; lia.
  - repeat constructor; unfold json.unicode_scalar; lia.
Defined.

(** * Further properties *)

(** ** Duplicate filter, further *)

Section DuplicateFilterMore.
Import DuplicateFilter.
Context {E H : Type} `{Countable H}.
Variable hash_function : E -> H.

Lemma feed_app (l1 l2 : list E) (state : gset H) :
  feed hash_function (l1 ++ l2) state
  = ((feed hash_function l1 state).1
       ++ (feed hash_function l2 (feed hash_function l1 state).2).1,
     (feed hash_function l2 (feed hash_function l1 state).2).2).
Proof.
  revert state. induction l1 as [|e l1 IH]; intros state.
  - simpl. by destruct (feed hash_function l2 state).
  - rewrite <- app_comm_cons, !feed_cons, IH. done.
Qed.

Lemma count_first_occurrences (entries : list E) (state : gset H) :
  (length (filter (fun b : bool => b = false)
             (feed hash_function entries state).1)
   + size state
   = size (feed hash_function entries state).2)%nat.
Proof.
  revert state. induction entries as [|e rest IH]; intros state; [done|].
  rewrite feed_cons. cbn [fst snd]. rewrite <- IH.
  unfold predicate.
  destruct (decide (hash_function e ∉ state)) as [Hnew|Hold]; cbn [fst snd].
  - rewrite filter_cons_True by done. rewrite size_union by set_solver.
    rewrite size_singleton. simpl. lia.
  - rewrite filter_cons_False by done. lia.
Qed.

(** X1.  After any sequence of calls, the set kept by the predicate holds
    exactly the hashes of the entries it was given: a value is in the set
    if and only if some entry that was fed hashes to it. *)
Theorem duplicate_check_state_is_hashes_seen (entries : list E) (x : H) :
  x ∈ (duplicate_check hash_function entries).2
  <-> exists entry, entry ∈ entries /\ hash_function entry = x.
Proof.
  unfold duplicate_check. rewrite feed_state. unfold hashes.
  rewrite elem_of_union, elem_of_list_to_set, list_elem_of_fmap. split.
  - intros [Hempty|(entry & -> & Hin)]; [set_solver|]. by exists entry.
  - intros (entry & Hin & <-). right. by exists entry.
Qed.

(** X2.  The number of [False] answers over a sequence of calls is the
    number of distinct hashes among the entries, that is the size of the
    set the predicate ends with. *)
Theorem duplicate_check_counts_distinct_hashes (entries : list E) :
  length (filter (fun b : bool => b = false)
            (duplicate_check hash_function entries).1)
  = size (duplicate_check hash_function entries).2.
Proof.
  unfold duplicate_check.
  rewrite <- (count_first_occurrences entries ∅), size_empty. lia.
Qed.

(** X3.  The entries answered [False] are one representative for each
    hash: two of them at different positions never have the same hash, and
    every entry has the hash of an entry answered [False] at its own
    position or before. *)
Theorem duplicate_check_keeps_one_per_hash (entries : list E) :
  (forall (i j : nat) (ei ej : E),
      (i < j)%nat ->
      entries !! i = Some ei -> entries !! j = Some ej ->
      (duplicate_check hash_function entries).1 !! i = Some false ->
      (duplicate_check hash_function entries).1 !! j = Some false ->
      hash_function ei <> hash_function ej)
  /\ (forall (j : nat) (ej : E),
         entries !! j = Some ej ->
         exists (i : nat) (ei : E),
           (i <= j)%nat /\ entries !! i = Some ei
           /\ (duplicate_check hash_function entries).1 !! i = Some false
           /\ hash_function ei = hash_function ej).
Proof.
  unfold duplicate_check. split.
  - intros i j ei ej Hlt Hi Hj _ Hfj Heq.
    rewrite (feed_lookup _ _ _ _ _ Hj) in Hfj. injection Hfj as Hfj.
    apply bool_decide_eq_false in Hfj. apply Hfj.
    apply elem_of_union. right. apply elem_of_hashes_take.
    by exists i, ei.
  - intros j. induction (lt_wf j) as [j _ IH]. intros ej Hj.
    pose proof (feed_lookup hash_function entries ∅ j ej Hj) as Hres.
    destruct (decide (hash_function ej
                        ∈ (∅ : gset H)
                            ∪ hashes hash_function (take j entries)))
      as [Hseen|Hnew].
    + apply elem_of_union in Hseen as [Hseen|Hseen]; [set_solver|].
      apply elem_of_hashes_take in Hseen as (k & ek & Hk & Hek & Hhash).
      destruct (IH k Hk ek Hek) as (i & ei & Hi & Hei & Hfalse & Hh).
      exists i, ei. split; [lia|]. split; [done|]. split; [done|].
      congruence.
    + exists j, ej. split; [lia|]. split; [done|]. split; [|done].
      rewrite Hres. f_equal. by apply bool_decide_eq_false.
Qed.

(** X4.  Feeding one sequence and then another to the same predicate is
    feeding their concatenation: the answers are the answers to the first
    followed by the answers to the second from the set the first left. *)
Theorem duplicate_check_continues (l1 l2 : list E) :
  (duplicate_check hash_function (l1 ++ l2)).1
  = (duplicate_check hash_function l1).1
      ++ (feed hash_function l2 (duplicate_check hash_function l1).2).1
  /\ (duplicate_check hash_function (l1 ++ l2)).2
     = (feed hash_function l2 (duplicate_check hash_function l1).2).2
  /\ (forall (i : nat) (entry : E),
         l2 !! i = Some entry ->
         entry ∈ l1 ->
         (duplicate_check hash_function (l1 ++ l2)).1 !! (length l1 + i)%nat
         = Some true).
Proof.
  unfold duplicate_check. rewrite feed_app. split; [done|]. split; [done|].
  intros i entry Hi Hin. cbn [fst].
  rewrite lookup_app_r by (rewrite feed_length; lia).
  rewrite feed_length. replace (length l1 + i - length l1)%nat with i by lia.
  rewrite (feed_lookup _ _ _ _ _ Hi). f_equal. apply bool_decide_eq_true.
  apply elem_of_union. left. rewrite feed_state. apply elem_of_union. right.
  unfold hashes. rewrite elem_of_list_to_set, list_elem_of_fmap.
  by exists entry.
Qed.
End DuplicateFilterMore.

Lemma duplicate_check_keeps_one_per_hash_witness :
  exists (i : nat) (ei : nat),
    (i <= 2)%nat /\ [7; 8; 17]%nat !! i = Some ei
    /\ (DuplicateFilter.duplicate_check (fun n : nat => n mod 10)%nat
          [7; 8; 17]%nat).1 !! i = Some false
    /\ (ei mod 10 = 17 mod 10)%nat.
Proof.
  apply (proj2 (duplicate_check_keeps_one_per_hash
                  (fun n : nat => n mod 10)%nat [7; 8; 17]%nat) 2%nat 17%nat).
  reflexivity.
Defined.

Lemma duplicate_check_continues_witness :
  (DuplicateFilter.duplicate_check (fun n : nat => n) ([1; 2] ++ [3; 1])%nat).1
    !! (length [1; 2]%nat + 1)%nat
  = Some true.
Proof.
  apply (proj2 (proj2 (duplicate_check_continues (fun n : nat => n)
                         [1; 2]%nat [3; 1]%nat)) 1%nat 1%nat).
  - reflexivity.
  - by left.
Defined.

(** ** Verbosity, further *)

Section VerbosityMore.
Import logging Verbosity.

Lemma reconfigure_logging_world (verbose_level : Z) (w : world) :
  verbose_level <> 0 ->
  reconfigure_logging verbose_level w
  = (Return tt,
     World (Logger (WARNING - Z.min WARNING (10 * verbose_level))
                   (name (root w))
                   [StreamHandler stdout
                      (if verbose_level <=? 3 then fmt_plain
                       else fmt_funcName)])
           (disable w) (events w)).
Proof.
  intros Hnz. unfold reconfigure_logging.
  destruct (Z.eqb_spec verbose_level 0) as [->|_]; [done|]. reflexivity.
Qed.

(** X5.  The last call decides: reconfiguring at one level and then at a
    second level that is not 0 leaves the process as the second call alone
    would, and a second call at level 0 leaves what the first call made. *)
Theorem reconfigure_logging_last_call_wins (first second : Z) (w : world) :
  (second <> 0 ->
   (reconfigure_logging first ;;; reconfigure_logging second) w
   = reconfigure_logging second w)
  /\ (reconfigure_logging first ;;; reconfigure_logging 0) w
     = reconfigure_logging first w.
Proof.
  split.
  - intros Hnz. unfold bind.
    destruct (Z.eq_dec first 0) as [->|Hfirst]; [done|].
    rewrite (reconfigure_logging_world first) by done.
    by rewrite !(reconfigure_logging_world second) by done.
  - unfold bind. by destruct (reconfigure_logging first w) as [[[]|e] w'].
Qed.

(** X6.  Over the levels other than 0 the threshold never rises with the
    level; it is [NOTSET] from level 3 on, lets [DEBUG] messages through
    exactly from level 2 on, and for a negative level it is above
    [WARNING]. *)
Theorem reconfigure_logging_threshold_is_monotone (a b : Z) (w : world) :
  a <> 0 -> b <> 0 -> a <= b ->
  level (root (snd (reconfigure_logging b w)))
  <= level (root (snd (reconfigure_logging a w)))
  /\ (3 <= b -> level (root (snd (reconfigure_logging b w))) = NOTSET)
  /\ (level (root (snd (reconfigure_logging b w))) <= DEBUG <-> 2 <= b)
  /\ (a < 0 -> WARNING < level (root (snd (reconfigure_logging a w)))).
Proof.
  intros Ha Hb Hab.
  rewrite (reconfigure_logging_world a), (reconfigure_logging_world b) by done.
  cbn [snd root level]. unfold WARNING, NOTSET, DEBUG. lia.
Qed.
End VerbosityMore.

Lemma reconfigure_logging_last_call_wins_witness :
  (Verbosity.reconfigure_logging 1 ;;; Verbosity.reconfigure_logging 4)
    fresh_world
  = Verbosity.reconfigure_logging 4 fresh_world.
Proof.
  apply (proj1 (reconfigure_logging_last_call_wins 1 4 fresh_world)).
  discriminate.
Defined.

Lemma reconfigure_logging_threshold_is_monotone_witness :
  logging.level (root (snd (Verbosity.reconfigure_logging 2 fresh_world)))
  <= logging.level (root (snd (Verbosity.reconfigure_logging (-1) fresh_world)))
  /\ (3 <= 2 ->
      logging.level (root (snd (Verbosity.reconfigure_logging 2 fresh_world)))
      = logging.NOTSET)
  /\ (logging.level (root (snd (Verbosity.reconfigure_logging 2 fresh_world)))
      <= logging.DEBUG <-> 2 <= 2)
  /\ (-1 < 0 ->
      logging.WARNING
      < logging.level
          (root (snd (Verbosity.reconfigure_logging (-1) fresh_world)))).
Proof.
  apply (reconfigure_logging_threshold_is_monotone (-1) 2 fresh_world); lia.
Defined.

(** ** Process entry guard, further *)

Section EntryGuardMore.
Import logging logging_calls EntryGuard.
Context {R : Type}.
Variable int_value : Z -> R.

(** The [except Exception] clause of the guard, run in a state [w2]. *)
Lemma internal_error_clause (w2 : world) :
  exists w3,
    (logging_calls.exception (lit "Internal error.") ;;;
     verbose <- isEnabledFor DEBUG ;;
     (if verbose : bool
      then error (Text report_bug)
      else error (Text turn_on_verbose)) ;;;
     ret (int_value 64)) w2
    = (Return (int_value 64), w3)
    /\ events w3
       = events w2
           ++ [LogCall ERROR (Text (lit "Internal error.")) true;
               LogCall ERROR
                 (Text (if (disable w2 <? DEBUG) && (level (root w2) <=? DEBUG)
                        then report_bug else turn_on_verbose))
                 false].
Proof.
  unfold logging_calls.exception, error, isEnabledFor, bind.
  destruct (log_events ERROR (Text (lit "Internal error.")) true w2)
    as (w' & -> & Hev & Hlv & Hdis).
  rewrite Hlv, Hdis.
  destruct ((disable w2 <? DEBUG) && (level (root w2) <=? DEBUG)).
  - destruct (log_events ERROR (Text report_bug) false w')
      as (w'' & -> & Hev' & _).
    exists w''. split; [done|]. by rewrite Hev', Hev, <- app_assoc.
  - destruct (log_events ERROR (Text turn_on_verbose) false w')
      as (w'' & -> & Hev' & _).
    exists w''. split; [done|]. by rewrite Hev', Hev, <- app_assoc.
Qed.

Lemma interrupt_clause (w2 : world) :
  exists w3,
    (warning (lit "Keyboard interrupt") ;;; ret (int_value 130)) w2
    = (Return (int_value 130), w3).
Proof.
  unfold warning, bind.
  destruct (log_events WARNING (Text (lit "Keyboard interrupt")) false w2)
    as (w' & -> & _). eauto.
Qed.

(** X7.  No exception that is an instance of [Exception], and no
    [KeyboardInterrupt], ever leaves the guard: whatever the arguments and
    the function, an exception that reaches the caller is one that derives
    from [BaseException] only. *)
Theorem command_entry_point_contains_exceptions
    (argv : list pystr) (function : M R) (w w' : world) e :
  command_entry_point int_value argv function w = (Raise e, w') ->
  is_Exception e = false /\ is_KeyboardInterrupt e = false.
Proof.
  unfold command_entry_point, wrapper, try_finally, try_except, shutdown,
    record_event.
  destruct ((housekeeping argv;;; function) w) as [[v|e0] w1].
  - discriminate.
  - destruct (is_KeyboardInterrupt e0) eqn:Hki.
    + destruct (interrupt_clause w1) as [w3 ->]. discriminate.
    + destruct (is_Exception e0) eqn:Hex.
      * destruct (internal_error_clause w1) as (w3 & -> & _). discriminate.
      * intros Heq. injection Heq as <- _. done.
Qed.

(** X8.  On every way out of the guard, the ways that raise and the
    failure of the guard's own housekeeping included, the last thing
    recorded is [logging.shutdown()]. *)
Theorem command_entry_point_always_shuts_down
    (argv : list pystr) (function : M R) (w : world) :
  exists before,
    events (snd (command_entry_point int_value argv function w))
    = before ++ [LoggingShutdown].
Proof.
  unfold command_entry_point, wrapper, try_finally, shutdown, record_event.
  destruct (try_except _ _ w) as [o w1]. cbn [snd events]. eauto.
Qed.

(** X9.  With an empty [sys.argv] the housekeeping fails on [argv[0]]:
    the guard returns 64 and the decorated function is not run, so that two
    functions give the same outcome and the same state. *)
Theorem command_entry_point_without_argv (function other : M R) (w : world) :
  fst (command_entry_point int_value [] function w) = Return (int_value 64)
  /\ command_entry_point int_value [] function w
     = command_entry_point int_value [] other w.
Proof.
  unfold command_entry_point, wrapper, try_finally, try_except, housekeeping,
    bind, lift, item0.
  destruct (basicConfig (lit "%(name)s: %(message)s") (Some WARNING) stdout w)
    as [[[]|e] w1] eqn:Hb.
  - cbn [is_KeyboardInterrupt is_Exception].
    destruct (internal_error_clause w1) as (w3 & Hclause & _).
    unfold bind in Hclause. rewrite Hclause. done.
  - unfold basicConfig, bind, get_root, set_root, ret in Hb.
    destruct (handlers (root w)); discriminate.
Qed.

(** X10.  The housekeeping names the root logger after the basename of
    [argv[0]] and configures it only if it has no handler: a logger that
    already has handlers keeps them and keeps its level, a logger without
    gets the [WARNING] level and one handler on stdout. *)
Theorem housekeeping_respects_configuration
    (argv0 : pystr) (rest : list pystr) (w : world) :
  exists w1,
    housekeeping (argv0 :: rest) w = (Return tt, w1)
    /\ name (root w1) = basename argv0
    /\ disable w1 = disable w /\ events w1 = events w
    /\ (handlers (root w) <> [] ->
        handlers (root w1) = handlers (root w)
        /\ level (root w1) = level (root w))
    /\ (handlers (root w) = [] ->
        handlers (root w1)
        = [StreamHandler stdout (lit "%(name)s: %(message)s")]
        /\ level (root w1) = WARNING).
Proof.
  unfold housekeeping, basicConfig, set_name, bind, get_root, set_root, lift,
    ret.
  destruct (handlers (root w)) eqn:Hh; cbn -[lit basename].
  - eexists. split; [done|]. cbn -[lit basename]. repeat split; done.
  - eexists. split; [done|]. cbn -[lit basename]. rewrite Hh.
    repeat split; done.
Qed.
End EntryGuardMore.

Lemma command_entry_point_contains_exceptions_witness :
  is_Exception GeneratorExit = false
  /\ is_KeyboardInterrupt GeneratorExit = false.
Proof.
  apply (command_entry_point_contains_exceptions (fun z : Z => z)
           [lit "scan-build"] (raise GeneratorExit) fresh_world
           (snd (EntryGuard.command_entry_point (fun z : Z => z)
                   [lit "scan-build"] (raise GeneratorExit) fresh_world))
           GeneratorExit).
  reflexivity.
Defined.

Section GuardHintFacts.
Import logging EntryGuard.
Context {R : Type}.
Variable int_value : Z -> R.

(** X11.  A command that has reconfigured the logging at a level other
    than 0 and then fails with an instance of [Exception]: the guard returns
    64, and after ["Internal error."] it asks for a bug report when the
    level was 2 or more (debug messages are on), and for a verbose rerun
    when it was less.  (The [logging.disable] threshold is below [DEBUG], as
    it is unless the program raises it.) *)
Theorem guard_hint_follows_verbosity
    (argv0 : pystr) (rest : list pystr) (verbose_level : Z) e (w : world) :
  verbose_level <> 0 ->
  disable w < DEBUG ->
  is_KeyboardInterrupt e = false ->
  is_Exception e = true ->
  exists w3,
    command_entry_point int_value (argv0 :: rest)
      (Verbosity.reconfigure_logging verbose_level ;;; raise e) w
    = (Return (int_value 64), w3)
    /\ events w3
       = events w
           ++ [LogCall ERROR (Text (lit "Internal error.")) true;
               LogCall ERROR
                 (Text (if 2 <=? verbose_level then report_bug
                        else turn_on_verbose))
                 false;
               LoggingShutdown].
Proof.
  intros Hnz Hdis Hki Hex.
  destruct (housekeeping_respects_configuration argv0 rest w)
    as (w1 & Hk & _ & Hdis1 & Hev1 & _).
  unfold command_entry_point, wrapper, try_finally, try_except.
  unfold bind at 1. rewrite Hk.
  unfold bind at 1. rewrite (reconfigure_logging_world verbose_level) by done.
  unfold raise at 1. rewrite Hki, Hex.
  match goal with
  | |- context [(_ ;;; _) ?w2] =>
      destruct (internal_error_clause int_value w2) as (w3 & -> & Hev3)
  end.
  unfold logging_calls.shutdown, record_event. eexists. split; [done|].
  cbn [events]. rewrite Hev3. cbn [events disable root level].
  rewrite Hdis1, Hev1, <- app_assoc. cbn [app].
  replace (disable w <? DEBUG) with true by (symmetry; by apply Z.ltb_lt).
  replace (WARNING - Z.min WARNING (10 * verbose_level) <=? DEBUG)
    with (2 <=? verbose_level); [done|].
  unfold WARNING, DEBUG.
  destruct (Z.leb_spec 2 verbose_level); symmetry;
    [apply Z.leb_le|apply Z.leb_gt]; lia.
Qed.
End GuardHintFacts.

Lemma guard_hint_follows_verbosity_witness :
  exists w3,
    EntryGuard.command_entry_point (fun z : Z => z)
      [lit "scan-build"; lit "-vv"]
      (Verbosity.reconfigure_logging 2 ;;; raise TypeError) fresh_world
    = (Return 64, w3)
    /\ events w3
       = events fresh_world
           ++ [LogCall logging.ERROR (logging.Text (lit "Internal error."))
                 true;
               LogCall logging.ERROR
                 (logging.Text (if 2 <=? 2 then EntryGuard.report_bug
                                else EntryGuard.turn_on_verbose))
                 false;
               LoggingShutdown].
Proof.
  apply (guard_hint_follows_verbosity (fun z : Z => z) (lit "scan-build")
           [lit "-vv"] 2 TypeError fresh_world); [lia|reflexivity..].
Defined.

(** ** Compiler wrapper, further *)

Section WrapperMore.
Import logging Wrapper.
Context {R : Type}.
Variable environ : gmap pystr pystr.
Variable argv : list pystr.
Variable spawn : list pystr -> option pystr -> outcome (Z * list Byte.byte).
Variable decode : pyval -> outcome (list pystr).
Variable reconfigure_logging_float : pystr -> M unit.

Local Abbreviation compilation :=
  (Wrapper.compilation environ argv spawn decode reconfigure_logging_float).
Local Abbreviation wrapper_entry_point :=
  (Wrapper.wrapper_entry_point (R:=R) environ argv spawn decode
     reconfigure_logging_float).

(** X12.  What the reporting function is given: once the compilation step
    is through and the parameters have a [cc] and a [cxx], the function is
    called in the state the compilation left, with the compiler that was
    chosen, the command that was run, its exit status and the two
    configured compilers.  If the function returns, the wrapper ends in the
    state the function left; if it raises, one error with the traceback is
    logged on top of it.  The exit status is returned either way. *)
Theorem wrapper_reports_the_run
    (function : report -> M R)
    (parameters compiler cc_path cxx_path : pyval) (command : list pystr)
    (status : Z) (w w1 : world) :
  compilation w = (Return (parameters, compiler, command, status), w1) ->
  getitem parameters (lit "cc") = Return cc_path ->
  getitem parameters (lit "cxx") = Return cxx_path ->
  (forall v w2,
      function (Report compiler command status cc_path cxx_path) w1
      = (Return v, w2) ->
      wrapper_entry_point function w = (Return status, w2))
  /\ (forall e w2,
         function (Report compiler command status cc_path cxx_path) w1
         = (Raise e, w2) ->
         exists w3,
           wrapper_entry_point function w = (Return status, w3)
           /\ events w3
              = events w2
                  ++ [LogCall ERROR
                        (Text (lit "Compiler wrapper failed complete.")) true]).
Proof.
  intros Hc Hcc Hcxx.
  unfold Wrapper.wrapper_entry_point, wrapper, reporting, try_except, bind,
    lift, ret.
  rewrite Hc, Hcc, Hcxx. split.
  - intros v w2 ->. reflexivity.
  - intros e w2 ->.
    destruct (failed_report_logged w2) as (w3 & -> & Hev). by exists w3.
Qed.

(** X13.  Parameters that lack [cc] or [cxx]: the compilation is done all
    the same and its exit status returned, but the reporting function is
    never called; the [KeyError] of the lookup is logged in its place. *)
Theorem wrapper_skips_report_without_paths
    (function : report -> M R)
    (parameters compiler : pyval) (command : list pystr)
    (status : Z) (w w1 : world) e :
  compilation w = (Return (parameters, compiler, command, status), w1) ->
  (getitem parameters (lit "cc") = Raise e
   \/ (exists cc_path, getitem parameters (lit "cc") = Return cc_path)
      /\ getitem parameters (lit "cxx") = Raise e) ->
  exists w3,
    (forall other : report -> M R,
        wrapper_entry_point other w = (Return status, w3))
    /\ events w3
       = events w1
           ++ [LogCall ERROR (Text (lit "Compiler wrapper failed complete."))
                 true].
Proof.
  intros Hc Hmissing.
  destruct (failed_report_logged w1) as (w3 & Hlog & Hev).
  exists w3. split; [|done]. intros other.
  unfold Wrapper.wrapper_entry_point, wrapper, reporting, try_except, bind,
    lift, ret.
  rewrite Hc.
  destruct Hmissing as [->|[[cc_path ->] ->]]; by rewrite Hlog.
Qed.

(** X14.  Parameters that decode but have no [verbose] entry, or are not
    an object at all: the wrapper raises the error of the lookup before it
    touches the logging or starts a process, and the reporting function
    does not run. *)
Theorem wrapper_needs_verbose
    (function : report -> M R) (parameters : pyval) (w : world) e :
  load_parameters environ = Return parameters ->
  getitem parameters (lit "verbose") = Raise e ->
  wrapper_entry_point function w = (Raise e, w).
Proof.
  intros Hload Hverbose. apply wrapper_compilation_raises.
  unfold Wrapper.compilation, bind, lift. by rewrite Hload, Hverbose.
Qed.
End WrapperMore.

(** X15.  A compiler that cannot be started: the exception of
    [subprocess.call] leaves the wrapper as it is, after the one attempt to
    start the command, and the reporting function does not run. *)
Theorem wrapper_start_failure_is_raised {R : Type}
    (environ : gmap pystr pystr)
    (spawn : list pystr -> option pystr -> outcome (Z * list Byte.byte))
    (decode : pyval -> outcome (list pystr))
    (reconfigure_logging_float : pystr -> M unit)
    (function : Wrapper.report -> M R)
    (argv0 : pystr) (rest : list pystr)
    (parameters compiler : pyval) (verbose_level : Z) (words : list pystr)
    (w : world) (e : exception) :
  Wrapper.load_parameters environ = Return parameters ->
  getitem parameters (lit "verbose") = Return (PInt verbose_level) ->
  Wrapper.real_compiler parameters (basename argv0) = Return compiler ->
  decode compiler = Return words ->
  spawn (words ++ rest) None = Raise e ->
  exists w1,
    Wrapper.wrapper_entry_point environ (argv0 :: rest) spawn decode
      reconfigure_logging_float function w
    = (Raise e, w1)
    /\ events w1
       = events w
           ++ [LogCall logging.DEBUG (logging.Text (lit "compilation: %s"))
                 false;
               Exec (words ++ rest) None].
Proof.
  intros Hload Hverbose Hcompiler Hwords Hspawn.
  destruct (compilation_runs environ spawn decode reconfigure_logging_float
              argv0 rest parameters compiler verbose_level words w
              Hload Hverbose Hcompiler Hwords) as (w1 & Hev & Hrun).
  rewrite Hspawn in Hrun. exists w1. split; [|done].
  by apply wrapper_compilation_raises.
Qed.

Lemma wrapper_reports_the_run_witness :
  exists w3,
    Wrapper.wrapper_entry_point (Wrapper.wrapper_environment Samples.args)
      Samples.argv Samples.failing_compiler Wrapper.shell_decode
      Samples.no_float Samples.failing_report fresh_world
    = (Return 1, w3)
    /\ events w3
       = events (snd (Wrapper.compilation
                        (Wrapper.wrapper_environment Samples.args)
                        Samples.argv Samples.failing_compiler
                        Wrapper.shell_decode Samples.no_float fresh_world))
           ++ [LogCall logging.ERROR
                 (logging.Text (lit "Compiler wrapper failed complete."))
                 true].
Proof.
  eapply (proj2 (wrapper_reports_the_run
                   (Wrapper.wrapper_environment Samples.args) Samples.argv
                   Samples.failing_compiler Wrapper.shell_decode
                   Samples.no_float Samples.failing_report
                   _ _ _ _ _ 1 fresh_world _ eq_refl eq_refl eq_refl)).
  reflexivity.
Defined.

Lemma wrapper_skips_report_without_paths_witness :
  exists w3,
    (forall other : Wrapper.report -> M unit,
        Wrapper.wrapper_entry_point
          ({[ Wrapper.ENVIRONMENT_KEY := Samples.parameters_without_cxx ]})
          [lit "intercept-cc"; lit "-c"; lit "a.c"] Samples.failing_compiler
          Wrapper.shell_decode Samples.no_float other fresh_world
        = (Return 1, w3))
    /\ events w3
       = events (snd (Wrapper.compilation
                        ({[ Wrapper.ENVIRONMENT_KEY :=
                              Samples.parameters_without_cxx ]})
                        [lit "intercept-cc"; lit "-c"; lit "a.c"]
                        Samples.failing_compiler Wrapper.shell_decode
                        Samples.no_float fresh_world))
           ++ [LogCall logging.ERROR
                 (logging.Text (lit "Compiler wrapper failed complete."))
                 true].
Proof.
  eapply (wrapper_skips_report_without_paths
            ({[ Wrapper.ENVIRONMENT_KEY := Samples.parameters_without_cxx ]})
            [lit "intercept-cc"; lit "-c"; lit "a.c"] Samples.failing_compiler
            Wrapper.shell_decode Samples.no_float Samples.failing_report
            _ _ _ 1 fresh_world _ (KeyError (lit "cxx"))).
  - vm_compute. reflexivity.
  - right. split; [eexists; reflexivity|reflexivity].
Defined.

Lemma wrapper_needs_verbose_witness :
  Wrapper.wrapper_entry_point ({[ Wrapper.ENVIRONMENT_KEY := lit "{}" ]})
    Samples.argv Samples.failing_compiler Wrapper.shell_decode
    Samples.no_float Samples.failing_report fresh_world
  = (Raise (KeyError (lit "verbose")), fresh_world).
Proof.
  apply (wrapper_needs_verbose ({[ Wrapper.ENVIRONMENT_KEY := lit "{}" ]})
           Samples.argv Samples.failing_compiler Wrapper.shell_decode
           Samples.no_float Samples.failing_report (PDict []) fresh_world
           (KeyError (lit "verbose"))); reflexivity.
Defined.

Lemma wrapper_start_failure_is_raised_witness :
  exists w1,
    Wrapper.wrapper_entry_point (Wrapper.wrapper_environment Samples.args)
      (lit "intercept-cc" :: [lit "-c"; lit "a.c"])
      (fun _ _ => Raise OSError) Wrapper.shell_decode Samples.no_float
      Samples.failing_report fresh_world
    = (Raise OSError, w1)
    /\ events w1
       = events fresh_world
           ++ [LogCall logging.DEBUG (logging.Text (lit "compilation: %s"))
                 false;
               Exec ([lit "/usr/bin/clang"] ++ [lit "-c"; lit "a.c"]) None].
Proof.
  apply (wrapper_start_failure_is_raised
           (Wrapper.wrapper_environment Samples.args)
           (fun _ _ => Raise OSError) Wrapper.shell_decode Samples.no_float
           Samples.failing_report (lit "intercept-cc") [lit "-c"; lit "a.c"]
           (PDict [(lit "verbose", PInt 2);
                   (lit "cc", PStr (lit "/usr/bin/clang"));
                   (lit "cxx", PStr (lit "/usr/bin/clang++"))])
           (PStr (lit "/usr/bin/clang")) 2 [lit "/usr/bin/clang"]
           fresh_world OSError); reflexivity.
Defined.

(** ** The guard around the wrapper *)

Section GuardedWrapperFacts.
Import logging Wrapper.
Variable environ : gmap pystr pystr.
Variable spawn : list pystr -> option pystr -> outcome (Z * list Byte.byte).
Variable decode : pyval -> outcome (list pystr).
Variable reconfigure_logging_float : pystr -> M unit.
Context {R : Type}.

(** The wrapper as a command: [command_entry_point] applied to
    [wrapper_entry_point(function)], both reading the same [sys.argv]. *)
Local Abbreviation guarded argv function :=
  (EntryGuard.command_entry_point (fun z : Z => z) argv
     (Wrapper.wrapper_entry_point (R:=R) environ argv spawn decode
        reconfigure_logging_float function)).

(** X16.  Under the guard a configuration that is absent or does not parse
    ends the wrapper with exit code 64: the error is logged with a hint, the
    logging is shut down, and nothing else has happened, so that no process
    was started. *)
Theorem guarded_wrapper_configuration_error
    (argv0 : pystr) (rest : list pystr) (function : report -> M R)
    (w : world) :
  (environ !! ENVIRONMENT_KEY = None
   \/ exists text, environ !! ENVIRONMENT_KEY = Some text
                   /\ json.loads text = Raise JSONDecodeError) ->
  exists w3 hint,
    guarded (argv0 :: rest) function w = (Return 64, w3)
    /\ events w3
       = events w
           ++ [LogCall ERROR (Text (lit "Internal error.")) true;
               LogCall ERROR (Text hint) false;
               LoggingShutdown].
Proof.
  intros Hbad.
  assert (Hload : exists e, is_Exception e = true
                            /\ is_KeyboardInterrupt e = false
                            /\ load_parameters environ = Raise e).
  { unfold load_parameters, environ_item.
    destruct Hbad as [->|(text & -> & ->)];
      [exists (KeyError ENVIRONMENT_KEY)|exists JSONDecodeError]; done. }
  destruct Hload as (e & Hex & Hki & Hload).
  destruct (housekeeping_respects_configuration argv0 rest w)
    as (w1 & Hk & _ & _ & Hev1 & _).
  assert (Hw : Wrapper.wrapper_entry_point (R:=R) environ (argv0 :: rest)
                 spawn decode reconfigure_logging_float function w1
               = (Raise e, w1)).
  { apply wrapper_compilation_raises.
    unfold compilation, bind, lift. by rewrite Hload. }
  unfold EntryGuard.command_entry_point, EntryGuard.wrapper, try_finally,
    try_except.
  unfold bind at 1. rewrite Hk, Hw, Hki, Hex.
  destruct (internal_error_clause (fun z : Z => z) w1) as (w3 & -> & Hev3).
  unfold logging_calls.shutdown, record_event.
  eexists. eexists. split; [done|].
  cbn [events]. by rewrite Hev3, Hev1, <- app_assoc.
Qed.

(** X17.  Under the guard the exit status of the real compiler comes out
    as it is, whatever it is and whatever the reporting function does: the
    guard adds no code of its own to a wrapper that has compiled, and a
    compiler status of 64 or 130 is handed on like any other. *)
Theorem guarded_wrapper_passes_status
    (argv : list pystr) (function : report -> M R)
    (parameters compiler : pyval) (command : list pystr) (status : Z)
    (w w1 w2 : world) :
  EntryGuard.housekeeping argv w = (Return tt, w1) ->
  compilation environ argv spawn decode reconfigure_logging_float w1
  = (Return (parameters, compiler, command, status), w2) ->
  fst (guarded argv function w) = Return status.
Proof.
  intros Hk Hc.
  destruct (wrapper_after_compilation environ argv spawn decode
              reconfigure_logging_float function parameters compiler command
              status w1 w2 Hc) as (w3 & Hw).
  unfold EntryGuard.command_entry_point, EntryGuard.wrapper, try_finally,
    try_except.
  unfold bind at 1. rewrite Hk. unfold Wrapper.wrapper_entry_point in Hw.
  unfold Wrapper.wrapper_entry_point. rewrite Hw. reflexivity.
Qed.
End GuardedWrapperFacts.

Lemma guarded_wrapper_configuration_error_witness :
  exists w3 hint,
    EntryGuard.command_entry_point (fun z : Z => z) Samples.argv
      (Wrapper.wrapper_entry_point ∅ Samples.argv Samples.failing_compiler
         Wrapper.shell_decode Samples.no_float Samples.failing_report)
      fresh_world
    = (Return 64, w3)
    /\ events w3
       = events fresh_world
           ++ [LogCall logging.ERROR (logging.Text (lit "Internal error."))
                 true;
               LogCall logging.ERROR (logging.Text hint) false;
               LoggingShutdown].
Proof.
  apply (guarded_wrapper_configuration_error ∅ Samples.failing_compiler
           Wrapper.shell_decode Samples.no_float
           (lit "/usr/lib/wrappers/intercept-c++")
           [lit "-c"; lit "a b.cc"; lit "-o"; lit "a.o"]
           Samples.failing_report fresh_world).
  left. reflexivity.
Defined.

Lemma guarded_wrapper_passes_status_witness :
  fst (EntryGuard.command_entry_point (fun z : Z => z) Samples.argv
         (Wrapper.wrapper_entry_point
            (Wrapper.wrapper_environment Samples.args) Samples.argv
            (fun _ _ => Return (64, [])) Wrapper.shell_decode
            Samples.no_float Samples.failing_report)
         fresh_world)
  = Return 64.
Proof.
  eapply (guarded_wrapper_passes_status
            (Wrapper.wrapper_environment Samples.args)
            (fun _ _ => Return (64, [])) Wrapper.shell_decode
            Samples.no_float Samples.argv Samples.failing_report
            _ _ _ 64 fresh_world _ _).
  - reflexivity.
  - vm_compute. reflexivity.
Defined.

(** ** From the encoded configuration to the command *)

Section ConfiguredWrapperFacts.
Import json Wrapper.

Lemma load_parameters_encoded (args : arguments) :
  Forall unicode_scalar (args_cc args) ->
  Forall unicode_scalar (args_cxx args) ->
  load_parameters (wrapper_environment args)
  = Return (PDict [(lit "verbose", PInt (args_verbose args));
                   (lit "cc", PStr (args_cc args));
                   (lit "cxx", PStr (args_cxx args))]).
Proof.
  intros Hcc Hcxx.
  unfold load_parameters, environ_item, wrapper_environment.
  rewrite lookup_singleton_eq. unfold loads.
  set (text := encode_dict _).
  assert (Hlen : (4 <= length text)%nat).
  { subst text. rewrite encode_dict_shape. simpl. lia. }
  assert (Hskip : skip_whitespace text = text).
  { subst text. by rewrite encode_dict_shape. }
  rewrite Hskip.
  destruct (length text) as [|[|[|[|fuel]]]]; [lia..|].
  cbn [Nat.add]. subst text. by rewrite scan_once_configuration.
Qed.

(** X18.  From the parent to the child: a wrapper that finds in its
    environment the value made by [wrapper_environment] from a
    configuration, and is invoked under some name with some arguments,
    starts one process, made of the words of the configured C++ compiler if
    the name has the C++ shape and of the configured C compiler if not,
    followed by its own arguments.  If the process cannot be started the
    wrapper raises that exception right after the attempt.  If it exits
    with a status, the compilation step ends with that one process between
    its two debug messages; the reporting function is called in that state
    with the chosen compiler, the command, the status and the two
    configured compilers; the wrapper returns the status in the state the
    function left, with one logged error on top if the function raised. *)
Theorem configured_wrapper_runs_configured_compiler {R : Type}
    (args : arguments)
    (spawn : list pystr -> option pystr -> outcome (Z * list Byte.byte))
    (decode : pyval -> outcome (list pystr))
    (reconfigure_logging_float : pystr -> M unit)
    (function : report -> M R)
    (argv0 : pystr) (rest : list pystr) (words : list pystr) (w : world) :
  Forall unicode_scalar (args_cc args) ->
  Forall unicode_scalar (args_cxx args) ->
  decode (PStr (if is_cxx (basename argv0) then args_cxx args
                else args_cc args))
  = Return words ->
  match spawn (words ++ rest) None with
  | Return (status, _) =>
      exists w2 w3,
        compilation (wrapper_environment args) (argv0 :: rest) spawn decode
          reconfigure_logging_float w
        = (Return (PDict [(lit "verbose", PInt (args_verbose args));
                          (lit "cc", PStr (args_cc args));
                          (lit "cxx", PStr (args_cxx args))],
                   PStr (if is_cxx (basename argv0) then args_cxx args
                         else args_cc args),
                   words ++ rest, status), w2)
        /\ events w2
           = events w
               ++ [LogCall logging.DEBUG (logging.Text (lit "compilation: %s"))
                     false;
                   Exec (words ++ rest) None;
                   LogCall logging.DEBUG
                     (logging.Text (lit "compilation exit code: %d")) false]
        /\ wrapper_entry_point (wrapper_environment args) (argv0 :: rest)
             spawn decode reconfigure_logging_float function w
           = (Return status, w3)
        /\ match function
                   (Report (PStr (if is_cxx (basename argv0)
                                  then args_cxx args else args_cc args))
                      (words ++ rest) status (PStr (args_cc args))
                      (PStr (args_cxx args))) w2
           with
           | (Return _, wf) => w3 = wf
           | (Raise _, wf) =>
               logging_calls.exception
                 (lit "Compiler wrapper failed complete.") wf
               = (Return tt, w3)
               /\ events w3
                  = events wf
                      ++ [LogCall logging.ERROR
                            (logging.Text
                               (lit "Compiler wrapper failed complete."))
                            true]
           end
  | Raise e =>
      exists w1,
        wrapper_entry_point (wrapper_environment args) (argv0 :: rest)
          spawn decode reconfigure_logging_float function w
        = (Raise e, w1)
        /\ events w1
           = events w
               ++ [LogCall logging.DEBUG (logging.Text (lit "compilation: %s"))
                     false;
                   Exec (words ++ rest) None]
  end.
Proof.
  intros Hcc Hcxx Hwords.
  pose proof (load_parameters_encoded args Hcc Hcxx) as Hload.
  assert (Hcompiler :
            real_compiler
              (PDict [(lit "verbose", PInt (args_verbose args));
                      (lit "cc", PStr (args_cc args));
                      (lit "cxx", PStr (args_cxx args))])
              (basename argv0)
            = Return (PStr (if is_cxx (basename argv0) then args_cxx args
                            else args_cc args))).
  { unfold real_compiler. by destruct (is_cxx (basename argv0)). }
  destruct (compilation_runs (wrapper_environment args) spawn decode
              reconfigure_logging_float argv0 rest _ _ (args_verbose args)
              words w Hload eq_refl Hcompiler Hwords) as (w1 & Hev & Hrun).
  destruct (spawn (words ++ rest) None) as [[status output]|e].
  - destruct Hrun as (w2 & Hc & Hev2).
    destruct (wrapper_reported (wrapper_environment args) (argv0 :: rest)
                spawn decode reconfigure_logging_float function _ _ _ _ _ _
                Hc) as (w3 & Hw & Hreport).
    change (getitem _ (lit "cc")) with (Return (PStr (args_cc args)))
      in Hreport.
    change (getitem _ (lit "cxx")) with (Return (PStr (args_cxx args)))
      in Hreport.
    exists w2, w3. split; [done|].
    split; [by rewrite Hev2, Hev, <- app_assoc|]. by split.
  - exists w1. split; [|done]. by apply wrapper_compilation_raises.
Qed.

Lemma basename_without_slash (acc name : pystr) :
  47%N ∉ name ->
  fold_left (fun acc c => if (c =? 47)%N then [] else acc ++ [c]) name acc
  = acc ++ name.
Proof.
  revert acc. induction name as [|c name IH]; intros acc Hno; simpl.
  - by rewrite app_nil_r.
  - apply not_elem_of_cons in Hno as [Hc Hno].
    replace (c =? 47)%N with false by (symmetry; apply N.eqb_neq; congruence).
    rewrite IH by done. by rewrite <- app_assoc.
Qed.

Lemma basename_of_path (directory name : pystr) :
  47%N ∉ name -> basename (directory ++ 47%N :: name) = name.
Proof.
  intros Hno. unfold basename. rewrite fold_left_app. cbn [fold_left].
  change (47 =? 47)%N with true. cbn iota. by rewrite basename_without_slash.
Qed.

(** The compilation step looks at [sys.argv[0]] through its basename
    only. *)
Lemma compilation_basename
    (environ : gmap pystr pystr)
    (spawn : list pystr -> option pystr -> outcome (Z * list Byte.byte))
    (decode : pyval -> outcome (list pystr))
    (reconfigure_logging_float : pystr -> M unit)
    (argv0 argv0' : pystr) (rest : list pystr) (w : world) :
  basename argv0 = basename argv0' ->
  compilation environ (argv0 :: rest) spawn decode reconfigure_logging_float w
  = compilation environ (argv0' :: rest) spawn decode
      reconfigure_logging_float w.
Proof.
  intros Hbase. unfold compilation, bind, lift.
  destruct (load_parameters environ) as [parameters|]; [|done].
  destruct (getitem parameters (lit "verbose")) as [verbose|]; [|done].
  destruct (reconfigure_logging_value reconfigure_logging_float verbose w)
    as [[[]|] w0]; [|done].
  cbn [item0 tail]. cbv beta iota. by rewrite Hbase.
Qed.

(** X19.  Only the file name of the wrapper counts: invoked through any
    directory, one that has [c++] in its own name included, the wrapper
    runs as it does when invoked by the bare file name, with the same
    outcome and the same final state, and so does its compilation step;
    the compiler that a compilation step has run is the one that the file
    name alone selects from the parameters. *)
Theorem personality_ignores_directory {R : Type}
    (environ : gmap pystr pystr)
    (spawn : list pystr -> option pystr -> outcome (Z * list Byte.byte))
    (decode : pyval -> outcome (list pystr))
    (reconfigure_logging_float : pystr -> M unit)
    (function : report -> M R)
    (directory name : pystr) (rest : list pystr) (w : world) :
  47%N ∉ name ->
  wrapper_entry_point environ ((directory ++ 47%N :: name) :: rest) spawn
    decode reconfigure_logging_float function w
  = wrapper_entry_point environ (name :: rest) spawn decode
      reconfigure_logging_float function w
  /\ compilation environ ((directory ++ 47%N :: name) :: rest) spawn decode
       reconfigure_logging_float w
     = compilation environ (name :: rest) spawn decode
         reconfigure_logging_float w
  /\ forall parameters compiler command result w1,
       compilation environ ((directory ++ 47%N :: name) :: rest) spawn decode
         reconfigure_logging_float w
       = (Return (parameters, compiler, command, result), w1) ->
       real_compiler parameters name = Return compiler.
Proof.
  intros Hno.
  assert (Hbase : basename (directory ++ 47%N :: name) = basename name).
  { rewrite basename_of_path by done. unfold basename.
    by rewrite basename_without_slash. }
  pose proof (compilation_basename environ spawn decode
                reconfigure_logging_float _ _ rest w Hbase) as Hsame.
  split; [|split; [done|]].
  - unfold wrapper_entry_point, wrapper, bind. by rewrite Hsame.
  - intros parameters compiler command result w1 Hc.
    destruct (compilation_inversion environ _ spawn decode
                reconfigure_logging_float _ _ _ _ _ _ Hc)
      as (verbose & argv0 & words & output & w0 & _ & _ & _ & Hargv
          & Hcompiler & _).
    injection Hargv as <-. by rewrite basename_of_path in Hcompiler.
Qed.
End ConfiguredWrapperFacts.

Lemma configured_wrapper_runs_configured_compiler_witness :
  exists w2 w3,
    Wrapper.compilation (Wrapper.wrapper_environment Samples.args)
      (lit "/usr/lib/wrappers/intercept-c++"
         :: [lit "-c"; lit "a b.cc"; lit "-o"; lit "a.o"])
      Samples.failing_compiler Wrapper.shell_decode Samples.no_float
      fresh_world
    = (Return (PDict [(lit "verbose", PInt 2);
                      (lit "cc", PStr (lit "/usr/bin/clang"));
                      (lit "cxx", PStr (lit "/usr/bin/clang++"))],
               PStr (lit "/usr/bin/clang++"),
               [lit "/usr/bin/clang++"]
                 ++ [lit "-c"; lit "a b.cc"; lit "-o"; lit "a.o"], 1), w2)
    /\ events w2
       = events fresh_world
           ++ [LogCall logging.DEBUG (logging.Text (lit "compilation: %s"))
                 false;
               Exec ([lit "/usr/bin/clang++"]
                       ++ [lit "-c"; lit "a b.cc"; lit "-o"; lit "a.o"]) None;
               LogCall logging.DEBUG
                 (logging.Text (lit "compilation exit code: %d")) false]
    /\ Wrapper.wrapper_entry_point (Wrapper.wrapper_environment Samples.args)
         (lit "/usr/lib/wrappers/intercept-c++"
            :: [lit "-c"; lit "a b.cc"; lit "-o"; lit "a.o"])
         Samples.failing_compiler Wrapper.shell_decode Samples.no_float
         Samples.failing_report fresh_world
       = (Return 1, w3)
    /\ logging_calls.exception (lit "Compiler wrapper failed complete.") w2
       = (Return tt, w3)
    /\ events w3
       = events w2
           ++ [LogCall logging.ERROR
                 (logging.Text (lit "Compiler wrapper failed complete."))
                 true].
Proof.
  apply (configured_wrapper_runs_configured_compiler Samples.args
           Samples.failing_compiler Wrapper.shell_decode Samples.no_float
           Samples.failing_report (lit "/usr/lib/wrappers/intercept-c++")
           [lit "-c"; lit "a b.cc"; lit "-o"; lit "a.o"]
           [lit "/usr/bin/clang++"] fresh_world).
  - unfold lit. simpl. repeat constructor; unfold json.unicode_scalar; lia.
  - unfold lit. simpl. repeat constructor; unfold json.unicode_scalar; lia.
  - reflexivity.
Defined.

Lemma personality_ignores_directory_witness :
  Wrapper.wrapper_entry_point (Wrapper.wrapper_environment Samples.args)
    ((lit "/opt/c++-tools/bin" ++ 47%N :: lit "intercept-cc")
       :: [lit "-c"; lit "a.c"])
    Samples.failing_compiler Wrapper.shell_decode Samples.no_float
    Samples.failing_report fresh_world
  = Wrapper.wrapper_entry_point (Wrapper.wrapper_environment Samples.args)
      (lit "intercept-cc" :: [lit "-c"; lit "a.c"])
      Samples.failing_compiler Wrapper.shell_decode Samples.no_float
      Samples.failing_report fresh_world
  /\ Wrapper.compilation (Wrapper.wrapper_environment Samples.args)
       ((lit "/opt/c++-tools/bin" ++ 47%N :: lit "intercept-cc")
          :: [lit "-c"; lit "a.c"])
       Samples.failing_compiler Wrapper.shell_decode Samples.no_float
       fresh_world
     = Wrapper.compilation (Wrapper.wrapper_environment Samples.args)
         (lit "intercept-cc" :: [lit "-c"; lit "a.c"])
         Samples.failing_compiler Wrapper.shell_decode Samples.no_float
         fresh_world
  /\ forall parameters compiler command result w1,
       Wrapper.compilation (Wrapper.wrapper_environment Samples.args)
         ((lit "/opt/c++-tools/bin" ++ 47%N :: lit "intercept-cc")
            :: [lit "-c"; lit "a.c"])
         Samples.failing_compiler Wrapper.shell_decode Samples.no_float
         fresh_world
       = (Return (parameters, compiler, command, result), w1) ->
       Wrapper.real_compiler parameters (lit "intercept-cc")
       = Return compiler.
Proof.
  apply (personality_ignores_directory
           (Wrapper.wrapper_environment Samples.args)
           Samples.failing_compiler Wrapper.shell_decode Samples.no_float
           Samples.failing_report (lit "/opt/c++-tools/bin")
           (lit "intercept-cc") [lit "-c"; lit "a.c"] fresh_world).
  vm_compute. intros Hin.
  repeat (apply elem_of_cons in Hin as [Hin|Hin]; [discriminate Hin|]).
  by apply elem_of_nil in Hin.
Defined.

(** ** The transport value *)

Section TransportFacts.
Import json Wrapper.

Ltac div_lia := zify; Z.to_euclidean_division_equations; lia.

(** A character that prints in ASCII: from the space to the tilde. *)
Local Abbreviation printable c := ((32 <= c <= 126)%N).

Lemma hex_digit_printable (d : N) : (d < 16)%N -> printable (hex_digit d).
Proof. intros Hd. unfold hex_digit. destruct (N.ltb_spec d 10); lia. Qed.

Lemma u_escape_printable (n : N) : Forall (fun c => printable c) (u_escape n).
Proof.
  unfold u_escape.
  repeat (constructor; [first [lia | apply hex_digit_printable; div_lia]|]).
  constructor.
Qed.

Lemma escape_char_printable (c : N) :
  Forall (fun c => printable c) (escape_char c).
Proof.
  unfold escape_char.
  destruct (N.eqb_spec c 92); [repeat constructor; lia|].
  destruct (N.eqb_spec c 34); [repeat constructor; lia|].
  destruct ((32 <=? c) && (c <=? 126))%N eqn:Hp.
  { apply andb_true_iff in Hp as [Hlo Hhi].
    apply N.leb_le in Hlo, Hhi. repeat constructor; lia. }
  destruct (c =? 8)%N; [repeat constructor; lia|].
  destruct (c =? 12)%N; [repeat constructor; lia|].
  destruct (c =? 10)%N; [repeat constructor; lia|].
  destruct (c =? 13)%N; [repeat constructor; lia|].
  destruct (c =? 9)%N; [repeat constructor; lia|].
  destruct (c <? 65536)%N; [apply u_escape_printable|].
  apply Forall_app. split; apply u_escape_printable.
Qed.

Lemma encode_basestring_ascii_printable (s : pystr) :
  Forall (fun c => printable c) (encode_basestring_ascii s).
Proof.
  unfold encode_basestring_ascii. constructor; [lia|].
  apply Forall_app. split; [|repeat constructor; lia].
  induction s as [|c s IH]; simpl; [constructor|].
  apply Forall_app. split; [apply escape_char_printable|done].
Qed.

Lemma digits_printable (u : Decimal.uint) :
  Forall (fun c => printable c) (digits u).
Proof. induction u; simpl; constructor; try done; lia. Qed.

Lemma int_repr_printable (z : Z) : Forall (fun c => printable c) (int_repr z).
Proof.
  unfold int_repr. destruct (Z.to_int z).
  - apply digits_printable.
  - constructor; [lia|apply digits_printable].
Qed.

(** X20.  The environment that [wrapper_environment] makes has the one
    variable [INTERCEPT_BUILD], and its value is made of printable ASCII
    characters only, whatever the verbosity and whatever characters the two
    paths have (control characters and characters outside ASCII are
    escaped). *)
Theorem wrapper_environment_is_ascii (args : arguments) :
  dom (wrapper_environment args) = {[ ENVIRONMENT_KEY ]}
  /\ exists value,
       wrapper_environment args !! ENVIRONMENT_KEY = Some value
       /\ Forall (fun c => (32 <= c <= 126)%N) value.
Proof.
  unfold wrapper_environment. split; [apply dom_singleton_L|].
  eexists. split; [apply lookup_singleton_eq|].
  rewrite encode_dict_shape.
  pose proof (encode_basestring_ascii_printable (lit "verbose")) as Hk1.
  pose proof (encode_basestring_ascii_printable (lit "cc")) as Hk2.
  pose proof (encode_basestring_ascii_printable (lit "cxx")) as Hk3.
  unfold encode_basestring_ascii in Hk1, Hk2, Hk3.
  apply Forall_cons in Hk1 as [_ Hk1]. apply Forall_app in Hk1 as [Hk1 _].
  apply Forall_cons in Hk2 as [_ Hk2]. apply Forall_app in Hk2 as [Hk2 _].
  apply Forall_cons in Hk3 as [_ Hk3]. apply Forall_app in Hk3 as [Hk3 _].
  pose proof (int_repr_printable (args_verbose args)) as Hv1.
  pose proof (encode_basestring_ascii_printable (args_cc args)) as Hv2.
  pose proof (encode_basestring_ascii_printable (args_cxx args)) as Hv3.
  generalize dependent (int_repr (args_verbose args)).
  generalize dependent (encode_basestring_ascii (args_cc args)).
  generalize dependent (encode_basestring_ascii (args_cxx args)).
  generalize dependent (flat_map escape_char (lit "verbose")).
  generalize dependent (flat_map escape_char (lit "cc")).
  generalize dependent (flat_map escape_char (lit "cxx")).
  intros k3 Hk3 k2 Hk2 k1 Hk1 v3 Hv3 v2 Hv2 v1 Hv1.
  repeat first
    [ apply Forall_nil_2
    | apply Forall_cons; split; [cbn beta; lia|]
    | apply Forall_app; split; [assumption|] ].
Qed.

(** X21.  Two configurations whose paths are made of characters never
    share a transport value: if [wrapper_environment] gives the same
    environment for both, they have the same verbosity and the same two
    paths. *)
Theorem wrapper_environment_is_injective (a b : arguments) :
  Forall unicode_scalar (args_cc a) -> Forall unicode_scalar (args_cxx a) ->
  Forall unicode_scalar (args_cc b) -> Forall unicode_scalar (args_cxx b) ->
  wrapper_environment a = wrapper_environment b ->
  a = b.
Proof.
  intros Ha1 Ha2 Hb1 Hb2 Heq.
  pose proof (load_parameters_encoded a Ha1 Ha2) as Hla.
  pose proof (load_parameters_encoded b Hb1 Hb2) as Hlb.
  rewrite Heq, Hlb in Hla. destruct a, b. simpl in *. congruence.
Qed.
End TransportFacts.

Lemma wrapper_environment_is_injective_witness :
  Wrapper.Arguments 1 (lit "gcc") (lit "g++")
  = Wrapper.Arguments 1 (lit "gcc") (lit "g++").
Proof.
  apply (wrapper_environment_is_injective
           (Wrapper.Arguments 1 (lit "gcc") (lit "g++"))
           (Wrapper.Arguments 1 (lit "gcc") (lit "g++")));
    try reflexivity;
    unfold lit; simpl; repeat constructor; unfold json.unicode_scalar; lia.
Defined.

(** ** Command runner, further *)

Section CommandRunnerMore.
Import logging logging_calls CommandRunner.
Variable abspath : pystr -> pystr.
Variable getcwd : outcome pystr.
Variable spawn : list pystr -> option pystr -> outcome (Z * list Byte.byte).

(** X22.  [run_build] starts the command once and returns its exit status,
    zero or not: a failing build is a result, not an exception.  Only a
    command that cannot be started makes it raise. *)
Theorem run_build_returns_any_status (command : list pystr) (w : world) :
  exists w1,
    events w1
    = events w
        ++ [LogCall DEBUG (Text (lit "run build %s, in environment: %s")) false;
            Exec command None]
    /\ match spawn command None with
       | Return (status, _) =>
           exists w2,
             run_build spawn command w = (Return status, w2)
             /\ events w2
                = events w1
                    ++ [LogCall DEBUG
                          (Text (lit "build finished with exit code: %d"))
                          false]
       | Raise e => run_build spawn command w = (Raise e, w1)
       end.
Proof.
  destruct (debug_events (lit "run build %s, in environment: %s") w)
    as (wd & Hdbg & Hevd).
  exists (World (root wd) (disable wd) (events wd ++ [Exec command None])).
  split; [simpl; by rewrite Hevd, <- app_assoc|].
  unfold run_build, bind, call, record_event. rewrite Hdbg.
  unfold bind, ret, raise. cbn beta iota.
  destruct (spawn command None) as [[status output]|e]; [|done].
  match goal with
  | |- context [debug ?m ?w'] =>
      destruct (debug_events m w') as (w2 & -> & Hev2)
  end.
  exists w2. split; [done|]. by rewrite Hev2.
Qed.

(** X23.  What [run_command] does when the command never runs to an exit:
    if the working directory cannot be found nothing is logged or started,
    and if the start itself fails the one attempt is on record; both times
    the exception comes out as it was raised. *)
Theorem run_command_start_failures
    (command : list pystr) (cwd : option pystr) (w : world) e :
  (forall returncode cmd output,
      e <> CalledProcessError returncode cmd output) ->
  (working_directory abspath getcwd cwd = Raise e ->
   run_command abspath getcwd spawn command cwd w = (Raise e, w))
  /\ (forall directory,
         working_directory abspath getcwd cwd = Return directory ->
         spawn command (Some directory) = Raise e ->
         exists w1,
           run_command abspath getcwd spawn command cwd w = (Raise e, w1)
           /\ events w1
              = events w
                  ++ [LogCall DEBUG (Text (lit "exec command %s in %s")) false;
                      Exec command (Some directory)]).
Proof.
  intros Hother. split.
  - intros Hdir. unfold run_command, try_except, bind, lift.
    rewrite Hdir.
    destruct e; try done. by destruct (Hother returncode cmd output).
  - intros directory Hdir Hrun.
    destruct (debug_events (lit "exec command %s in %s") w)
      as (wd & Hdbg & Hevd).
    exists (World (root wd) (disable wd)
              (events wd ++ [Exec command (Some directory)])).
    split; [|simpl; by rewrite Hevd, <- app_assoc].
    unfold run_command, check_output, try_except, bind, lift, record_event,
      raise.
    rewrite Hdir, Hdbg, Hrun.
    destruct e; try done. by destruct (Hother returncode cmd output).
Qed.

Lemma splitlines_from_no_breaks (line s : pystr) :
  Forall (fun c => is_linebreak c = false) line ->
  Forall (Forall (fun c => is_linebreak c = false)) (splitlines_from line s).
Proof.
  assert (Hgen : forall (n : nat) (s line : pystr),
             (length s < n)%nat ->
             Forall (fun c => is_linebreak c = false) line ->
             Forall (Forall (fun c => is_linebreak c = false))
               (splitlines_from line s)).
  { induction n as [|n IH]; intros s0 line0 Hlen Hline; [lia|].
    destruct s0 as [|c rest]; cbn [splitlines_from].
    - destruct line0 as [|c0 line0]; [constructor|].
      constructor; [done|constructor].
    - simpl in Hlen. destruct (is_linebreak c) eqn:Hc.
      + destruct rest as [|d rest'].
        * constructor; [done|]. simpl. constructor.
        * simpl in Hlen.
          destruct ((c =? 13) && (d =? 10))%N; constructor; try done.
          -- apply IH; [lia|constructor].
          -- apply IH; [simpl; lia|constructor].
      + apply IH; [lia|]. apply Forall_app. split; [done|].
        by repeat constructor. }
  apply (Hgen (S (length s))). lia.
Qed.

(** X24.  The lines that [run_command] returns are lines: none of them has
    a line feed, a carriage return or any other line boundary left in
    it. *)
Theorem run_command_lines_have_no_breaks
    (command : list pystr) (cwd : option pystr) (w w' : world)
    (lines : list pystr) (line : pystr) (c : N) :
  run_command abspath getcwd spawn command cwd w = (Return lines, w') ->
  line ∈ lines -> c ∈ line -> is_linebreak c = false.
Proof.
  intros Hrun Hline Hc.
  assert (Hsplit : exists text, lines = splitlines text).
  { revert Hrun.
    unfold run_command, check_output, try_except, bind, lift, record_event,
      ret, raise.
    destruct (working_directory abspath getcwd cwd) as [directory|e0].
    - destruct (debug_events (lit "exec command %s in %s") w)
        as (wd & -> & _).
      destruct (spawn command (Some directory)) as [[status output]|e0].
      + destruct (status =? 0).
        * destruct (decode_when_needed output) as [text|e1] eqn:Hd.
          -- intros Heq. injection Heq as <- _. by exists text.
          -- unfold decode_when_needed in Hd.
             destruct (utf8_decode _); [discriminate|].
             injection Hd as <-. discriminate.
        * destruct (decode_when_needed output); discriminate.
      + destruct e0 as [| | | | | | | | | |rc cmd [out|ls]|]; try discriminate.
        destruct (decode_when_needed out); discriminate.
    - destruct e0 as [| | | | | | | | | |rc cmd [out|ls]|]; try discriminate.
      destruct (decode_when_needed out); discriminate. }
  destruct Hsplit as [text ->].
  pose proof (splitlines_from_no_breaks [] text (Forall_nil_2 _)) as Hall.
  rewrite Forall_forall in Hall. specialize (Hall line Hline).
  rewrite Forall_forall in Hall. by apply Hall.
Qed.

Lemma utf8_decode_ascii (bs : list N) :
  Forall (fun b => (b < 128)%N) bs -> utf8_decode bs = Some bs.
Proof.
  induction 1 as [|b bs Hb _ IH]; [done|]. cbn [utf8_decode].
  replace (b <? 128)%N with true by (symmetry; by apply N.ltb_lt).
  by rewrite IH.
Qed.

(** X25.  Output in plain ASCII always decodes, to the same characters:
    for a command that ran to an exit and wrote octets below 128 only,
    [run_command] returns the lines of those characters when the status is
    zero, and raises [CalledProcessError] with the status and those lines
    when it is not. *)
Theorem run_command_ascii_output
    (command : list pystr) (cwd : option pystr) (directory : pystr)
    (status : Z) (output : list Byte.byte) (w : world) :
  working_directory abspath getcwd cwd = Return directory ->
  spawn command (Some directory) = Return (status, output) ->
  Forall (fun b => (Byte.to_N b < 128)%N) output ->
  fst (run_command abspath getcwd spawn command cwd w)
  = if status =? 0
    then Return (splitlines (map Byte.to_N output))
    else Raise (CalledProcessError status command
                  (OutputLines (splitlines (map Byte.to_N output)))).
Proof.
  intros Hdir Hrun Hascii.
  destruct (run_command_started abspath getcwd spawn command cwd directory
              status output w Hdir Hrun) as (w' & _ & ->).
  unfold decode_when_needed.
  rewrite utf8_decode_ascii by (by apply Forall_fmap).
  by destruct (status =? 0).
Qed.
End CommandRunnerMore.

Lemma run_command_start_failures_witness :
  CommandRunner.run_command (fun p => p) (Raise OSError)
    (fun _ _ => Return (0, [])) [lit "make"] None fresh_world
  = (Raise OSError, fresh_world).
Proof.
  apply (proj1 (run_command_start_failures (fun p => p) (Raise OSError)
                  (fun _ _ => Return (0, [])) [lit "make"] None fresh_world
                  OSError (fun _ _ _ H => ltac:(discriminate H)))).
  reflexivity.
Defined.

Lemma run_command_lines_have_no_breaks_witness :
  CommandRunner.is_linebreak 98 = false.
Proof.
  apply (run_command_lines_have_no_breaks (fun p => p) (Return (lit "/build"))
           (fun _ _ => Return (0, [Byte.x61; Byte.x0d; Byte.x0a; Byte.x62]))
           [lit "printf"] None fresh_world
           (snd (CommandRunner.run_command (fun p => p)
                   (Return (lit "/build"))
                   (fun _ _ =>
                      Return (0, [Byte.x61; Byte.x0d; Byte.x0a; Byte.x62]))
                   [lit "printf"] None fresh_world))
           [lit "a"; lit "b"] (lit "b") 98%N).
  - reflexivity.
  - right. by left.
  - by left.
Defined.

Lemma run_command_ascii_output_witness :
  fst (CommandRunner.run_command (fun p => p) (Return (lit "/build"))
         (fun _ _ => Return (2, [Byte.x6e; Byte.x6f; Byte.x0a]))
         [lit "false"] None fresh_world)
  = if 2 =? 0
    then Return (CommandRunner.splitlines
                   (map Byte.to_N [Byte.x6e; Byte.x6f; Byte.x0a]))
    else Raise (CalledProcessError 2 [lit "false"]
                  (OutputLines
                     (CommandRunner.splitlines
                        (map Byte.to_N [Byte.x6e; Byte.x6f; Byte.x0a])))).
Proof.
  apply (run_command_ascii_output (fun p => p) (Return (lit "/build"))
           (fun _ _ => Return (2, [Byte.x6e; Byte.x6f; Byte.x0a]))
           [lit "false"] None (lit "/build") 2
           [Byte.x6e; Byte.x6f; Byte.x0a] fresh_world eq_refl eq_refl).
  repeat constructor.
Defined.

(** ** Tracing *)

Section TraceFacts.
Import logging.
Context {R : Type}.
Variable function_name : pystr.

(** X26.  A traced function is the function between two debug messages:
    the entering message is logged first, the function then runs in that
    state, and its value is returned after the leaving message; when the
    function raises, its exception comes out with no leaving message
    logged. *)
Theorem trace_is_transparent (function : M R) (w : world) :
  exists w1,
    logging_calls.debug (lit "entering " ++ function_name) w = (Return tt, w1)
    /\ events w1
       = events w
           ++ [LogCall DEBUG (Text (lit "entering " ++ function_name)) false]
    /\ match function w1 with
       | (Return v, w2) =>
           exists w3,
             Trace.trace function_name function w = (Return v, w3)
             /\ events w3
                = events w2
                    ++ [LogCall DEBUG (Text (lit "leaving " ++ function_name))
                          false]
       | (Raise e, w2) =>
           Trace.trace function_name function w = (Raise e, w2)
       end.
Proof.
  destruct (debug_events (lit "entering " ++ function_name) w)
    as (w1 & Hdbg & Hev).
  exists w1. split; [done|]. split; [done|].
  unfold Trace.trace, Trace.wrapper, bind. rewrite Hdbg.
  destruct (function w1) as [[v|e] w2]; [|done].
  destruct (debug_events (lit "leaving " ++ function_name) w2)
    as (w3 & -> & Hev3).
  by exists w3.
Qed.
End TraceFacts.

(** ** Required state, further *)

Section RequireMore.
Import logging Decorators.
Context {V C R : Type}.
Variable function_name : pystr.

Lemma precondition_from_app (before after : list pystr) (opts : gmap pystr V)
    (w : world) :
  (forall key, key ∈ before -> key ∈ dom opts) ->
  precondition_from function_name (before ++ after) opts w
  = precondition_from function_name after opts w.
Proof.
  induction before as [|key before IH]; intros Hall; [done|]. simpl.
  rewrite decide_False.
  - apply IH. intros k Hk. apply Hall. by right.
  - intros Hn. apply Hn, Hall. by left.
Qed.

Lemma precondition_outcome (keys : list pystr) (opts : gmap pystr V)
    (w : world) :
  precondition_from function_name keys opts w = (Return tt, w)
  \/ exists key,
       precondition_from function_name keys opts w
       = (Raise (KeyError (key ++ lit " not passed to " ++ function_name)), w).
Proof.
  induction keys as [|key keys IH]; [by left|]. simpl.
  destruct (decide (key ∉ dom opts)); [right; by exists key|done].
Qed.

(** X27.  The missing key that the log names is the first one in the
    order of the list: when all keys before it are in [opts] and it is not,
    the wrapper logs that this key was not passed and returns [None],
    whatever keys come after it and whatever the decorated function is. *)
Theorem require_reports_first_missing_key
    (before after : list pystr) (key : pystr)
    (function : gmap pystr V -> C -> M R)
    (opts : gmap pystr V) (cont : C) (w : world) :
  (forall k, k ∈ before -> k ∈ dom opts) ->
  key ∉ dom opts ->
  exists w',
    wrapper (before ++ key :: after) function_name function opts cont w
    = (Return None, w')
    /\ events w'
       = events w
           ++ [LogCall ERROR
                 (StrOf (KeyError
                           (key ++ lit " not passed to " ++ function_name)))
                 false].
Proof.
  intros Hbefore Hmissing.
  destruct (error_events
              (StrOf (KeyError (key ++ lit " not passed to " ++ function_name)))
              w) as (w' & Herr & Hev).
  exists w'. split; [|done].
  unfold wrapper, try_except, bind, precondition.
  rewrite precondition_from_app by done. cbn [precondition_from].
  rewrite decide_True by done. unfold raise.
  cbv beta iota delta [is_Exception]. by rewrite Herr.
Qed.

Lemma precondition_from_concat (first second : list pystr)
    (opts : gmap pystr V) (w : world) :
  precondition_from function_name (first ++ second) opts w
  = match precondition_from function_name first opts w with
    | (Return _, _) => precondition_from function_name second opts w
    | (Raise e, w') => (Raise e, w')
    end.
Proof.
  induction first as [|key first IH]; [done|]. simpl.
  by destruct (decide (key ∉ dom opts)).
Qed.

(** X28.  Two [require] decorators on one function do what one decorator
    with the two lists of keys in a row does: the same value or [None]
    comes back (a [None] of the inner wrapper being the [None] of the
    outer one), the same exception passes, and the same is logged. *)
Theorem require_stacks
    (outer inner : list pystr) (function : gmap pystr V -> C -> M R)
    (opts : gmap pystr V) (cont : C) (w : world) :
  (match fst (wrapper outer function_name
                (wrapper inner function_name function) opts cont w) with
   | Return r => Return (mjoin r)
   | Raise e => Raise e
   end,
   snd (wrapper outer function_name
          (wrapper inner function_name function) opts cont w))
  = wrapper (outer ++ inner) function_name function opts cont w.
Proof.
  unfold wrapper, try_except, bind, precondition, ret.
  rewrite precondition_from_concat.
  destruct (precondition_outcome outer opts w) as [->|[k ->]].
  - destruct (precondition_outcome inner opts w) as [->|[k ->]].
    + destruct (function opts cont w) as [[v|e] w1]; [done|].
      destruct (is_Exception e) eqn:Hex; [|by rewrite Hex].
      by destruct (error_events (StrOf e) w1) as (w' & -> & _).
    + cbv beta iota delta [is_Exception].
      by destruct (error_events
                     (StrOf (KeyError
                               (k ++ lit " not passed to " ++ function_name)))
                     w) as (w' & -> & _).
  - cbv beta iota delta [is_Exception].
    by destruct (error_events
                   (StrOf (KeyError
                             (k ++ lit " not passed to " ++ function_name)))
                   w) as (w' & -> & _).
Qed.
End RequireMore.

Lemma require_reports_first_missing_key_witness :
  exists w',
    Decorators.wrapper ([lit "output"] ++ lit "report" :: [lit "language"])
      (lit "run") (fun (_ : gmap pystr Z) (_ : unit) => ret 0)
      {[ lit "output" := 1 ]} tt fresh_world
    = (Return None, w')
    /\ events w'
       = events fresh_world
           ++ [LogCall logging.ERROR
                 (logging.StrOf
                    (KeyError
                       (lit "report" ++ lit " not passed to " ++ lit "run")))
                 false].
Proof.
  apply (require_reports_first_missing_key (lit "run") [lit "output"]
           [lit "language"] (lit "report")
           (fun (_ : gmap pystr Z) (_ : unit) => ret 0)
           {[ lit "output" := 1 ]} tt fresh_world).
  - intros k Hk. apply list_elem_of_singleton in Hk as ->. set_solver.
  - rewrite dom_singleton_L. apply not_elem_of_singleton. discriminate.
Defined.

(** ** Temporary directory *)

Section TempDirFacts.
Import TempDir.

(** X29.  [tempdir] is the value of the first of [TMPDIR], [TEMP] and
    [TMP] that the environment has (an empty value counts), and [/tmp]
    when it has none of them; a variable of another name changes
    nothing. *)
Theorem tempdir_precedence (environ : gmap pystr pystr) :
  (forall value,
      environ !! lit "TMPDIR" = Some value -> tempdir environ = value)
  /\ (forall value,
         environ !! lit "TMPDIR" = None ->
         environ !! lit "TEMP" = Some value -> tempdir environ = value)
  /\ (forall value,
         environ !! lit "TMPDIR" = None -> environ !! lit "TEMP" = None ->
         environ !! lit "TMP" = Some value -> tempdir environ = value)
  /\ (environ !! lit "TMPDIR" = None -> environ !! lit "TEMP" = None ->
      environ !! lit "TMP" = None -> tempdir environ = lit "/tmp")
  /\ (forall key value,
         key <> lit "TMPDIR" -> key <> lit "TEMP" -> key <> lit "TMP" ->
         tempdir (<[key := value]> environ) = tempdir environ).
Proof.
  unfold tempdir, getenv. repeat split.
  - by intros value ->.
  - by intros value -> ->.
  - by intros value -> -> ->.
  - by intros -> -> ->.
  - intros key value H1 H2 H3. by rewrite !lookup_insert_ne by done.
Qed.
End TempDirFacts.

Lemma tempdir_precedence_witness :
  TempDir.tempdir ({[ lit "TEMP" := lit "/var/tmp" ]}) = lit "/var/tmp".
Proof.
  apply (proj1 (proj2 (tempdir_precedence
                         ({[ lit "TEMP" := lit "/var/tmp" ]})))).
  - apply lookup_singleton_ne. discriminate.
  - apply lookup_singleton_eq.
Defined.
